(** * PsychMem: the selective-memory engine

    A shallow embedding of the scoring, consolidation, reconsolidation and
    retrieval code of PsychMem
    ([src/memory/selective-memory.ts], [src/retrieval/index.ts],
    [src/hooks/session-end.ts]) and the properties its design document
    states about them.

    Conventions of the embedding:
    - a JavaScript [number] is a real number ([R]); rounding, [NaN] and the
      infinities are outside the model;
    - a JavaScript string is a [string]: one [ascii] per UTF-16 code unit,
      which covers the code units below 256;
    - a [Date] is its millisecond time stamp ([Z]), and the clock
      ([Date.now()]) is an explicit argument [now];
    - the store ([MemoryDatabase]) is passed explicitly: every operation
      that touches it takes the store and returns the new one. *)

From Stdlib Require Import Reals Lra.
From stdpp Require Import gmap strings list sorting.
From Stdlib Require Import Ascii ZArith Lia.

Open Scope R_scope.

(** ** Comparisons of numbers as booleans *)

Definition Rltb (x y : R) : bool := if Rlt_dec x y then true else false.
Definition Rleb (x y : R) : bool := if Rle_dec x y then true else false.

(** ** The JavaScript library functions the code calls *)

Module JS.

(** The code units below 256 that the regular expression [\s] matches:
    TAB, LF, VT, FF, CR, SPACE and NO-BREAK SPACE. *)
Definition is_whitespace (c : ascii) : bool :=
  let n := N_of_ascii c in
  (((9 <=? n) && (n <=? 13)) || (n =? 32) || (n =? 160))%N.

(** [String.prototype.toLowerCase] on one code unit below 256: [A-Z] and
    the Latin-1 capitals (all of 192..222 but the multiplication sign). *)
Definition lower_char (c : ascii) : ascii :=
  let n := N_of_ascii c in
  if (((65 <=? n) && (n <=? 90))
      || ((192 <=? n) && (n <=? 222) && negb (n =? 215)))%N
  then ascii_of_N (n + 32) else c.

Fixpoint toLowerCase (s : string) : string :=
  match s with
  | EmptyString => EmptyString
  | String c s' => String (lower_char c) (toLowerCase s')
  end.

(** [s.split(/\s+/)]: the pieces between maximal runs of white space.
    [cur] is the piece being read, [in_ws] tells that the previous code
    unit was white space. A leading or trailing run yields an empty
    piece, and the empty string splits into one empty piece. *)
Fixpoint split_from (s cur : string) (in_ws : bool) : list string :=
  match s with
  | EmptyString => [cur]
  | String c s' =>
      if is_whitespace c
      then (if in_ws then split_from s' EmptyString true
            else cur :: split_from s' EmptyString true)
      else split_from s' (cur +:+ String c EmptyString) false
  end.

Definition split_ws (s : string) : list string :=
  split_from s EmptyString false.

(** [s.includes(kw)]: [kw] occurs in [s] as a substring. *)
Fixpoint includes (s kw : string) : bool :=
  String.prefix kw s
  || match s with
     | EmptyString => false
     | String _ s' => includes s' kw
     end.

(** A [Set] of strings is the list of its elements in insertion order. *)
Definition has (s : list string) (x : string) : bool :=
  existsb (String.eqb x) s.

Definition add (s : list string) (x : string) : list string :=
  if has s x then s else s ++ [x].

(** [new Set(l)] *)
Definition new_Set (l : list string) : list string :=
  fold_left add l [].

(** [Math.ceil] is not needed; [Math.min] and [Math.max] are [Rmin] and
    [Rmax]. *)

(** [s.slice(0, e)]: the code units of [s] before position [e]; a negative
    [e] counts from the end of [s], and the position is kept within
    [s]. *)
Definition slice_to (s : string) (e : Z) : string :=
  let len := Z.of_nat (String.length s) in
  let stop := if (e <? 0)%Z then Z.max (len + e) 0 else Z.min e len in
  String.substring 0 (Z.to_nat stop) s.

End JS.

(** ** Data model ([src/types/index.ts])

    The type declarations are not part of the sources at hand; the records
    below carry the fields that the code reads and writes. *)

(** Modelled from the spec: the type [MemoryStore] is declared in the
    missing [src/types/index.ts]; a unit is in the short-term or in the
    long-term store. *)
Inductive MemoryStore := stm | ltm.

(** Modelled from the spec: the type [MemoryClassification] is declared in
    the missing [src/types/index.ts]; the design document lists these
    eight classifications. *)
Inductive MemoryClassification :=
  | bugfix | learning | decision | preference
  | constraint | procedural | semantic | episodic.

(** Modelled from the spec: the type [MemoryStatus] is declared in the
    missing [src/types/index.ts]; the design document lists these four
    status values. *)
Inductive MemoryStatus := active | pinned | decayed | forgotten.

#[global] Instance MemoryStore_eq_dec : EqDecision MemoryStore.
Proof. solve_decision. Defined.
#[global] Instance MemoryClassification_eq_dec : EqDecision MemoryClassification.
Proof. solve_decision. Defined.
#[global] Instance MemoryStatus_eq_dec : EqDecision MemoryStatus.
Proof. solve_decision. Defined.

(** A classification is a string at run time; [extractTags] uses it as a
    tag. *)
Definition classification_name (c : MemoryClassification) : string :=
  match c with
  | bugfix => "bugfix" | learning => "learning" | decision => "decision"
  | preference => "preference" | constraint => "constraint"
  | procedural => "procedural" | semantic => "semantic"
  | episodic => "episodic"
  end.

(** Modelled from the spec: [isUserLevelClassification] lives in
    [src/types/index.ts], which is missing; the design document fixes the
    user-level classifications as constraint, preference, learning and
    procedural (the same list [formatMemoriesWithScope] spells out). *)
Definition isUserLevelClassification (c : MemoryClassification) : bool :=
  match c with
  | constraint | preference | learning | procedural => true
  | _ => false
  end.

(** [array.includes(x)] on classifications. *)
Definition includes_classification
    (l : list MemoryClassification) (c : MemoryClassification) : bool :=
  existsb (fun c' => bool_decide (c' = c)) l.

(** A string used as a condition is true when it is present and not
    empty. *)
Definition truthy (o : option string) : bool :=
  match o with
  | Some s => negb (String.eqb s "")
  | None => false
  end.

Module MemoryUnit.
(** Modelled from the spec: the interface [MemoryUnit] is declared in the
    missing [src/types/index.ts]; these are the fields of the data model
    of the design document that the code reads or that the store fills in.
    The id is an opaque unique key, here a number. *)
Record t := mk {
  id : nat;
  store : MemoryStore;
  classification : MemoryClassification;
  summary : string;
  status : MemoryStatus;
  strength : R;
  importance : R;
  utility : R;
  novelty : R;
  confidence : R;
  interference : R;
  frequency : nat;
  tags : list string;
  projectScope : option string;
  sessionId : option string;
  sourceEventIds : list string;
  createdAt : Z
}.

Definition set_strength (x : R) (u : t) : t :=
  mk (id u) (store u) (classification u) (summary u) (status u) x
     (importance u) (utility u) (novelty u) (confidence u) (interference u)
     (frequency u) (tags u) (projectScope u) (sessionId u)
     (sourceEventIds u) (createdAt u).

Definition set_store (s : MemoryStore) (u : t) : t :=
  mk (id u) s (classification u) (summary u) (status u) (strength u)
     (importance u) (utility u) (novelty u) (confidence u) (interference u)
     (frequency u) (tags u) (projectScope u) (sessionId u)
     (sourceEventIds u) (createdAt u).

Definition set_status (s : MemoryStatus) (u : t) : t :=
  mk (id u) (store u) (classification u) (summary u) s (strength u)
     (importance u) (utility u) (novelty u) (confidence u) (interference u)
     (frequency u) (tags u) (projectScope u) (sessionId u)
     (sourceEventIds u) (createdAt u).

Definition set_frequency (n : nat) (u : t) : t :=
  mk (id u) (store u) (classification u) (summary u) (status u) (strength u)
     (importance u) (utility u) (novelty u) (confidence u) (interference u)
     n (tags u) (projectScope u) (sessionId u)
     (sourceEventIds u) (createdAt u).
End MemoryUnit.

Module ImportanceSignal.
(** Modelled from the spec: an entry of the "ordered {type, evidence}
    list" of a candidate; the declaration is in the missing
    [src/types/index.ts]. *)
Record t := mk { type : string; evidence : string }.
End ImportanceSignal.

Module MemoryCandidate.
(** Modelled from the spec: the interface [MemoryCandidate] is declared in
    the missing [src/types/index.ts]; the fields are those of the design
    document. *)
Record t := mk {
  classification : MemoryClassification;
  summary : string;
  sourceEventIds : list string;
  preliminaryImportance : R;
  confidence : R;
  importanceSignals : list ImportanceSignal.t
}.
End MemoryCandidate.

Module MemoryFeatureVector.
(** Modelled from the spec: the interface [MemoryFeatureVector] is
    declared in the missing [src/types/index.ts]; the seven inputs of the
    strength formula. *)
Record t := mk {
  recency : R;
  frequency : R;
  importance : R;
  utility : R;
  novelty : R;
  confidence : R;
  interference : R
}.
End MemoryFeatureVector.

Module ScoringWeights.
(** Modelled from the spec: the interface [ScoringWeights] is declared in
    the missing [src/types/index.ts]; one coefficient for each feature. *)
Record t := mk {
  recency : R;
  frequency : R;
  importance : R;
  utility : R;
  novelty : R;
  confidence : R;
  interference : R
}.
End ScoringWeights.

Module PsychMemConfig.
(** Modelled from the spec: the interface [PsychMemConfig] and
    [DEFAULT_CONFIG] are in the missing [src/types/index.ts]; these are
    the configuration fields the code reads, and every function takes the
    merged configuration as an argument. *)
Record t := mk {
  scoringWeights : ScoringWeights.t;
  autoPromoteToLtm : list MemoryClassification;
  stmToLtmStrengthThreshold : R;
  stmToLtmFrequencyThreshold : nat;
  defaultRetrievalLimit : nat
}.
End PsychMemConfig.

(** ** Sorting: [Array.prototype.sort] with a descending comparator

    [sort((a, b) => key(b) - key(a))] is a stable sort: an element moves
    behind another one only when its key is strictly smaller. *)

Fixpoint insert_desc {A} (key : A -> R) (x : A) (l : list A) : list A :=
  match l with
  | [] => [x]
  | y :: l' =>
      if Rltb (key x) (key y) then y :: insert_desc key x l'
      else x :: y :: l'
  end.

Definition sort_desc {A} (key : A -> R) (l : list A) : list A :=
  fold_right (insert_desc key) [] l.

(** ** The store ([src/storage/database.ts])

    The class [MemoryDatabase] is not part of the sources at hand. Its
    operations are modelled from the store contract of the design document
    (section 4.3): a table of memory units in insertion order, a counter
    for fresh ids, and the strength that [createMemory] gives a new unit,
    which the contract leaves open and the store therefore carries as a
    function. *)

Module MemoryDatabase.

Module Features.
(** Modelled from the spec: the [features] argument of [createMemory], with
    the fields that [processCandidates] fills in. *)
Record t := mk {
  sessionId : option string;
  projectScope : option string;
  importance : R;
  utility : R;
  novelty : R;
  confidence : R;
  tags : list string
}.
End Features.

(** Modelled from the spec: the contents of the store; the table of units,
    the counter for fresh ids, and the strength of a new unit. *)
Record t := mk {
  rows : list MemoryUnit.t;
  nextId : nat;
  initialStrength :
    MemoryStore -> MemoryClassification -> string -> Features.t -> R
}.

(** Modelled from the spec: the store with another table. *)
Definition with_rows (l : list MemoryUnit.t) (db : t) : t :=
  mk l (nextId db) (initialStrength db).

(** Modelled from the spec: [createMemory] is missing; it appends a new
    active unit with a fresh id, first occurrence ([frequency = 1]), no
    interference, the given features, and the strength the store
    assigns. *)
Definition createMemory (now : Z) (store : MemoryStore)
    (classification : MemoryClassification) (summary : string)
    (sourceEventIds : list string) (features : Features.t) (db : t)
    : MemoryUnit.t * t :=
  let memory :=
    MemoryUnit.mk (nextId db) store classification summary active
      (initialStrength db store classification summary features)
      (Features.importance features) (Features.utility features)
      (Features.novelty features) (Features.confidence features) 0
      1%nat (Features.tags features) (Features.projectScope features)
      (Features.sessionId features) sourceEventIds now in
  (memory, mk (rows db ++ [memory]) (S (nextId db)) (initialStrength db)).

(** Modelled from the spec: [getMemory(id)] is missing; it returns the
    unit stored under the id, if any. *)
Definition getMemory (id : nat) (db : t) : option MemoryUnit.t :=
  List.find (fun u => Nat.eqb (MemoryUnit.id u) id) (rows db).

(** Modelled from the spec: [getMemoriesByStore(store)] is missing; it
    returns the units of the given store. *)
Definition getMemoriesByStore (s : MemoryStore) (db : t)
    : list MemoryUnit.t :=
  List.filter (fun u => bool_decide (MemoryUnit.store u = s)) (rows db).

(** Modelled from the spec: the units [getTopMemories] looks at, "active+pinned
    only". *)
Definition active_or_pinned (u : MemoryUnit.t) : bool :=
  match MemoryUnit.status u with
  | active | pinned => true
  | _ => false
  end.

(** Modelled from the spec: [getTopMemories(limit)] is missing; it
    returns the [limit] strongest units, strength descending, among the
    active and pinned ones. Units of equal strength keep their table
    order. *)
Definition getTopMemories (limit : nat) (db : t) : list MemoryUnit.t :=
  firstn limit
    (sort_desc MemoryUnit.strength (List.filter active_or_pinned (rows db))).

(** Modelled from the spec: an update of the rows stored under one id, the
    common shape of the single-call mutations of the contract. *)
Definition update (id : nat) (f : MemoryUnit.t -> MemoryUnit.t) (db : t)
    : t :=
  with_rows
    (List.map (fun u => if Nat.eqb (MemoryUnit.id u) id then f u else u)
       (rows db))
    db.

(** Modelled from the spec: [promoteToLtm(id)] is missing; it moves the
    unit to the long-term store. *)
Definition promoteToLtm (id : nat) : t -> t :=
  update id (MemoryUnit.set_store ltm).

(** Modelled from the spec: [updateMemoryStatus(id, status)] is missing;
    it sets the status of the unit. *)
Definition updateMemoryStatus (id : nat) (s : MemoryStatus) : t -> t :=
  update id (MemoryUnit.set_status s).

(** Modelled from the spec: [updateMemoryStrength(id, strength)] is
    missing; it sets the strength of the unit. *)
Definition updateMemoryStrength (id : nat) (x : R) : t -> t :=
  update id (MemoryUnit.set_strength x).

(** Modelled from the spec: [incrementFrequency(id)] is missing; it adds
    one to the frequency of the unit. *)
Definition incrementFrequency (id : nat) : t -> t :=
  update id (fun u => MemoryUnit.set_frequency (S (MemoryUnit.frequency u)) u).

(** Modelled from the spec: ids are unique keys, and here below the
    counter: what fresh-id generation maintains. *)
Definition wf (db : t) : Prop :=
  NoDup (List.map MemoryUnit.id (rows db))
  /\ Forall (fun u => (MemoryUnit.id u < nextId db)%nat) (rows db).

Module Conn.
(** Modelled from the spec: a connection to the store; the working
    contents and, while a transaction is open, the contents saved when it
    began. *)
Record conn := mk { data : t; saved : option t }.
End Conn.

(** Modelled from the spec: [beginTransaction] is missing; it opens the
    transaction scope of the contract, remembering the contents to roll
    back to. *)
Definition beginTransaction (c : Conn.conn) : Conn.conn :=
  Conn.mk (Conn.data c) (Some (Conn.data c)).

(** Modelled from the spec: [commitTransaction] is missing; it keeps the
    working contents and closes the transaction. *)
Definition commitTransaction (c : Conn.conn) : Conn.conn :=
  Conn.mk (Conn.data c) None.

(** Modelled from the spec: [rollbackTransaction] is missing; it
    restores the contents saved at the beginning and closes the
    transaction. *)
Definition rollbackTransaction (c : Conn.conn) : Conn.conn :=
  Conn.mk (match Conn.saved c with
           | Some d => d
           | None => Conn.data c
           end) None.

End MemoryDatabase.

(** ** The selective-memory engine ([src/memory/selective-memory.ts]) *)

Module ConsolidationResult.
Record t := mk {
  promoted : list nat;
  decayed : list nat;
  unchanged : list nat
}.
End ConsolidationResult.

Module ReconsolidationResult.
Record t := mk {
  success : bool;
  updated : option bool;
  oldConfidence : option R;
  newConfidence : option R;
  conflict : option bool;
  reinforced : option bool;
  reason : option string
}.
End ReconsolidationResult.

Module Evidence.
Record t := mk {
  content : string;
  confidence : R;
  sourceEventId : string
}.
End Evidence.

Module ProcessOptions.
Record t := mk {
  sessionId : option string;
  projectScope : option string
}.
End ProcessOptions.

Module SelectiveMemory.
Section SelectiveMemory.

Variable config : PsychMemConfig.t.

(** [calculateTextSimilarity]: "Simple text similarity (Jaccard index)".
    Every piece of the split is a word, also the short ones and the empty
    piece. *)
Definition calculateTextSimilarity (a b : string) : R :=
  let wordsA := JS.new_Set (JS.split_ws (JS.toLowerCase a)) in
  let wordsB := JS.new_Set (JS.split_ws (JS.toLowerCase b)) in
  let intersection :=
    JS.new_Set (List.filter (fun x => JS.has wordsB x) wordsA) in
  let union := JS.new_Set (wordsA ++ wordsB) in
  INR (length intersection) / INR (length union).

Definition calculateNovelty (candidate : MemoryCandidate.t)
    (db : MemoryDatabase.t) : R :=
  let existingMemories := MemoryDatabase.getTopMemories 50 db in
  if Nat.eqb (length existingMemories) 0 then 1
  else
    let maxSimilarity :=
      fold_left
        (fun maxSimilarity mem =>
           let similarity :=
             calculateTextSimilarity (MemoryCandidate.summary candidate)
               (MemoryUnit.summary mem) in
           Rmax maxSimilarity similarity)
        existingMemories 0 in
    1 - maxSimilarity.

Definition detectInterference (candidate : MemoryCandidate.t)
    (db : MemoryDatabase.t) : R :=
  let existingMemories := MemoryDatabase.getTopMemories 50 db in
  fold_left
    (fun interference mem =>
       let topicSimilarity :=
         calculateTextSimilarity (MemoryCandidate.summary candidate)
           (MemoryUnit.summary mem) in
       if Rltb 0.3 topicSimilarity && Rltb topicSimilarity 0.8
       then Rmax interference (topicSimilarity * 0.5)
       else interference)
    existingMemories 0.

Definition calculateFeatures (candidate : MemoryCandidate.t)
    (db : MemoryDatabase.t) : MemoryFeatureVector.t :=
  MemoryFeatureVector.mk
    0
    1
    (MemoryCandidate.preliminaryImportance candidate)
    0.5
    (calculateNovelty candidate db)
    (MemoryCandidate.confidence candidate)
    0.

Definition calculateStrength (features : MemoryFeatureVector.t) : R :=
  let w := PsychMemConfig.scoringWeights config in
  let normalizedFrequency :=
    Rmin 1 (ln (MemoryFeatureVector.frequency features + 1) / ln 10) in
  let recencyFactor :=
    1 - Rmin 1 (MemoryFeatureVector.recency features / 168) in
  let strength :=
    ScoringWeights.recency w * recencyFactor +
    ScoringWeights.frequency w * normalizedFrequency +
    ScoringWeights.importance w * MemoryFeatureVector.importance features +
    ScoringWeights.utility w * MemoryFeatureVector.utility features +
    ScoringWeights.novelty w * MemoryFeatureVector.novelty features +
    ScoringWeights.confidence w * MemoryFeatureVector.confidence features +
    ScoringWeights.interference w * MemoryFeatureVector.interference features
  in
  Rmax 0 (Rmin 1 strength).

Definition extractTags (candidate : MemoryCandidate.t) : list string :=
  fold_left
    (fun tags signal =>
       if JS.has tags (ImportanceSignal.type signal) then tags
       else tags ++ [ImportanceSignal.type signal])
    (MemoryCandidate.importanceSignals candidate)
    [classification_name (MemoryCandidate.classification candidate)].

(** The body of the loop of [processCandidates]: one candidate. *)
Definition processCandidate (now : Z) (options : option ProcessOptions.t)
    (candidate : MemoryCandidate.t) (db : MemoryDatabase.t)
    : MemoryUnit.t * MemoryDatabase.t :=
  let shouldAutoPromote :=
    includes_classification (PsychMemConfig.autoPromoteToLtm config)
      (MemoryCandidate.classification candidate) in
  let store := if shouldAutoPromote then ltm else stm in
  let features := calculateFeatures candidate db in
  let strength := calculateStrength features in
  let interference := detectInterference candidate db in
  let memoryProjectScope :=
    if isUserLevelClassification (MemoryCandidate.classification candidate)
    then None
    else options ≫= ProcessOptions.projectScope in
  let sessionId := options ≫= ProcessOptions.sessionId in
  let '(memory, db) :=
    MemoryDatabase.createMemory now store
      (MemoryCandidate.classification candidate)
      (MemoryCandidate.summary candidate)
      (MemoryCandidate.sourceEventIds candidate)
      (MemoryDatabase.Features.mk
         (if truthy sessionId then sessionId else None)
         (if truthy memoryProjectScope then memoryProjectScope else None)
         (MemoryCandidate.preliminaryImportance candidate)
         0.5
         (MemoryFeatureVector.novelty features)
         (MemoryCandidate.confidence candidate)
         (extractTags candidate))
      db in
  let db :=
    if Rltb 0 interference
    then MemoryDatabase.updateMemoryStrength (MemoryUnit.id memory)
           (strength * (1 - interference * 0.2)) db
    else db in
  (memory, db).

Fixpoint processCandidates (now : Z) (options : option ProcessOptions.t)
    (candidates : list MemoryCandidate.t) (db : MemoryDatabase.t)
    : list MemoryUnit.t * MemoryDatabase.t :=
  match candidates with
  | [] => ([], db)
  | candidate :: rest =>
      let '(memory, db) := processCandidate now options candidate db in
      let '(createdMemories, db) := processCandidates now options rest db in
      (memory :: createdMemories, db)
  end.

Definition shouldPromoteToLtm (memory : MemoryUnit.t) : bool :=
  if includes_classification (PsychMemConfig.autoPromoteToLtm config)
       (MemoryUnit.classification memory)
  then true
  else if Rleb (PsychMemConfig.stmToLtmStrengthThreshold config)
            (MemoryUnit.strength memory)
  then true
  else if Nat.leb (PsychMemConfig.stmToLtmFrequencyThreshold config)
            (MemoryUnit.frequency memory)
  then true
  else false.

(** The body of the loop of [runConsolidation]: one scanned unit. *)
Definition consolidate (acc : ConsolidationResult.t * MemoryDatabase.t)
    (mem : MemoryUnit.t) : ConsolidationResult.t * MemoryDatabase.t :=
  let '(result, db) := acc in
  if shouldPromoteToLtm mem then
    (ConsolidationResult.mk
       (ConsolidationResult.promoted result ++ [MemoryUnit.id mem])
       (ConsolidationResult.decayed result)
       (ConsolidationResult.unchanged result),
     MemoryDatabase.promoteToLtm (MemoryUnit.id mem) db)
  else if Rltb (MemoryUnit.strength mem) 0.1 then
    (ConsolidationResult.mk
       (ConsolidationResult.promoted result)
       (ConsolidationResult.decayed result ++ [MemoryUnit.id mem])
       (ConsolidationResult.unchanged result),
     MemoryDatabase.updateMemoryStatus (MemoryUnit.id mem) decayed db)
  else
    (ConsolidationResult.mk
       (ConsolidationResult.promoted result)
       (ConsolidationResult.decayed result)
       (ConsolidationResult.unchanged result ++ [MemoryUnit.id mem]),
     db).

Definition runConsolidation (db : MemoryDatabase.t)
    : ConsolidationResult.t * MemoryDatabase.t :=
  let stmMemories := MemoryDatabase.getMemoriesByStore stm db in
  fold_left consolidate stmMemories (ConsolidationResult.mk [] [] [], db).

Definition reconsolidate (memoryId : nat) (newEvidence : Evidence.t)
    (db : MemoryDatabase.t) : ReconsolidationResult.t * MemoryDatabase.t :=
  match MemoryDatabase.getMemory memoryId db with
  | None =>
      (ReconsolidationResult.mk false None None None None None
         (Some "Memory not found"), db)
  | Some memory =>
      if bool_decide (MemoryUnit.status memory = pinned) then
        (ReconsolidationResult.mk false None None None None None
           (Some "Memory is pinned and cannot be reconsolidated"), db)
      else
        let similarity :=
          calculateTextSimilarity (Evidence.content newEvidence)
            (MemoryUnit.summary memory) in
        if Rltb similarity 0.3 then
          let newConfidence :=
            (MemoryUnit.confidence memory + Evidence.confidence newEvidence)
            / 2 * 0.8 in
          let updatedSummary :=
            MemoryUnit.summary memory +:+ " [Updated: "
            +:+ Evidence.content newEvidence +:+ "]" in
          (ReconsolidationResult.mk true (Some true)
             (Some (MemoryUnit.confidence memory)) (Some newConfidence)
             (Some true) None None, db)
        else if Rltb 0.7 similarity then
          let newConfidence :=
            Rmin 1 (MemoryUnit.confidence memory
                    + Evidence.confidence newEvidence * 0.1) in
          let db := MemoryDatabase.incrementFrequency memoryId db in
          (ReconsolidationResult.mk true (Some true)
             (Some (MemoryUnit.confidence memory)) (Some newConfidence)
             (Some false) (Some true) None, db)
        else
          (ReconsolidationResult.mk true (Some false) None None None None
             (Some "No significant update needed"), db)
  end.

Definition calculateRecency (now createdAt : Z) : R :=
  IZR (now - createdAt) / (1000 * 60 * 60).

(** The feature vector [updateUtility] builds for the unit it found. *)
Definition updateUtility_features (now : Z) (memory : MemoryUnit.t)
    (wasUsed : bool) : MemoryFeatureVector.t :=
  let delta := if wasUsed then 0.1 else -0.05 in
  let newUtility := Rmax 0 (Rmin 1 (MemoryUnit.utility memory + delta)) in
  MemoryFeatureVector.mk
    (calculateRecency now (MemoryUnit.createdAt memory))
    (INR (MemoryUnit.frequency memory))
    (MemoryUnit.importance memory)
    newUtility
    (MemoryUnit.novelty memory)
    (MemoryUnit.confidence memory)
    (MemoryUnit.interference memory).

Definition updateUtility (now : Z) (memoryId : nat) (wasUsed : bool)
    (db : MemoryDatabase.t) : MemoryDatabase.t :=
  match MemoryDatabase.getMemory memoryId db with
  | None => db
  | Some memory =>
      let features := updateUtility_features now memory wasUsed in
      let newStrength := calculateStrength features in
      MemoryDatabase.updateMemoryStrength memoryId newStrength db
  end.

End SelectiveMemory.
End SelectiveMemory.

(** What [runConsolidation] does to one row of the table when it handles
    the scanned unit [mem]: the store call selects the rows by the id of
    [mem], and the decision is taken on [mem] as it was read. *)
Definition consolidate_row (config : PsychMemConfig.t)
    (mem row : MemoryUnit.t) : MemoryUnit.t :=
  if Nat.eqb (MemoryUnit.id row) (MemoryUnit.id mem) then
    if SelectiveMemory.shouldPromoteToLtm config mem
    then MemoryUnit.set_store ltm row
    else if Rltb (MemoryUnit.strength mem) 0.1
    then MemoryUnit.set_status decayed row
    else row
  else row.

(** ** The session-end hook ([src/hooks/session-end.ts])

    A store call can throw. A computation of the hook runs on the
    connection and ends either in a value or in a thrown error; what it did
    to the connection before throwing stays done, as in JavaScript. *)

(** Modelled from the spec: the two session states that [process] passes
    to [endSession]; the declaration is in the missing
    [src/types/index.ts]. *)
Inductive SessionStatus := session_abandoned | session_completed.

Module SessionEndData.
(** Modelled from the spec: the payload of the session end, of which
    [process] reads the reason; the declaration is in the missing
    [src/types/index.ts]. *)
Record t := mk { reason : option string }.
End SessionEndData.

Module DecayResult.
Record t := mk { memoriesDecayed : nat; timestamp : Z }.
End DecayResult.

Module SessionEndResult.
Record t := mk { promoted : nat; decayed : nat; cleaned : nat }.
End SessionEndResult.

Module SessionEndHook.
Section SessionEndHook.

Context {Err : Type}.

Definition Throws (A : Type) : Type :=
  MemoryDatabase.Conn.conn -> (Err + A) * MemoryDatabase.Conn.conn.

Definition ret {A} (a : A) : Throws A := fun c => (inr a, c).

Definition throw {A} (e : Err) : Throws A := fun c => (inl e, c).

Definition bind {A B} (m : Throws A) (k : A -> Throws B) : Throws B :=
  fun c =>
    match m c with
    | (inl e, c') => (inl e, c')
    | (inr a, c') => k a c'
    end.

(** [try { body } catch (err) { handler(err) }] *)
Definition try_catch {A} (body : Throws A) (handler : Err -> Throws A)
    : Throws A :=
  fun c =>
    match body c with
    | (inl e, c') => handler e c'
    | (inr a, c') => (inr a, c')
    end.

(** The transaction calls of the store, which act on the connection. *)
Definition transaction
    (f : MemoryDatabase.Conn.conn -> MemoryDatabase.Conn.conn)
    : Throws unit :=
  fun c => (inr tt, f c).

(** A call that reads and writes the contents of the store and may
    throw; it runs on the working contents of the connection. *)
Definition StoreCall (A : Type) : Type :=
  MemoryDatabase.t -> (Err + A) * MemoryDatabase.t.

Definition call {A} (f : StoreCall A) : Throws A :=
  fun c =>
    let '(r, d) := f (MemoryDatabase.Conn.data c) in
    (r, MemoryDatabase.Conn.mk d (MemoryDatabase.Conn.saved c)).

(** A call that cannot throw. *)
Definition total {A} (f : MemoryDatabase.t -> A * MemoryDatabase.t)
    : StoreCall A :=
  fun d => let '(a, d') := f d in (inr a, d').

#[local] Instance Throws_ret : MRet Throws := @ret.
#[local] Instance Throws_bind : MBind Throws :=
  fun A B k m => bind m k.

(** The three steps inside the transaction: [this.db.endSession], whose
    code is missing, and the two calls into the engine, with whatever
    the store beneath them does or throws. *)
Variable endSession : string -> SessionStatus -> StoreCall unit.
Variable applyDecay : StoreCall DecayResult.t.
Variable runConsolidation : StoreCall ConsolidationResult.t.

Definition cleanupDecayedMemories : nat := 0%nat.

Definition process (sessionId : string) (data : SessionEndData.t)
    : Throws SessionEndResult.t :=
  let sessionStatus :=
    if bool_decide (SessionEndData.reason data = Some "abandoned")
    then session_abandoned else session_completed in
  _ ← transaction MemoryDatabase.beginTransaction;
  '(decayResult, consolidationResult) ←
    try_catch
      (_ ← call (endSession sessionId sessionStatus);
       decayResult ← call applyDecay;
       consolidationResult ← call runConsolidation;
       _ ← transaction MemoryDatabase.commitTransaction;
       ret (decayResult, consolidationResult))
      (fun err =>
         _ ← transaction MemoryDatabase.rollbackTransaction;
         throw err);
  let cleaned := cleanupDecayedMemories in
  ret (SessionEndResult.mk
         (length (ConsolidationResult.promoted consolidationResult))
         (DecayResult.memoriesDecayed decayResult)
         cleaned).

End SessionEndHook.
End SessionEndHook.

(** ** The retrieval layer ([src/retrieval/index.ts]) *)

Module RetrievalFilters.
(** Modelled from the spec: the interface [RetrievalFilters] is declared in
    the missing [src/types/index.ts]; the five filters [getFilteredMemories]
    reads, each of them optional. *)
Record t := mk {
  store : option MemoryStore;
  classifications : option (list MemoryClassification);
  minStrength : option R;
  tags : option (list string);
  since : option Z
}.
End RetrievalFilters.

Module RetrievalQuery.
(** Modelled from the spec: the interface [RetrievalQuery] is declared in
    the missing [src/types/index.ts]; the optional text, filters and
    limit. *)
Record t := mk {
  query : option string;
  filters : option RetrievalFilters.t;
  limit : option nat
}.
End RetrievalQuery.

Module RetrievalIndexItem.
(** Modelled from the spec: the interface [RetrievalIndexItem] is declared
    in the missing [src/types/index.ts]; the fields [toIndexItem] fills
    in. *)
Record t := mk {
  id : nat;
  summary : string;
  classification : MemoryClassification;
  store : MemoryStore;
  strength : R;
  estimatedTokens : nat;
  relevanceScore : R
}.
End RetrievalIndexItem.

Module RetrievalDetail.
(** Modelled from the spec: the interface [RetrievalDetail] is declared in
    the missing [src/types/index.ts]; the unit with a relevance score and
    the reason of the retrieval. *)
Record t := mk {
  memory : MemoryUnit.t;
  relevanceScore : R;
  retrievalReason : string
}.
End RetrievalDetail.

Module RetrievalLogEntry.
(** Modelled from the spec: [logRetrieval] is missing from the store; the
    "retrieval event" it logs is kept as an entry of a list, with the four
    arguments of the call. *)
Record t := mk {
  sessionId : string;
  memoryId : nat;
  kind : string;
  strength : R
}.
End RetrievalLogEntry.

Module MemoryRetrieval.
Section MemoryRetrieval.

Variable config : PsychMemConfig.t.

(** The clock: [Date.now()]. Every call of [calculateRelevance] reads it;
    in the definitions of this section one reading stands for all the
    readings of a call, and the module [Ticking] below takes them one by
    one. *)
Variable now : Z.

Definition longer_than_2 (w : string) : bool :=
  Nat.ltb 2 (String.length w).

(** [jaccardSimilarity]: "Jaccard similarity between two strings
    (word-level)". *)
Definition jaccardSimilarity (a b : string) : R :=
  let wordsA := JS.new_Set (List.filter longer_than_2 (JS.split_ws a)) in
  let wordsB := JS.new_Set (List.filter longer_than_2 (JS.split_ws b)) in
  if Nat.eqb (length wordsA) 0 || Nat.eqb (length wordsB) 0 then 0
  else
    let intersection :=
      JS.new_Set (List.filter (fun x => JS.has wordsB x) wordsA) in
    let union := JS.new_Set (wordsA ++ wordsB) in
    INR (length intersection) / INR (length union).

Definition calculateRelevance (memory : MemoryUnit.t) (query : string)
    : R :=
  let queryLower := JS.toLowerCase query in
  let summaryLower := JS.toLowerCase (MemoryUnit.summary memory) in
  let jaccard := jaccardSimilarity summaryLower queryLower in
  let queryKeywords := List.filter longer_than_2 (JS.split_ws queryLower) in
  let keywordHits :=
    length (List.filter (fun kw => JS.includes summaryLower kw)
              queryKeywords) in
  let keywordScore :=
    if Nat.ltb 0 (length queryKeywords)
    then INR keywordHits / INR (length queryKeywords)
    else 0 in
  let tagMatches :=
    length
      (List.filter
         (fun tag =>
            existsb (fun term => JS.includes (JS.toLowerCase tag) term)
              queryKeywords)
         (MemoryUnit.tags memory)) in
  let tagScore := INR tagMatches * 0.15 in
  let textSimilarity := jaccard * 0.5 + keywordScore * 0.5 in
  let ageHours :=
    IZR (now - MemoryUnit.createdAt memory) / (1000 * 60 * 60) in
  let recencyBonus := Rmax 0 (0.05 - ageHours / 2000) in
  let score :=
    textSimilarity * 2.0 * (0.5 + MemoryUnit.strength memory * 0.5)
    + tagScore + recencyBonus in
  Rmin 1 score.

Definition rankByTextSimilarity (memories : list MemoryUnit.t)
    (query : string) : list MemoryUnit.t :=
  let scored :=
    List.map (fun mem => (mem, calculateRelevance mem query)) memories in
  List.map fst (sort_desc snd scored).

Definition getFilteredMemories (filters : option RetrievalFilters.t)
    (limit : option nat) (db : MemoryDatabase.t) : list MemoryUnit.t :=
  match filters with
  | None => MemoryDatabase.getTopMemories (default 50%nat limit) db
  | Some filters =>
      let memories :=
        MemoryDatabase.getTopMemories (default 100%nat limit) db in
      let memories :=
        match RetrievalFilters.store filters with
        | Some s =>
            List.filter (fun m => bool_decide (MemoryUnit.store m = s))
              memories
        | None => memories
        end in
      let memories :=
        match RetrievalFilters.classifications filters with
        | Some (c :: cs) =>
            List.filter
              (fun m =>
                 includes_classification (c :: cs)
                   (MemoryUnit.classification m))
              memories
        | _ => memories
        end in
      let memories :=
        match RetrievalFilters.minStrength filters with
        | Some x =>
            List.filter (fun m => Rleb x (MemoryUnit.strength m)) memories
        | None => memories
        end in
      let memories :=
        match RetrievalFilters.tags filters with
        | Some (t :: ts) =>
            List.filter
              (fun m =>
                 existsb (fun tag => JS.has (MemoryUnit.tags m) tag)
                   (t :: ts))
              memories
        | _ => memories
        end in
      let memories :=
        match RetrievalFilters.since filters with
        | Some since =>
            List.filter (fun m => Z.leb since (MemoryUnit.createdAt m))
              memories
        | None => memories
        end in
      memories
  end.

Definition estimateTokens (text : string) : nat :=
  Nat.div (String.length text + 3) 4.

Definition toIndexItem (memory : MemoryUnit.t) (query : option string)
    : RetrievalIndexItem.t :=
  RetrievalIndexItem.mk
    (MemoryUnit.id memory)
    (MemoryUnit.summary memory)
    (MemoryUnit.classification memory)
    (MemoryUnit.store memory)
    (MemoryUnit.strength memory)
    (estimateTokens (MemoryUnit.summary memory))
    (match query with
     | Some q =>
         if truthy query then calculateRelevance memory q
         else MemoryUnit.strength memory
     | None => MemoryUnit.strength memory
     end).

Definition retrieveIndex (query : RetrievalQuery.t) (db : MemoryDatabase.t)
    : list RetrievalIndexItem.t :=
  let limit :=
    default (PsychMemConfig.defaultRetrievalLimit config)
      (RetrievalQuery.limit query) in
  let poolSize := Nat.min 200 (Nat.max 50 (limit * 10)) in
  let memories :=
    getFilteredMemories (RetrievalQuery.filters query) (Some poolSize) db in
  let memories :=
    match RetrievalQuery.query query with
    | Some q =>
        if truthy (RetrievalQuery.query query)
        then rankByTextSimilarity memories q
        else memories
    | None => memories
    end in
  List.map (fun mem => toIndexItem mem (RetrievalQuery.query query))
    (firstn limit memories).

(** The entry [retrieveDetails] hands to [logRetrieval]. *)
Definition detail_log_entry (sessionId : string) (memory : MemoryUnit.t)
    : RetrievalLogEntry.t :=
  RetrievalLogEntry.mk sessionId (MemoryUnit.id memory) "detail_request"
    (MemoryUnit.strength memory).

(** The body of the loop of [retrieveDetails]: one requested id. The
    state is the list of details so far, the store and the retrieval
    log. *)
Definition retrieveDetail (sessionId : option string)
    (acc : list RetrievalDetail.t
           * (MemoryDatabase.t * list RetrievalLogEntry.t))
    (id : nat)
    : list RetrievalDetail.t
      * (MemoryDatabase.t * list RetrievalLogEntry.t) :=
  let '(details, (db, log)) := acc in
  match MemoryDatabase.getMemory id db with
  | None => acc
  | Some memory =>
      let log :=
        match sessionId with
        | Some session =>
            if truthy sessionId
            then log ++ [detail_log_entry session memory]
            else log
        | None => log
        end in
      let db := MemoryDatabase.incrementFrequency id db in
      (details
         ++ [RetrievalDetail.mk memory (MemoryUnit.strength memory)
               "Requested by ID"],
       (db, log))
  end.

Definition retrieveDetails (memoryIds : list nat) (sessionId : option string)
    (db : MemoryDatabase.t) (log : list RetrievalLogEntry.t)
    : list RetrievalDetail.t
      * (MemoryDatabase.t * list RetrievalLogEntry.t) :=
  fold_left (retrieveDetail sessionId) memoryIds ([], (db, log)).

Definition search (query : string) (filters : option RetrievalFilters.t)
    (limit : option nat) (db : MemoryDatabase.t)
    : list RetrievalIndexItem.t :=
  retrieveIndex
    (RetrievalQuery.mk (Some query) filters
       (Some (default (PsychMemConfig.defaultRetrievalLimit config) limit)))
    db.

Definition getMemory (id : nat) (db : MemoryDatabase.t)
    : option MemoryUnit.t :=
  MemoryDatabase.getMemory id db.

End MemoryRetrieval.

(** *** The clock during one call

    [Date.now()] is read anew by every call of [calculateRelevance]:
    once for each unit that [rankByTextSimilarity] scores, in the order of
    the pool, and once more for each item that [toIndexItem] builds, in
    the order of the index. Here [clock k] is reading number [k] of the
    clock during one call of [retrieveIndex]. *)

Module Ticking.

Definition rankByTextSimilarity (clock : nat -> Z)
    (memories : list MemoryUnit.t) (query : string) : list MemoryUnit.t :=
  let scored :=
    imap (fun i mem => (mem, calculateRelevance (clock i) mem query))
      memories in
  List.map fst (sort_desc snd scored).

Definition retrieveIndex (config : PsychMemConfig.t) (clock : nat -> Z)
    (query : RetrievalQuery.t) (db : MemoryDatabase.t)
    : list RetrievalIndexItem.t :=
  let limit :=
    default (PsychMemConfig.defaultRetrievalLimit config)
      (RetrievalQuery.limit query) in
  let poolSize := Nat.min 200 (Nat.max 50 (limit * 10)) in
  let memories :=
    getFilteredMemories (RetrievalQuery.filters query) (Some poolSize) db in
  (* the units in their final order, and the readings used so far *)
  let '(memories, readings) :=
    match RetrievalQuery.query query with
    | Some q =>
        if truthy (RetrievalQuery.query query)
        then (rankByTextSimilarity clock memories q, length memories)
        else (memories, 0%nat)
    | None => (memories, 0%nat)
    end in
  imap
    (fun i mem =>
       toIndexItem (clock (readings + i)%nat) mem (RetrievalQuery.query query))
    (firstn limit memories).

Definition search (config : PsychMemConfig.t) (clock : nat -> Z)
    (query : string) (filters : option RetrievalFilters.t)
    (limit : option nat) (db : MemoryDatabase.t)
    : list RetrievalIndexItem.t :=
  retrieveIndex config clock
    (RetrievalQuery.mk (Some query) filters
       (Some (default (PsychMemConfig.defaultRetrievalLimit config) limit)))
    db.

End Ticking.

End MemoryRetrieval.

(** ** The session-start hook ([src/hooks/session-start.ts]) *)

Module SessionStartHook.

Definition truncateSummary (summary : string) (maxLength : Z) : string :=
  if (Z.of_nat (String.length summary) <=? maxLength)%Z then summary
  else JS.slice_to summary (maxLength - 3) +:+ "...".

Definition estimateTokens (text : string) : nat :=
  Nat.div (String.length text + 3) 4.

Definition buildIndex (memories : list MemoryUnit.t)
    : list RetrievalIndexItem.t :=
  List.map
    (fun mem =>
       RetrievalIndexItem.mk
         (MemoryUnit.id mem)
         (truncateSummary (MemoryUnit.summary mem) 100)
         (MemoryUnit.classification mem)
         (MemoryUnit.store mem)
         (MemoryUnit.strength mem)
         (estimateTokens (MemoryUnit.summary mem))
         (MemoryUnit.strength mem))
    memories.

(** The object [groups]: its keys in insertion order, each with its
    array. *)
Definition Groups : Type := list (string * list RetrievalIndexItem.t).

(** [groups[key]] *)
Fixpoint group_of (groups : Groups) (key : string)
    : option (list RetrievalIndexItem.t) :=
  match groups with
  | [] => None
  | (k, items) :: rest =>
      if String.eqb k key then Some items else group_of rest key
  end.

(** [groups[key].push(item)] for a key the object has. *)
Fixpoint push_to (groups : Groups) (key : string)
    (item : RetrievalIndexItem.t) : Groups :=
  match groups with
  | [] => []
  | (k, items) :: rest =>
      if String.eqb k key then (k, items ++ [item]) :: rest
      else (k, items) :: push_to rest key item
  end.

Definition empty_groups : Groups :=
  [("bugfix", []); ("learning", []); ("decision", []); ("preference", []);
   ("constraint", []); ("procedural", []); ("semantic", []);
   ("episodic", [])].

Definition groupByClassification (index : list RetrievalIndexItem.t)
    : Groups :=
  fold_left
    (fun groups item =>
       let key :=
         classification_name (RetrievalIndexItem.classification item) in
       match group_of groups key with
       | Some _ => push_to groups key item
       | None =>
           match group_of groups "episodic" with
           | Some _ => push_to groups "episodic" item
           | None => groups
           end
       end)
    index empty_groups.

End SessionStartHook.

(** ** The post-tool-use hook ([src/hooks/post-tool-use.ts]) *)

Module PostToolUseHook.

(** [truncate]; the text of a tool can be missing. *)
Definition truncate (str : option string) (maxLength : Z) : string :=
  match str with
  | None => ""
  | Some text =>
      if negb (truthy str) then ""
      else if (Z.of_nat (String.length text) <=? maxLength)%Z then text
      else JS.slice_to text (maxLength - 3) +:+ "..."
  end.

End PostToolUseHook.

(** ** The entry point ([src/index.ts]) *)

Module StoreStats.
Record t := mk { count : nat; avgStrength : R }.
End StoreStats.

Module Stats.
Record t := mk { stm : StoreStats.t; ltm : StoreStats.t; total : nat }.
End Stats.

Module PsychMem.

Definition avgStrength (memories : list MemoryUnit.t) : R :=
  if Nat.eqb (length memories) 0 then 0
  else
    fold_left (fun sum m => sum + MemoryUnit.strength m) memories 0
    / INR (length memories).

Definition getStats (db : MemoryDatabase.t) : Stats.t :=
  let stmMemories := MemoryDatabase.getMemoriesByStore stm db in
  let ltmMemories := MemoryDatabase.getMemoriesByStore ltm db in
  Stats.mk
    (StoreStats.mk (length stmMemories) (avgStrength stmMemories))
    (StoreStats.mk (length ltmMemories) (avgStrength ltmMemories))
    (length stmMemories + length ltmMemories).

End PsychMem.

(** ** The formulas of the design document

    The definitions of this module follow the wording of the design
    document, not the code; the theorems below compare the two. *)

Module Spec.

(** "clamp01": the nearest point of the interval from 0 to 1. *)
Definition clamp01 (x : R) : R :=
  if Rlt_dec x 0 then 0 else if Rlt_dec 1 x then 1 else x.

(** "normalizedFrequency = min(1, ln(frequency+1)/ln(10))" *)
Definition normalizedFrequency (frequency : R) : R :=
  Rmin 1 (ln (frequency + 1) / ln 10).

(** "recencyFactor = 1 − min(1, recencyHours/168)" *)
Definition recencyFactor (recencyHours : R) : R :=
  1 - Rmin 1 (recencyHours / 168).

(** "Σ weight_i · feature_i" over a list of weight and feature pairs. *)
Definition weighted_sum (terms : list (R * R)) : R :=
  foldr (fun term acc => fst term * snd term + acc) 0 terms.

(** "strength = clamp01(Σ weight_i · feature_i) over the seven
    features" *)
Definition strength (w : ScoringWeights.t) (f : MemoryFeatureVector.t)
    : R :=
  clamp01
    (weighted_sum
       [ (ScoringWeights.recency w,
          recencyFactor (MemoryFeatureVector.recency f));
         (ScoringWeights.frequency w,
          normalizedFrequency (MemoryFeatureVector.frequency f));
         (ScoringWeights.importance w, MemoryFeatureVector.importance f);
         (ScoringWeights.utility w, MemoryFeatureVector.utility f);
         (ScoringWeights.novelty w, MemoryFeatureVector.novelty f);
         (ScoringWeights.confidence w, MemoryFeatureVector.confidence f);
         (ScoringWeights.interference w,
          MemoryFeatureVector.interference f) ]).

(** "case-folded, whitespace-tokenized word sets excluding words of
    length ≤2" *)
Definition words (s : string) : gset string :=
  list_to_set
    (List.filter (fun w => bool_decide (2 < String.length w)%nat)
       (JS.split_ws (JS.toLowerCase s))).

(** The word set without the exclusion: every piece of the split, the
    short ones and the empty piece too. *)
Definition all_words (s : string) : gset string :=
  list_to_set (JS.split_ws (JS.toLowerCase s)).

(** The Jaccard index of two sets; "similarity=0" at the degenerate
    edge where there is no word at all. *)
Definition jaccard (A B : gset string) : R :=
  if decide (A ∪ B = ∅) then 0
  else INR (size (A ∩ B)) / INR (size (A ∪ B)).

(** [kw] occurs in [s]: some text before it and some text after it make
    up [s]. *)
Definition substring_of (kw s : string) : Prop :=
  exists before after, s = before +:+ kw +:+ after.

(** "keywords are query words of length>2" *)
Definition keywords (query : string) : list string :=
  List.filter (fun w => bool_decide (2 < String.length w)%nat)
    (JS.split_ws (JS.toLowerCase query)).

(** "keywordHits": the keywords "matched as substrings of the summary" *)
Definition keywordHits (summary query : string) : nat :=
  length
    (List.filter (fun kw => JS.includes (JS.toLowerCase summary) kw)
       (keywords query)).

(** "keywordHits / queryKeywordCount"; a query without a keyword has no
    hit, and the ratio counts as 0. *)
Definition keywordRatio (summary query : string) : R :=
  match keywords query with
  | [] => 0
  | _ => INR (keywordHits summary query) / INR (length (keywords query))
  end.

(** "textSimilarity = 0.5·jaccard(summary,query) + 0.5·(keywordHits /
    queryKeywordCount)" *)
Definition textSimilarity (summary query : string) : R :=
  0.5 * jaccard (words summary) (words query)
  + 0.5 * keywordRatio summary query.

(** "tagBonus = 0.15 · count(tags matching any query keyword as
    substring)" *)
Definition tagBonus (tags : list string) (query : string) : R :=
  0.15 *
  INR (length
         (List.filter
            (fun tag =>
               existsb (fun kw => JS.includes (JS.toLowerCase tag) kw)
                 (keywords query))
            tags)).

Definition ageHours (now createdAt : Z) : R :=
  IZR (now - createdAt) / 3600000.

(** "recencyBonus = max(0, 0.05 − ageHours/2000)" *)
Definition recencyBonus (age : R) : R := Rmax 0 (0.05 - age / 2000).

(** "relevance = textSimilarity·2.0·(0.5 + strength·0.5) + tagBonus +
    recencyBonus", "clamped to [0,1]" *)
Definition relevance (now : Z) (memory : MemoryUnit.t) (query : string)
    : R :=
  clamp01
    (textSimilarity (MemoryUnit.summary memory) query * 2.0
     * (0.5 + MemoryUnit.strength memory * 0.5)
     + tagBonus (MemoryUnit.tags memory) query
     + recencyBonus (ageHours now (MemoryUnit.createdAt memory))).

End Spec.

(** ** Sample data for the scenarios of the design document *)

Module Sample.

Definition weights : ScoringWeights.t :=
  ScoringWeights.mk 0.2 0.15 0.25 0.2 0.1 0.1 (-0.1).

Definition config : PsychMemConfig.t :=
  PsychMemConfig.mk weights [learning; preference; constraint] 0.3 3 10.

(** A unit of the given id, store, summary, strength and confidence;
    active, seen once, without tags. *)
Definition plain_unit (id : nat) (store : MemoryStore) (summary : string)
    (strength confidence : R) : MemoryUnit.t :=
  MemoryUnit.mk id store semantic summary active strength 0.5 0.5 1
    confidence 0 1 [] None None [] 0.

(** A store holding the given rows; it gives a new unit the strength
    0.5. *)
Definition store_of (rows : list MemoryUnit.t) : MemoryDatabase.t :=
  MemoryDatabase.mk rows (S (length rows)) (fun _ _ _ _ => 0.5).

Definition tabs : MemoryUnit.t :=
  plain_unit 1 ltm "user prefers tabs over spaces" 0.6 0.8.

Definition evidence : Evidence.t :=
  Evidence.mk "deploy script fails on windows" 0.6 "event-7".

Definition weak : MemoryUnit.t := plain_unit 1 stm "tried a workaround" 0.05 0.5.
Definition strong : MemoryUnit.t := plain_unit 2 stm "cache key includes locale" 0.5 0.5.

Definition candidate (summary : string) : MemoryCandidate.t :=
  MemoryCandidate.mk semantic summary [] 0.8 0.9 [].

(** The retrieval scenario: the query, the clock (200 hours after time
    0), the weak unit about the login fix, created at time 0, and a
    strong unit, created just now, whose summary has none of the words
    of the query but contains both of them inside longer words. *)
Definition auth_query : RetrievalQuery.t :=
  RetrievalQuery.mk (Some "authentication bug") None (Some 5%nat).

Definition later : Z := 720000000.

Definition login_fix : MemoryUnit.t :=
  MemoryUnit.mk 1 stm episodic "Fixed authentication bug in login flow"
    active 0.4 0.5 0.5 1 0.9 0 1 ["episodic"] None None [] 0.

Definition plurals : MemoryUnit.t :=
  MemoryUnit.mk 2 stm semantic "bugs authentications"
    active 0.9 0.5 0.5 1 0.9 0 1 ["semantic"] None None [] later.

(** A strong unit that has nothing to do with the query. *)
Definition cache : MemoryUnit.t :=
  plain_unit 2 ltm "cache key includes locale" 0.9 0.5.

(** The same strong unit as a bug fix of the moment of the query: its tag
    "bugfix" contains the keyword "bug". *)
Definition cache_fix : MemoryUnit.t :=
  MemoryUnit.mk 2 ltm bugfix "cache key includes locale"
    active 0.9 0.5 0.5 1 0.5 0 1 ["bugfix"] None None [] later.

(** A decay step that empties the table and then throws. *)
Definition failing_decay : @SessionEndHook.StoreCall string DecayResult.t :=
  fun d => (inl "disk I/O error", MemoryDatabase.with_rows [] d).

Definition decay_nothing : @SessionEndHook.StoreCall string DecayResult.t :=
  SessionEndHook.total (fun d => (DecayResult.mk 0 0, d)).

Definition end_session
    : string -> SessionStatus -> @SessionEndHook.StoreCall string unit :=
  fun _ _ => SessionEndHook.total (fun d => (tt, d)).

Definition consolidation
    : @SessionEndHook.StoreCall string ConsolidationResult.t :=
  SessionEndHook.total (SelectiveMemory.runConsolidation config).

End Sample.

(** * Properties *)

(** ** Evaluating word counts on given texts *)

(** Turns the size of a word list of given texts into its numeral. *)
Ltac count_words :=
  rewrite ?INR_IZR_INZ;
  repeat match goal with
    | |- context [IZR (Z.of_nat ?n)] =>
        let v := eval vm_compute in (Z.of_nat n) in
        change (Z.of_nat n) with v
    end.

(** Evaluates the tests on word counts and the counts themselves. *)
Ltac eval_counts :=
  repeat match goal with
    | |- context [Nat.eqb ?a ?b] =>
        let v := eval vm_compute in (Nat.eqb a b) in
        change (Nat.eqb a b) with v
    | |- context [Nat.ltb ?a ?b] =>
        let v := eval vm_compute in (Nat.ltb a b) in
        change (Nat.ltb a b) with v
    end;
  cbn [orb andb];
  count_words.

(** ** The JavaScript library functions on examples *)

Example split_ws_ex1 :
  JS.split_ws " Fixed  the bug " = [""; "Fixed"; "the"; "bug"; ""].
Proof. reflexivity. Qed.

Example split_ws_ex2 : JS.split_ws "" = [""].
Proof. reflexivity. Qed.

Example includes_ex : JS.includes "debugging" "bug" = true.
Proof. reflexivity. Qed.

Example new_Set_ex : JS.new_Set ["a"; "b"; "a"; "c"; "b"] = ["a"; "b"; "c"].
Proof. reflexivity. Qed.

Example toLowerCase_ex : JS.toLowerCase "Fixed BUG" = "fixed bug".
Proof. reflexivity. Qed.

Example split_ws_ex3 : JS.split_ws "a  b" = ["a"; "b"].
Proof. reflexivity. Qed.

Example new_Set_of_empty_text : JS.new_Set (JS.split_ws "") = [""].
Proof. reflexivity. Qed.

Lemma prefix_append kw s :
  String.prefix kw s = true <-> exists after, s = kw +:+ after.
Proof.
  revert s. induction kw as [|c kw IH]; intros s; destruct s as [|d s]; simpl.
  - split; [by exists EmptyString|done].
  - split; [by exists (String d s)|done].
  - split; [done|]. by intros [after H].
  - destruct (ascii_dec c d) as [->|Hne].
    + rewrite IH. split; intros [after H]; exists after.
      * by rewrite H.
      * by injection H.
    + split; [done|]. intros [after H]. injection H as H1 H2. by destruct Hne.
Qed.

Lemma includes_prefix s kw :
  String.prefix kw s = true -> JS.includes s kw = true.
Proof. intros H. destruct s; cbn [JS.includes]; by rewrite H. Qed.

(** [includes] finds exactly the substrings. *)
Lemma includes_substring_of s kw :
  JS.includes s kw = true <-> Spec.substring_of kw s.
Proof.
  unfold Spec.substring_of. split.
  - induction s as [|c s IH]; cbn [JS.includes]; rewrite orb_true_iff.
    + intros [H|H]; [|done]. apply prefix_append in H as [after H].
      by exists EmptyString, after.
    + intros [H|H].
      * apply prefix_append in H as [after H]. by exists EmptyString, after.
      * destruct (IH H) as (before & after & ->).
        by exists (String c before), after.
  - intros (before & after & ->).
    induction before as [|c before IH].
    + change (JS.includes (kw +:+ after) kw = true).
      apply includes_prefix, prefix_append. by exists after.
    + change (JS.includes (String c (before +:+ kw +:+ after)) kw = true).
      cbn [JS.includes]. rewrite IH. apply orb_true_r.
Qed.


(** ** Numbers *)

Lemma Rltb_true x y : Rltb x y = true <-> x < y.
Proof. unfold Rltb. destruct (Rlt_dec x y); split; intros; try done. Qed.

Lemma Rltb_false x y : Rltb x y = false <-> y <= x.
Proof.
  unfold Rltb. destruct (Rlt_dec x y); split; intros; try done; lra.
Qed.

Lemma Rleb_true x y : Rleb x y = true <-> x <= y.
Proof. unfold Rleb. destruct (Rle_dec x y); split; intros; try done. Qed.

Lemma Rleb_false x y : Rleb x y = false <-> y < x.
Proof.
  unfold Rleb. destruct (Rle_dec x y); split; intros; try done; lra.
Qed.

Lemma clamp01_min_max x : Rmax 0 (Rmin 1 x) = Spec.clamp01 x.
Proof.
  unfold Spec.clamp01, Rmax, Rmin.
  repeat (destruct (Rle_dec _ _) || destruct (Rlt_dec _ _)); lra.
Qed.

Lemma clamp01_bounds x : 0 <= Spec.clamp01 x <= 1.
Proof.
  unfold Spec.clamp01. repeat destruct (Rlt_dec _ _); lra.
Qed.

Lemma ratio_nonneg (n d : nat) : 0 <= INR n / INR d.
Proof.
  destruct d as [|d].
  - simpl. unfold Rdiv. rewrite Rinv_0. lra.
  - apply Rmult_le_pos; [apply pos_INR|].
    apply Rlt_le, Rinv_0_lt_compat, lt_0_INR. lia.
Qed.

(** ** Strength *)

(** C5: the strength score is clamp01 of the weighted sum of the seven
    features, where the frequency enters as min(1, ln(frequency+1)/ln 10),
    the recency as 1 − min(1, recencyHours/168), and importance, utility,
    novelty, confidence and interference enter unchanged. *)
Theorem calculateStrength_weighted_sum
    (config : PsychMemConfig.t) (features : MemoryFeatureVector.t) :
  SelectiveMemory.calculateStrength config features
  = Spec.strength (PsychMemConfig.scoringWeights config) features.
Proof.
  unfold SelectiveMemory.calculateStrength, Spec.strength.
  rewrite clamp01_min_max. f_equal.
  unfold Spec.weighted_sum, Spec.recencyFactor, Spec.normalizedFrequency.
  simpl. lra.
Qed.

(** ** Scores stay between 0 and 1 *)

Lemma calculateStrength_bounds config features :
  0 <= SelectiveMemory.calculateStrength config features <= 1.
Proof.
  unfold SelectiveMemory.calculateStrength.
  rewrite clamp01_min_max. apply clamp01_bounds.
Qed.

Lemma jaccardSimilarity_nonneg a b :
  0 <= MemoryRetrieval.jaccardSimilarity a b.
Proof.
  unfold MemoryRetrieval.jaccardSimilarity.
  destruct (_ || _); [lra | apply ratio_nonneg].
Qed.

Lemma relevance_score_nonneg (j k s t r : R) :
  0 <= j -> 0 <= k -> 0 <= s -> 0 <= t -> 0 <= r ->
  0 <= (j * 0.5 + k * 0.5) * 2.0 * (0.5 + s * 0.5) + t + r.
Proof. intros. nra. Qed.

Lemma calculateRelevance_bounds now memory query :
  0 <= MemoryUnit.strength memory ->
  0 <= MemoryRetrieval.calculateRelevance now memory query <= 1.
Proof.
  intros Hs. unfold MemoryRetrieval.calculateRelevance. split.
  - apply Rmin_glb; [lra|].
    apply relevance_score_nonneg; try done.
    + apply jaccardSimilarity_nonneg.
    + destruct (Nat.ltb _ _); [apply ratio_nonneg | lra].
    + apply Rmult_le_pos; [apply pos_INR | lra].
    + apply Rmax_l.
  - apply Rmin_l.
Qed.

Lemma update_preserves_utility id x db :
  List.map MemoryUnit.utility
    (MemoryDatabase.rows (MemoryDatabase.updateMemoryStrength id x db))
  = List.map MemoryUnit.utility (MemoryDatabase.rows db).
Proof.
  unfold MemoryDatabase.updateMemoryStrength, MemoryDatabase.update. simpl.
  induction (MemoryDatabase.rows db) as [|u l IH]; simpl; [done|].
  rewrite IH. by destruct (Nat.eqb _ _).
Qed.

(** C9: the scalar scores the engine produces lie between 0 and 1: the
    strength of [calculateStrength] for every feature vector, the relevance
    of [calculateRelevance] for every unit of non-negative strength and
    every query, and the utility [updateUtility] computes; the strength it
    writes is a [calculateStrength] value, and it leaves the stored
    utilities as they are. *)
Theorem scores_within_unit_interval :
  (forall config features,
      0 <= SelectiveMemory.calculateStrength config features <= 1)
  /\ (forall now memory query,
         0 <= MemoryUnit.strength memory ->
         0 <= MemoryRetrieval.calculateRelevance now memory query <= 1)
  /\ (forall now memory wasUsed,
         0 <= MemoryFeatureVector.utility
                (SelectiveMemory.updateUtility_features now memory wasUsed)
           <= 1)
  /\ (forall config now memoryId wasUsed db,
         List.map MemoryUnit.utility
           (MemoryDatabase.rows
              (SelectiveMemory.updateUtility config now memoryId wasUsed db))
         = List.map MemoryUnit.utility (MemoryDatabase.rows db)).
Proof.
  split; [apply calculateStrength_bounds|].
  split; [apply calculateRelevance_bounds|].
  split.
  - intros. unfold SelectiveMemory.updateUtility_features. simpl.
    rewrite clamp01_min_max. apply clamp01_bounds.
  - intros. unfold SelectiveMemory.updateUtility.
    destruct (MemoryDatabase.getMemory _ _); [|done].
    apply update_preserves_utility.
Qed.

(** ** Consolidation *)

Lemma set_store_id s u : MemoryUnit.id (MemoryUnit.set_store s u) = MemoryUnit.id u.
Proof. done. Qed.

Lemma consolidate_row_id config mem row :
  MemoryUnit.id (consolidate_row config mem row) = MemoryUnit.id row.
Proof.
  unfold consolidate_row.
  destruct (Nat.eqb _ _); [|done].
  destruct (SelectiveMemory.shouldPromoteToLtm _ _); [done|].
  by destruct (Rltb _ _).
Qed.

Lemma consolidate_rows_id config l row :
  MemoryUnit.id (fold_left (fun r m => consolidate_row config m r) l row)
  = MemoryUnit.id row.
Proof.
  revert row. induction l as [|m l IH]; intros row; simpl; [done|].
  by rewrite IH, consolidate_row_id.
Qed.

Lemma consolidate_snd config mem res db :
  MemoryDatabase.rows (SelectiveMemory.consolidate config (res, db) mem).2
  = List.map (consolidate_row config mem) (MemoryDatabase.rows db).
Proof.
  unfold SelectiveMemory.consolidate, consolidate_row.
  destruct (SelectiveMemory.shouldPromoteToLtm _ _); simpl.
  - done.
  - destruct (Rltb _ _); simpl; [done|].
    induction (MemoryDatabase.rows db) as [|u l IH]; simpl; [done|].
    rewrite <- IH. by destruct (Nat.eqb _ _).
Qed.

Lemma fold_consolidate_rows config l res db :
  MemoryDatabase.rows (fold_left (SelectiveMemory.consolidate config) l (res, db)).2
  = List.map (fun row => fold_left (fun r m => consolidate_row config m r) l row)
      (MemoryDatabase.rows db).
Proof.
  revert res db. induction l as [|m l IH]; intros res db; cbn [fold_left].
  - simpl. by rewrite map_id.
  - destruct (SelectiveMemory.consolidate config (res, db) m) as [res1 db1] eqn:E.
    rewrite IH.
    assert (MemoryDatabase.rows db1
            = List.map (consolidate_row config m) (MemoryDatabase.rows db)) as ->.
    { by rewrite <- (consolidate_snd config m res db), E. }
    by rewrite map_map.
Qed.

Lemma consolidate_rows_other config l row :
  MemoryUnit.id row ∉ List.map MemoryUnit.id l ->
  fold_left (fun r m => consolidate_row config m r) l row = row.
Proof.
  revert row. induction l as [|m l IH]; intros row Hnot; cbn [fold_left]; [done|].
  simpl in Hnot. apply not_elem_of_cons in Hnot as [Hne Hnot].
  unfold consolidate_row at 2.
  destruct (Nat.eqb_spec (MemoryUnit.id row) (MemoryUnit.id m)); [done|].
  by apply IH.
Qed.

Lemma consolidate_rows_self config l u :
  NoDup (List.map MemoryUnit.id l) -> u ∈ l ->
  fold_left (fun r m => consolidate_row config m r) l u
  = consolidate_row config u u.
Proof.
  induction l as [|m l IH]; intros Hnd Hin; [by apply elem_of_nil in Hin|].
  simpl in Hnd. apply NoDup_cons in Hnd as [Hm Hnd].
  cbn [fold_left]. apply elem_of_cons in Hin as [->|Hin].
  - apply consolidate_rows_other. by rewrite consolidate_row_id.
  - assert (MemoryUnit.id u <> MemoryUnit.id m) as Hne.
    { intros E. apply Hm. rewrite <- E.
      apply list_elem_of_In, in_map, list_elem_of_In, Hin. }
    unfold consolidate_row at 2.
    destruct (Nat.eqb_spec (MemoryUnit.id u) (MemoryUnit.id m)); [done|].
    by apply IH.
Qed.

Lemma unique_by_id (l : list MemoryUnit.t) u v :
  NoDup (List.map MemoryUnit.id l) -> u ∈ l -> v ∈ l ->
  MemoryUnit.id u = MemoryUnit.id v -> u = v.
Proof.
  induction l as [|m l IH]; intros Hnd Hu Hv E; [by apply elem_of_nil in Hu|].
  simpl in Hnd. apply NoDup_cons in Hnd as [Hm Hnd].
  assert (forall w, w ∈ l -> MemoryUnit.id w <> MemoryUnit.id m) as Hfresh.
  { intros w Hw Ew. apply Hm. rewrite <- Ew.
    apply list_elem_of_In, in_map, list_elem_of_In, Hw. }
  apply elem_of_cons in Hu as [->|Hu]; apply elem_of_cons in Hv as [->|Hv].
  - done.
  - by destruct (Hfresh v Hv).
  - by destruct (Hfresh u Hu).
  - by apply IH.
Qed.

Lemma NoDup_ids_filter (P : MemoryUnit.t -> bool) (l : list MemoryUnit.t) :
  NoDup (List.map MemoryUnit.id l) ->
  NoDup (List.map MemoryUnit.id (List.filter P l)).
Proof.
  induction l as [|m l IH]; simpl; intros Hnd; [done|].
  apply NoDup_cons in Hnd as [Hm Hnd].
  destruct (P m); simpl; [|by apply IH].
  apply NoDup_cons. split; [|by apply IH].
  intros Hin. apply Hm.
  apply list_elem_of_In, in_map_iff in Hin as (w & Ew & Hw).
  apply filter_In in Hw as [Hw _].
  rewrite <- Ew. apply list_elem_of_In, in_map, Hw.
Qed.

Lemma getMemory_unique db u :
  NoDup (List.map MemoryUnit.id (MemoryDatabase.rows db)) ->
  u ∈ MemoryDatabase.rows db ->
  MemoryDatabase.getMemory (MemoryUnit.id u) db = Some u.
Proof.
  unfold MemoryDatabase.getMemory. intros Hnd Hin.
  destruct (List.find _ _) as [v|] eqn:E.
  - apply find_some in E as [Hv Ev]. apply Nat.eqb_eq in Ev.
    f_equal. apply (unique_by_id (MemoryDatabase.rows db)); try done.
    by apply list_elem_of_In.
  - apply list_elem_of_In in Hin. apply (find_none _ _ E u) in Hin.
    by rewrite Nat.eqb_refl in Hin.
Qed.

Lemma find_map_id_preserving (h : MemoryUnit.t -> MemoryUnit.t) id l :
  (forall u, MemoryUnit.id (h u) = MemoryUnit.id u) ->
  List.find (fun u => Nat.eqb (MemoryUnit.id u) id) (List.map h l)
  = h <$> List.find (fun u => Nat.eqb (MemoryUnit.id u) id) l.
Proof.
  intros Hh. induction l as [|m l IH]; simpl; [done|].
  rewrite Hh. by destruct (Nat.eqb _ _).
Qed.

Lemma includes_classification_true l c :
  includes_classification l c = true <-> c ∈ l.
Proof.
  unfold includes_classification. rewrite existsb_exists. split.
  - intros (c' & Hin & E). apply bool_decide_eq_true in E as <-.
    by apply list_elem_of_In.
  - intros Hin. exists c. split; [by apply list_elem_of_In|].
    by apply bool_decide_eq_true.
Qed.

Lemma shouldPromoteToLtm_true config memory :
  SelectiveMemory.shouldPromoteToLtm config memory = true
  <-> MemoryUnit.classification memory ∈ PsychMemConfig.autoPromoteToLtm config
      \/ PsychMemConfig.stmToLtmStrengthThreshold config
         <= MemoryUnit.strength memory
      \/ (PsychMemConfig.stmToLtmFrequencyThreshold config
          <= MemoryUnit.frequency memory)%nat.
Proof.
  unfold SelectiveMemory.shouldPromoteToLtm.
  destruct (includes_classification _ _) eqn:Ec.
  { apply includes_classification_true in Ec. tauto. }
  destruct (Rleb _ _) eqn:Es.
  { apply Rleb_true in Es. tauto. }
  destruct (Nat.leb _ _) eqn:Ef.
  { apply Nat.leb_le in Ef. tauto. }
  split; [done|]. intros [H|[H|H]].
  - apply includes_classification_true in H. congruence.
  - apply Rleb_true in H. congruence.
  - apply Nat.leb_le in H. congruence.
Qed.

Lemma fold_consolidate_result config l res db :
  let r := (fold_left (SelectiveMemory.consolidate config) l (res, db)).1 in
  ConsolidationResult.promoted r
  = ConsolidationResult.promoted res
    ++ List.map MemoryUnit.id
         (List.filter (SelectiveMemory.shouldPromoteToLtm config) l)
  /\ ConsolidationResult.decayed r
     = ConsolidationResult.decayed res
       ++ List.map MemoryUnit.id
            (List.filter
               (fun m => negb (SelectiveMemory.shouldPromoteToLtm config m)
                         && Rltb (MemoryUnit.strength m) 0.1) l)
  /\ ConsolidationResult.unchanged r
     = ConsolidationResult.unchanged res
       ++ List.map MemoryUnit.id
            (List.filter
               (fun m => negb (SelectiveMemory.shouldPromoteToLtm config m)
                         && negb (Rltb (MemoryUnit.strength m) 0.1)) l).
Proof.
  revert res db. induction l as [|m l IH]; intros res db; cbn [fold_left].
  - simpl. by rewrite !app_nil_r.
  - unfold SelectiveMemory.consolidate at 2 4 6. simpl.
    destruct (SelectiveMemory.shouldPromoteToLtm config m); simpl.
    + destruct (IH (ConsolidationResult.mk
                      (ConsolidationResult.promoted res ++ [MemoryUnit.id m])
                      (ConsolidationResult.decayed res)
                      (ConsolidationResult.unchanged res))
                  (MemoryDatabase.promoteToLtm (MemoryUnit.id m) db))
        as (-> & -> & ->).
      simpl. by rewrite <- app_assoc.
    + destruct (Rltb (MemoryUnit.strength m) 0.1); simpl.
      * destruct (IH (ConsolidationResult.mk
                        (ConsolidationResult.promoted res)
                        (ConsolidationResult.decayed res ++ [MemoryUnit.id m])
                        (ConsolidationResult.unchanged res))
                    (MemoryDatabase.updateMemoryStatus (MemoryUnit.id m)
                       decayed db))
          as (-> & -> & ->).
        simpl. by rewrite <- app_assoc.
      * destruct (IH (ConsolidationResult.mk
                        (ConsolidationResult.promoted res)
                        (ConsolidationResult.decayed res)
                        (ConsolidationResult.unchanged res ++ [MemoryUnit.id m]))
                    db)
          as (-> & -> & ->).
        simpl. by rewrite <- app_assoc.
Qed.

Lemma id_in_filtered (P : MemoryUnit.t -> bool) (l : list MemoryUnit.t) u :
  NoDup (List.map MemoryUnit.id l) -> u ∈ l ->
  MemoryUnit.id u ∈ List.map MemoryUnit.id (List.filter P l) <-> P u = true.
Proof.
  intros Hnd Hu. split.
  - intros Hin. apply list_elem_of_In, in_map_iff in Hin as (w & Ew & Hw).
    apply filter_In in Hw as [Hw HP].
    assert (w = u) as <-; [|done].
    apply (unique_by_id l); try done. by apply list_elem_of_In.
  - intros HP. apply list_elem_of_In, in_map, filter_In.
    split; [by apply list_elem_of_In|done].
Qed.

Lemma runConsolidation_row config db u :
  MemoryDatabase.wf db ->
  u ∈ MemoryDatabase.getMemoriesByStore stm db ->
  MemoryDatabase.getMemory (MemoryUnit.id u)
    (SelectiveMemory.runConsolidation config db).2
  = Some (consolidate_row config u u).
Proof.
  intros [Hnd _] Hu.
  unfold SelectiveMemory.runConsolidation, MemoryDatabase.getMemory.
  rewrite fold_consolidate_rows.
  rewrite find_map_id_preserving by (intros; apply consolidate_rows_id).
  assert (u ∈ MemoryDatabase.rows db) as Hrow.
  { apply list_elem_of_In. apply list_elem_of_In in Hu.
    unfold MemoryDatabase.getMemoriesByStore in Hu.
    by apply filter_In in Hu as [Hu _]. }
  pose proof (getMemory_unique db u Hnd Hrow) as Hget.
  unfold MemoryDatabase.getMemory in Hget. rewrite Hget. simpl. f_equal.
  apply consolidate_rows_self; [|done].
  by apply NoDup_ids_filter.
Qed.

(** C4: every short-term unit that [runConsolidation] scans is promoted to
    the long-term store exactly when its classification is an auto-promote
    one, or its strength reaches [stmToLtmStrengthThreshold], or its
    frequency reaches [stmToLtmFrequencyThreshold]; otherwise a strength
    below 0.1 sets its status to decayed, and else the unit stays as it is.
    No row is deleted, and the result lists the id of the unit in the one
    list that names what happened to it, and in no other. *)
Theorem runConsolidation_promotes_decays_or_keeps
    config db result db' u :
  MemoryDatabase.wf db ->
  SelectiveMemory.runConsolidation config db = (result, db') ->
  u ∈ MemoryDatabase.getMemoriesByStore stm db ->
  let promote :=
    MemoryUnit.classification u ∈ PsychMemConfig.autoPromoteToLtm config
    \/ PsychMemConfig.stmToLtmStrengthThreshold config <= MemoryUnit.strength u
    \/ (PsychMemConfig.stmToLtmFrequencyThreshold config
        <= MemoryUnit.frequency u)%nat in
  let listed l := MemoryUnit.id u ∈ l in
  length (MemoryDatabase.rows db') = length (MemoryDatabase.rows db)
  /\ (promote ->
      MemoryDatabase.getMemory (MemoryUnit.id u) db'
      = Some (MemoryUnit.set_store ltm u)
      /\ listed (ConsolidationResult.promoted result)
      /\ ~ listed (ConsolidationResult.decayed result)
      /\ ~ listed (ConsolidationResult.unchanged result))
  /\ (~ promote -> MemoryUnit.strength u < 0.1 ->
      MemoryDatabase.getMemory (MemoryUnit.id u) db'
      = Some (MemoryUnit.set_status decayed u)
      /\ ~ listed (ConsolidationResult.promoted result)
      /\ listed (ConsolidationResult.decayed result)
      /\ ~ listed (ConsolidationResult.unchanged result))
  /\ (~ promote -> 0.1 <= MemoryUnit.strength u ->
      MemoryDatabase.getMemory (MemoryUnit.id u) db' = Some u
      /\ ~ listed (ConsolidationResult.promoted result)
      /\ ~ listed (ConsolidationResult.decayed result)
      /\ listed (ConsolidationResult.unchanged result)).
Proof.
  intros Hwf Hrun Hu promote listed.
  pose proof (runConsolidation_row config db u Hwf Hu) as Hrow.
  rewrite Hrun in Hrow. simpl in Hrow.
  assert (NoDup (List.map MemoryUnit.id
                   (MemoryDatabase.getMemoriesByStore stm db))) as Hnd.
  { apply NoDup_ids_filter, Hwf. }
  unfold SelectiveMemory.runConsolidation in Hrun.
  pose proof (fold_consolidate_result config
                (MemoryDatabase.getMemoriesByStore stm db)
                (ConsolidationResult.mk [] [] []) db) as Hres.
  pose proof (fold_consolidate_rows config
                (MemoryDatabase.getMemoriesByStore stm db)
                (ConsolidationResult.mk [] [] []) db) as Hrows.
  rewrite Hrun in Hres, Hrows. simpl in Hres, Hrows.
  destruct Hres as (HP & HD & HU).
  unfold listed. rewrite HP, HD, HU, !id_in_filtered by done.
  unfold consolidate_row in Hrow. rewrite Nat.eqb_refl in Hrow.
  pose proof (shouldPromoteToLtm_true config u) as Hprom.
  fold promote in Hprom.
  split; [by rewrite Hrows, length_map|].
  destruct (SelectiveMemory.shouldPromoteToLtm config u) eqn:Ep.
  - assert promote as Hp by (by apply Hprom).
    simpl. repeat split; intros; try done; exfalso; tauto.
  - assert (~ promote) as Hp by (intros Hp; apply Hprom in Hp; done).
    destruct (Rltb (MemoryUnit.strength u) 0.1) eqn:Es; simpl.
    + apply Rltb_true in Es.
      repeat split; intros; try done; exfalso; try tauto; lra.
    + apply Rltb_false in Es.
      repeat split; intros; try done; exfalso; try tauto; lra.
Qed.

(** ** Reconsolidation *)

Lemma reconsolidate_conflict memoryId newEvidence db memory :
  MemoryDatabase.getMemory memoryId db = Some memory ->
  MemoryUnit.status memory <> pinned ->
  SelectiveMemory.calculateTextSimilarity (Evidence.content newEvidence)
    (MemoryUnit.summary memory) < 0.3 ->
  SelectiveMemory.reconsolidate memoryId newEvidence db
  = (ReconsolidationResult.mk true (Some true)
       (Some (MemoryUnit.confidence memory))
       (Some ((MemoryUnit.confidence memory
               + Evidence.confidence newEvidence) / 2 * 0.8))
       (Some true) None None,
     db).
Proof.
  intros Hget Hpin Hsim. unfold SelectiveMemory.reconsolidate.
  rewrite Hget. rewrite bool_decide_eq_false_2 by done.
  apply Rltb_true in Hsim. by rewrite Hsim.
Qed.

Example calculateTextSimilarity_of_empty_texts :
  SelectiveMemory.calculateTextSimilarity "" "" = 1.
Proof.
  unfold SelectiveMemory.calculateTextSimilarity. count_words. lra.
Qed.

Example jaccardSimilarity_of_short_words :
  MemoryRetrieval.jaccardSimilarity "go is on" "go is on" = 0.
Proof.
  unfold MemoryRetrieval.jaccardSimilarity. cbv zeta. by eval_counts.
Qed.

Lemma sample_evidence_conflicts :
  SelectiveMemory.calculateTextSimilarity
    (Evidence.content Sample.evidence) (MemoryUnit.summary Sample.tabs) < 0.3.
Proof.
  unfold SelectiveMemory.calculateTextSimilarity. count_words. lra.
Qed.

(** C1: on the conflict path [reconsolidate] reports the new confidence
    (old + evidence)/2 · 0.8 in its result, but it writes nothing: after
    evidence that shares no word with the summary, the stored unit has the
    confidence and the summary it had before. *)
Theorem reconsolidate_conflict_writes_nothing :
  let db := Sample.store_of [Sample.tabs] in
  let '(result, db') :=
    SelectiveMemory.reconsolidate 1 Sample.evidence db in
  ReconsolidationResult.updated result = Some true
  /\ ReconsolidationResult.conflict result = Some true
  /\ ReconsolidationResult.newConfidence result = Some ((0.8 + 0.6) / 2 * 0.8)
  /\ db' = db
  /\ exists stored,
       MemoryDatabase.getMemory 1 db' = Some stored
       /\ MemoryUnit.confidence stored = 0.8
       /\ MemoryUnit.confidence stored <> (0.8 + 0.6) / 2 * 0.8
       /\ MemoryUnit.summary stored = "user prefers tabs over spaces".
Proof.
  intros db.
  rewrite (reconsolidate_conflict 1 Sample.evidence db Sample.tabs);
    [|done|done|apply sample_evidence_conflicts].
  repeat split; try done.
  exists Sample.tabs. repeat split; try done. simpl. lra.
Qed.

(** ** Intake *)

Lemma detectInterference_nonneg candidate db :
  0 <= SelectiveMemory.detectInterference candidate db.
Proof.
  unfold SelectiveMemory.detectInterference.
  generalize (MemoryDatabase.getTopMemories 50 db). intros l.
  assert (forall acc, 0 <= acc ->
            0 <= fold_left
                   (fun interference mem =>
                      let topicSimilarity :=
                        SelectiveMemory.calculateTextSimilarity
                          (MemoryCandidate.summary candidate)
                          (MemoryUnit.summary mem) in
                      if Rltb 0.3 topicSimilarity && Rltb topicSimilarity 0.8
                      then Rmax interference (topicSimilarity * 0.5)
                      else interference) l acc) as H.
  { induction l as [|m l IH]; intros acc Hacc; simpl; [done|].
    apply IH. destruct (_ && _); [|done].
    eapply Rle_trans; [apply Hacc | apply Rmax_l]. }
  apply H. lra.
Qed.

Lemma update_fresh id f (l : list MemoryUnit.t) :
  Forall (fun u => MemoryUnit.id u <> id) l ->
  List.map (fun u => if Nat.eqb (MemoryUnit.id u) id then f u else u) l = l.
Proof.
  induction 1 as [|u l Hu _ IH]; simpl; [done|].
  rewrite IH. by destruct (Nat.eqb_spec (MemoryUnit.id u) id).
Qed.

Lemma update_created id f (u : MemoryUnit.t) db :
  MemoryDatabase.wf db -> MemoryUnit.id u = MemoryDatabase.nextId db ->
  id = MemoryUnit.id u ->
  MemoryDatabase.rows
    (MemoryDatabase.update id f
       (MemoryDatabase.mk (MemoryDatabase.rows db ++ [u])
          (S (MemoryDatabase.nextId db)) (MemoryDatabase.initialStrength db)))
  = MemoryDatabase.rows db ++ [f u].
Proof.
  intros [_ Hlt] Hid ->. unfold MemoryDatabase.update. simpl.
  rewrite map_app. simpl. rewrite Nat.eqb_refl. f_equal.
  apply update_fresh. eapply Forall_impl; [apply Hlt|].
  simpl. intros v Hv. lia.
Qed.


(** What intake decides from the candidate alone. *)
Lemma processCandidate_unit config now options candidate db :
  let memory :=
    (SelectiveMemory.processCandidate config now options candidate db).1 in
  MemoryUnit.store memory
  = (if includes_classification (PsychMemConfig.autoPromoteToLtm config)
          (MemoryCandidate.classification candidate)
     then ltm else stm)
  /\ MemoryUnit.projectScope memory
     = (if isUserLevelClassification (MemoryCandidate.classification candidate)
        then None
        else if truthy (options ≫= ProcessOptions.projectScope)
             then options ≫= ProcessOptions.projectScope else None)
  /\ MemoryUnit.novelty memory = SelectiveMemory.calculateNovelty candidate db.
Proof.
  unfold SelectiveMemory.processCandidate, MemoryDatabase.createMemory.
  cbv zeta. simpl.
  destruct (isUserLevelClassification _); by repeat split.
Qed.

Lemma processCandidates_app config now options cs1 cs2 db :
  SelectiveMemory.processCandidates config now options (cs1 ++ cs2) db
  = (let '(created1, db1) :=
       SelectiveMemory.processCandidates config now options cs1 db in
     let '(created2, db2) :=
       SelectiveMemory.processCandidates config now options cs2 db1 in
     (created1 ++ created2, db2)).
Proof.
  revert db. induction cs1 as [|c cs1 IH]; intros db.
  - simpl. by destruct (SelectiveMemory.processCandidates _ _ _ cs2 db).
  - cbn [app SelectiveMemory.processCandidates].
    destruct (SelectiveMemory.processCandidate config now options c db)
      as [m db0].
    rewrite IH.
    destruct (SelectiveMemory.processCandidates config now options cs1 db0)
      as [created1 db1].
    by destruct (SelectiveMemory.processCandidates config now options cs2 db1).
Qed.

Lemma processCandidates_store_scope config now options cs db db' :
  List.map (fun u => (MemoryUnit.store u, MemoryUnit.projectScope u))
    (SelectiveMemory.processCandidates config now options cs db).1
  = List.map (fun u => (MemoryUnit.store u, MemoryUnit.projectScope u))
      (SelectiveMemory.processCandidates config now options cs db').1.
Proof.
  revert db db'. induction cs as [|c cs IH]; intros db db'; [done|].
  cbn [SelectiveMemory.processCandidates].
  pose proof (processCandidate_unit config now options c db) as (Hs & Hp & _).
  pose proof (processCandidate_unit config now options c db') as (Hs' & Hp' & _).
  destruct (SelectiveMemory.processCandidate config now options c db)
    as [m db0].
  destruct (SelectiveMemory.processCandidate config now options c db')
    as [m' db0'].
  specialize (IH db0 db0').
  destruct (SelectiveMemory.processCandidates config now options cs db0).
  destruct (SelectiveMemory.processCandidates config now options cs db0').
  simpl in *. by rewrite IH, Hs, Hs', Hp, Hp'.
Qed.

Lemma processCandidate_effect config now options candidate db :
  let memory :=
    (SelectiveMemory.processCandidate config now options candidate db).1 in
  let db' :=
    (SelectiveMemory.processCandidate config now options candidate db).2 in
  MemoryUnit.id memory = MemoryDatabase.nextId db
  /\ MemoryUnit.status memory = active
  /\ MemoryUnit.frequency memory = 1%nat
  /\ MemoryUnit.summary memory = MemoryCandidate.summary candidate
  /\ MemoryUnit.classification memory
     = MemoryCandidate.classification candidate
  /\ MemoryDatabase.nextId db' = S (MemoryDatabase.nextId db)
  /\ MemoryDatabase.initialStrength db' = MemoryDatabase.initialStrength db
  /\ (MemoryDatabase.wf db ->
      exists x,
        MemoryDatabase.rows db'
        = MemoryDatabase.rows db ++ [MemoryUnit.set_strength x memory]).
Proof.
  unfold SelectiveMemory.processCandidate, MemoryDatabase.createMemory.
  cbv zeta. destruct (Rltb 0 _); cbn [fst snd].
  - repeat split; try done. intros Hwf. eexists.
    unfold MemoryDatabase.updateMemoryStrength. by apply update_created.
  - repeat split; try done. intros _. eexists. reflexivity.
Qed.

Lemma wf_append db row rows' next' init' :
  MemoryDatabase.wf db ->
  MemoryUnit.id row = MemoryDatabase.nextId db ->
  rows' = MemoryDatabase.rows db ++ [row] ->
  next' = S (MemoryDatabase.nextId db) ->
  MemoryDatabase.wf (MemoryDatabase.mk rows' next' init').
Proof.
  intros [Hnd Hlt] Hid -> ->. split; cbn.
  - rewrite map_app. apply NoDup_app. repeat split; [done| |].
    + intros i Hi [->|Hnil]%elem_of_cons; [|by apply elem_of_nil in Hnil].
      apply list_elem_of_In, in_map_iff in Hi as (u & Eu & Hu).
      rewrite Forall_forall in Hlt. apply list_elem_of_In, Hlt in Hu.
      cbn in Hu. lia.
    + apply NoDup_singleton.
  - apply Forall_app. split.
    + eapply Forall_impl; [apply Hlt|]. cbn. intros; lia.
    + apply Forall_cons. split; [cbn; lia|apply Forall_nil_2].
Qed.

Lemma processCandidates_rows config now options candidates db :
  MemoryDatabase.wf db ->
  let created :=
    (SelectiveMemory.processCandidates config now options candidates db).1 in
  let db' :=
    (SelectiveMemory.processCandidates config now options candidates db).2 in
  MemoryDatabase.wf db'
  /\ Forall2
       (fun candidate memory =>
          MemoryUnit.summary memory = MemoryCandidate.summary candidate)
       candidates created
  /\ exists added,
       MemoryDatabase.rows db' = MemoryDatabase.rows db ++ added
       /\ Forall2
            (fun memory row =>
               row = MemoryUnit.set_strength (MemoryUnit.strength row) memory)
            created added.
Proof.
  revert db. induction candidates as [|c cs IH]; intros db Hwf.
  - cbn. split; [done|]. split; [constructor|].
    exists []. split; [by rewrite app_nil_r|constructor].
  - cbn [SelectiveMemory.processCandidates].
    pose proof (processCandidate_effect config now options c db)
      as (Hid & _ & _ & Hsum & _ & Hnext & _ & Hrows).
    destruct (SelectiveMemory.processCandidate config now options c db)
      as [m db1].
    cbn [fst snd] in *. destruct (Hrows Hwf) as [x Hrows1].
    assert (MemoryDatabase.wf db1) as Hwf1.
    { destruct db1 as [rows1 next1 init1]. cbn in *.
      by apply (wf_append db (MemoryUnit.set_strength x m)). }
    specialize (IH db1 Hwf1).
    destruct (SelectiveMemory.processCandidates config now options cs db1)
      as [created db2].
    cbn [fst snd] in *.
    destruct IH as (Hwf2 & Hall & added & Hrows2 & Hadded).
    split; [done|]. split; [by constructor|].
    exists (MemoryUnit.set_strength x m :: added).
    split; [by rewrite Hrows2, Hrows1, <- app_assoc|].
    by constructor.
Qed.

(** The row that intake leaves in the store for one candidate: the unit
    [createMemory] returned, with the dampened strength when the candidate
    interferes with the store it was processed on. *)
Lemma processCandidate_rows config now options candidate db :
  MemoryDatabase.wf db ->
  let memory :=
    (SelectiveMemory.processCandidate config now options candidate db).1 in
  let db' :=
    (SelectiveMemory.processCandidate config now options candidate db).2 in
  let interference := SelectiveMemory.detectInterference candidate db in
  let strength :=
    SelectiveMemory.calculateStrength config
      (SelectiveMemory.calculateFeatures candidate db) in
  (interference = 0 ->
   MemoryDatabase.rows db' = MemoryDatabase.rows db ++ [memory])
  /\ (0 < interference ->
      MemoryDatabase.rows db'
      = MemoryDatabase.rows db
        ++ [MemoryUnit.set_strength (strength * (1 - interference * 0.2))
              memory]).
Proof.
  intros Hwf. cbv zeta.
  unfold SelectiveMemory.processCandidate, MemoryDatabase.createMemory.
  cbv zeta.
  destruct (Rltb 0 (SelectiveMemory.detectInterference candidate db)) eqn:E;
    cbn [fst snd].
  - apply Rltb_true in E. split; [intros; lra|]. intros _.
    unfold MemoryDatabase.updateMemoryStrength. by apply update_created.
  - apply Rltb_false in E. split; [done|]. intros; lra.
Qed.

(** C2, as the code has it: the store and the scope of every unit that one
    call of [processCandidates] creates are the same whatever the store
    holds, but novelty, interference and the strength derived from them are
    computed on the store as it is when the candidate is reached. One call
    on [cs1 ++ cs2] is the call on [cs1] followed by the call on [cs2] on
    the store the first one left, and the novelty of a new unit is
    [calculateNovelty] on the store of that moment. For a candidate [c]
    that follows the candidates [cs] in one call on a store with unique
    ids, the store of that moment, [db1], is the store the call on [cs]
    leaves: the store of before the call with one row for each candidate of
    [cs], carrying its summary. The unit of [c] has the novelty
    [calculateNovelty c db1]; interference is [detectInterference c db1],
    never negative; the row written for [c] is the unit as created when
    that interference is 0, and otherwise the unit with the strength
    [calculateStrength (calculateFeatures c db1) · (1 − interference ·
    0.2)], where the features hold the novelty against [db1]. *)
Theorem processCandidates_sees_earlier_units :
  (forall config now options cs1 cs2 db,
      SelectiveMemory.processCandidates config now options (cs1 ++ cs2) db
      = (let '(created1, db1) :=
           SelectiveMemory.processCandidates config now options cs1 db in
         let '(created2, db2) :=
           SelectiveMemory.processCandidates config now options cs2 db1 in
         (created1 ++ created2, db2)))
  /\ (forall config now options cs db db',
         List.map (fun u => (MemoryUnit.store u, MemoryUnit.projectScope u))
           (SelectiveMemory.processCandidates config now options cs db).1
         = List.map (fun u => (MemoryUnit.store u, MemoryUnit.projectScope u))
             (SelectiveMemory.processCandidates config now options cs db').1)
  /\ (forall config now options c db,
         List.map MemoryUnit.novelty
           (SelectiveMemory.processCandidates config now options [c] db).1
         = [SelectiveMemory.calculateNovelty c db])
  /\ (forall config now options cs c db,
         MemoryDatabase.wf db ->
         let earlier :=
           SelectiveMemory.processCandidates config now options cs db in
         let db1 := earlier.2 in
         let both :=
           SelectiveMemory.processCandidates config now options (cs ++ [c])
             db in
         let interference := SelectiveMemory.detectInterference c db1 in
         let features := SelectiveMemory.calculateFeatures c db1 in
         let strength := SelectiveMemory.calculateStrength config features in
         (exists added,
             MemoryDatabase.rows db1 = MemoryDatabase.rows db ++ added
             /\ Forall2
                  (fun candidate row =>
                     MemoryUnit.summary row
                     = MemoryCandidate.summary candidate)
                  cs added)
         /\ MemoryFeatureVector.novelty features
            = SelectiveMemory.calculateNovelty c db1
         /\ 0 <= interference
         /\ exists memory,
              both.1 = earlier.1 ++ [memory]
              /\ MemoryUnit.novelty memory
                 = SelectiveMemory.calculateNovelty c db1
              /\ (interference = 0 ->
                  MemoryDatabase.rows both.2
                  = MemoryDatabase.rows db1 ++ [memory])
              /\ (0 < interference ->
                  MemoryDatabase.rows both.2
                  = MemoryDatabase.rows db1
                    ++ [MemoryUnit.set_strength
                          (strength * (1 - interference * 0.2)) memory])).
Proof.
  split; [apply processCandidates_app|].
  split; [apply processCandidates_store_scope|].
  split.
  { intros. cbn [SelectiveMemory.processCandidates].
    pose proof (processCandidate_unit config now options c db)
      as (_ & _ & Hn).
    destruct (SelectiveMemory.processCandidate config now options c db).
    simpl in *. by rewrite Hn. }
  intros config now options cs c db Hwf earlier db1 both interference
    features strength.
  destruct (processCandidates_rows config now options cs db Hwf)
    as (Hwf1 & Hsummaries & added & Hrows1 & Hadded).
  fold earlier in Hwf1, Hsummaries, Hrows1, Hadded. fold db1 in Hwf1, Hrows1.
  split.
  { exists added. split; [done|].
    clear -Hsummaries Hadded. revert added Hadded.
    induction Hsummaries as [|candidate memory cs created Hs _ IH];
      intros added Hadded.
    - inversion Hadded. constructor.
    - inversion Hadded as [|? row ? added' Hrow Hrest]; subst.
      constructor; [|by apply IH].
      rewrite Hrow. by destruct memory. }
  split; [done|].
  split; [apply detectInterference_nonneg|].
  pose proof (processCandidate_unit config now options c db1)
    as (_ & _ & Hnovelty).
  pose proof (processCandidate_rows config now options c db1 Hwf1)
    as [Hzero Hpos].
  cbv zeta in Hnovelty, Hzero, Hpos.
  unfold both. rewrite processCandidates_app. fold earlier.
  destruct earlier as [created1 db1'] eqn:Eearlier. cbn [fst snd] in db1.
  subst db1. cbn [SelectiveMemory.processCandidates].
  destruct (SelectiveMemory.processCandidate config now options c db1')
    as [memory db2].
  cbn [fst snd] in *. exists memory. by repeat split.
Qed.

Lemma processCandidate_row config now options candidate db :
  MemoryDatabase.wf db ->
  exists row,
    MemoryDatabase.rows
      (SelectiveMemory.processCandidate config now options candidate db).2
    = MemoryDatabase.rows db ++ [row]
    /\ MemoryUnit.summary row = MemoryCandidate.summary candidate
    /\ MemoryUnit.status row = active.
Proof.
  intros Hwf.
  unfold SelectiveMemory.processCandidate, MemoryDatabase.createMemory.
  cbv zeta. destruct (Rltb 0 _).
  - eexists. split.
    + unfold MemoryDatabase.updateMemoryStrength. cbn [snd].
      by apply update_created.
    + done.
  - eexists. by repeat split.
Qed.

Lemma getTopMemories_single limit row db :
  MemoryDatabase.rows db = [row] -> MemoryUnit.status row = active ->
  MemoryDatabase.getTopMemories (S limit) db = [row].
Proof.
  intros Hrows Hactive. unfold MemoryDatabase.getTopMemories.
  rewrite Hrows. cbn [List.filter].
  unfold MemoryDatabase.active_or_pinned. rewrite Hactive.
  cbn [sort_desc fold_right insert_desc]. by destruct limit.
Qed.

Lemma calculateNovelty_empty candidate db :
  MemoryDatabase.rows db = [] ->
  SelectiveMemory.calculateNovelty candidate db = 1.
Proof.
  intros Hrows.
  unfold SelectiveMemory.calculateNovelty, MemoryDatabase.getTopMemories.
  by rewrite Hrows.
Qed.

Lemma calculateNovelty_single candidate row db :
  MemoryDatabase.rows db = [row] -> MemoryUnit.status row = active ->
  SelectiveMemory.calculateNovelty candidate db
  = 1 - Rmax 0 (SelectiveMemory.calculateTextSimilarity
                  (MemoryCandidate.summary candidate) (MemoryUnit.summary row)).
Proof.
  intros Hrows Hactive. unfold SelectiveMemory.calculateNovelty.
  by rewrite (getTopMemories_single 49 row db).
Qed.

Lemma sample_store_wf : MemoryDatabase.wf (Sample.store_of []).
Proof. split; simpl; constructor. Qed.

(** C2 as stated fails: into an empty store, the second of two candidates
    with the same summary gets novelty 0 in one call for both, and
    novelty 1 in a call of its own. *)
Lemma later_candidate_sees_earlier_unit :
  let db := Sample.store_of [] in
  let c := Sample.candidate "user prefers tabs over spaces" in
  List.map MemoryUnit.novelty
    (SelectiveMemory.processCandidates Sample.config 0 None [c; c] db).1
  = [1; 0]
  /\ List.map MemoryUnit.novelty
       (SelectiveMemory.processCandidates Sample.config 0 None [c] db).1
     = [1]
  /\ List.map MemoryUnit.novelty
       (SelectiveMemory.processCandidates Sample.config 0 None [c; c] db).1
     !! 1%nat
     <> List.map MemoryUnit.novelty
          (SelectiveMemory.processCandidates Sample.config 0 None [c] db).1
        !! 0%nat.
Proof.
  intros db c.
  assert (SelectiveMemory.calculateNovelty c db = 1) as Hfirst.
  { by apply calculateNovelty_empty. }
  cbn [SelectiveMemory.processCandidates].
  pose proof (processCandidate_unit Sample.config 0 None c db) as (_ & _ & Hn1).
  destruct (processCandidate_row Sample.config 0 None c db sample_store_wf)
    as (row & Hrows & Hsummary & Hactive).
  destruct (SelectiveMemory.processCandidate Sample.config 0 None c db)
    as [m1 db1].
  pose proof (processCandidate_unit Sample.config 0 None c db1) as (_ & _ & Hn2).
  destruct (SelectiveMemory.processCandidate Sample.config 0 None c db1)
    as [m2 db2].
  cbn [fst snd] in *. cbn [List.map]. rewrite Hn1, Hn2, Hfirst.
  rewrite (calculateNovelty_single c row db1 Hrows Hactive), Hsummary.
  assert (Rmax 0 (SelectiveMemory.calculateTextSimilarity
                    (MemoryCandidate.summary c) (MemoryCandidate.summary c))
          = 1) as ->.
  { unfold SelectiveMemory.calculateTextSimilarity. count_words.
    unfold Rmax. destruct (Rle_dec _ _); lra. }
  assert ([1; 1 - 1] = [1; 0]) as -> by (do 2 f_equal; lra).
  repeat split. cbn. intros [=]. lra.
Qed.

(** ** Session end *)

(** C3: the three steps of the session end run inside one transaction.
    When one of them throws, whatever it and the steps before it did to
    the store, [process] ends with the same error, the contents of the
    store are the ones from before the call, and no transaction is left
    open. When none throws, the contents are the ones the three steps
    produced one after the other, committed together. *)
Theorem process_commits_all_or_nothing {Err : Type}
    (endSession : string -> SessionStatus -> @SessionEndHook.StoreCall Err unit)
    (applyDecay : @SessionEndHook.StoreCall Err DecayResult.t)
    (runConsolidation : @SessionEndHook.StoreCall Err ConsolidationResult.t)
    (sessionId : string) (data : SessionEndData.t)
    (c : MemoryDatabase.Conn.conn) :
  let sessionStatus :=
    if bool_decide (SessionEndData.reason data = Some "abandoned")
    then session_abandoned else session_completed in
  let before := MemoryDatabase.Conn.data c in
  let outcome :=
    SessionEndHook.process endSession applyDecay runConsolidation
      sessionId data c in
  (forall e,
      (exists d, endSession sessionId sessionStatus before = (inl e, d))
      \/ (exists d1 d,
             endSession sessionId sessionStatus before = (inr tt, d1)
             /\ applyDecay d1 = (inl e, d))
      \/ (exists d1 decayResult d2 d,
             endSession sessionId sessionStatus before = (inr tt, d1)
             /\ applyDecay d1 = (inr decayResult, d2)
             /\ runConsolidation d2 = (inl e, d)) ->
      outcome = (inl e, MemoryDatabase.Conn.mk before None))
  /\ (forall d1 decayResult d2 consolidationResult d3,
         endSession sessionId sessionStatus before = (inr tt, d1) ->
         applyDecay d1 = (inr decayResult, d2) ->
         runConsolidation d2 = (inr consolidationResult, d3) ->
         outcome
         = (inr (SessionEndResult.mk
                   (length (ConsolidationResult.promoted consolidationResult))
                   (DecayResult.memoriesDecayed decayResult) 0),
            MemoryDatabase.Conn.mk d3 None)).
Proof.
  intros sessionStatus before outcome.
  unfold outcome, SessionEndHook.process, mbind, SessionEndHook.Throws_bind,
    SessionEndHook.bind, SessionEndHook.try_catch, SessionEndHook.call,
    SessionEndHook.transaction, SessionEndHook.throw, SessionEndHook.ret,
    MemoryDatabase.beginTransaction, MemoryDatabase.commitTransaction,
    MemoryDatabase.rollbackTransaction.
  fold sessionStatus. cbn [MemoryDatabase.Conn.data MemoryDatabase.Conn.saved].
  fold before.
  split.
  - intros e [(d & H1)|[(d1 & d & H1 & H2)|(d1 & r & d2 & d & H1 & H2 & H3)]].
    + by rewrite H1.
    + rewrite H1. cbn. by rewrite H2.
    + rewrite H1. cbn. rewrite H2. cbn. by rewrite H3.
  - intros d1 r d2 cr d3 H1 H2 H3.
    rewrite H1. cbn. rewrite H2. cbn. by rewrite H3.
Qed.

(** ** Word sets: the lists of the code and the sets of the design *)

Lemma has_elem_of s x : JS.has s x = true <-> x ∈ s.
Proof.
  unfold JS.has. rewrite existsb_exists. split.
  - intros (y & Hin & E). apply String.eqb_eq in E as ->.
    by apply list_elem_of_In.
  - intros Hin. exists x. split; [by apply list_elem_of_In|].
    apply String.eqb_refl.
Qed.

Lemma fold_add_spec l acc :
  NoDup acc ->
  NoDup (fold_left JS.add l acc)
  /\ forall x, x ∈ fold_left JS.add l acc <-> x ∈ acc \/ x ∈ l.
Proof.
  revert acc. induction l as [|a l IH]; intros acc Hnd; cbn [fold_left].
  - split; [done|]. intros x. rewrite elem_of_nil. tauto.
  - assert (NoDup (JS.add acc a)
            /\ forall x, x ∈ JS.add acc a <-> x ∈ acc \/ x = a) as [Hnd' Hin'].
    { unfold JS.add. destruct (JS.has acc a) eqn:E.
      - apply has_elem_of in E. split; [done|].
        intros x. split; [tauto|]. by intros [?| ->].
      - assert (a ∉ acc) as Hnot.
        { intros Hin. apply has_elem_of in Hin. congruence. }
        split.
        + apply NoDup_app. repeat split; [done| |apply NoDup_singleton].
          intros x Hx ->%list_elem_of_singleton. done.
        + intros x. by rewrite elem_of_app, list_elem_of_singleton. }
    destruct (IH _ Hnd') as [H1 H2]. split; [done|].
    intros x. rewrite H2, Hin', elem_of_cons. tauto.
Qed.

Lemma new_Set_NoDup l : NoDup (JS.new_Set l).
Proof. apply fold_add_spec, NoDup_nil_2. Qed.

Lemma new_Set_elem_of l x : x ∈ JS.new_Set l <-> x ∈ l.
Proof.
  unfold JS.new_Set.
  destruct (fold_add_spec l [] (NoDup_nil_2 : NoDup (@nil string))) as [_ H].
  rewrite H, elem_of_nil. tauto.
Qed.

Lemma new_Set_size l (S : gset string) :
  (forall x, x ∈ l <-> x ∈ S) -> length (JS.new_Set l) = size S.
Proof.
  intros H. rewrite <- (size_list_to_set (C := gset string)) by apply new_Set_NoDup.
  f_equal. apply set_eq. intros x.
  by rewrite elem_of_list_to_set, new_Set_elem_of.
Qed.

(** The two counts of the Jaccard index, as the code computes them from
    two word lists. *)
Lemma jaccard_counts (la lb : list string) :
  let wordsA := JS.new_Set la in
  let wordsB := JS.new_Set lb in
  length (JS.new_Set (List.filter (fun x => JS.has wordsB x) wordsA))
  = size (list_to_set la ∩ list_to_set lb : gset string)
  /\ length (JS.new_Set (wordsA ++ wordsB))
     = size (list_to_set la ∪ list_to_set lb : gset string).
Proof.
  intros wordsA wordsB. split; apply new_Set_size; intros x.
  - rewrite elem_of_intersection, !elem_of_list_to_set.
    rewrite list_elem_of_In, filter_In, <- list_elem_of_In.
    unfold wordsA, wordsB.
    by rewrite has_elem_of, !new_Set_elem_of.
  - rewrite elem_of_union, !elem_of_list_to_set, elem_of_app.
    unfold wordsA, wordsB. by rewrite !new_Set_elem_of.
Qed.

Lemma new_Set_empty l :
  length (JS.new_Set l) = 0%nat <-> (list_to_set l : gset string) = ∅.
Proof.
  rewrite (new_Set_size l (list_to_set l))
    by (intros; by rewrite elem_of_list_to_set).
  rewrite size_empty_iff. by unfold_leibniz.
Qed.

Lemma split_from_nonempty s cur in_ws : JS.split_from s cur in_ws <> [].
Proof.
  revert cur in_ws. induction s as [|ch s IH]; intros cur in_ws; simpl; [done|].
  destruct (JS.is_whitespace ch); [destruct in_ws|]; try done; apply IH.
Qed.

Lemma longer_than_2_decide w :
  MemoryRetrieval.longer_than_2 w = bool_decide (2 < String.length w)%nat.
Proof.
  unfold MemoryRetrieval.longer_than_2.
  destruct (Nat.ltb_spec 2 (String.length w)).
  - by rewrite bool_decide_eq_true_2.
  - rewrite bool_decide_eq_false_2; [done|lia].
Qed.

Lemma filter_longer_than_2 l :
  List.filter MemoryRetrieval.longer_than_2 l
  = List.filter (fun w => bool_decide (2 < String.length w)%nat) l.
Proof. apply filter_ext. intros. apply longer_than_2_decide. Qed.

(** The similarity of the engine is the Jaccard index of the sets of all
    pieces of the two texts. *)
Lemma calculateTextSimilarity_all_words a b :
  SelectiveMemory.calculateTextSimilarity a b
  = Spec.jaccard (Spec.all_words a) (Spec.all_words b).
Proof.
  unfold SelectiveMemory.calculateTextSimilarity, Spec.jaccard, Spec.all_words.
  cbv zeta.
  destruct (jaccard_counts (JS.split_ws (JS.toLowerCase a))
              (JS.split_ws (JS.toLowerCase b))) as [-> ->].
  destruct (decide _) as [E|]; [|done].
  apply empty_union_L in E as [E _].
  apply new_Set_empty in E.
  unfold JS.split_ws in E.
  pose proof (split_from_nonempty (JS.toLowerCase a) EmptyString false) as Hne.
  assert (exists w, w ∈ JS.new_Set (JS.split_from (JS.toLowerCase a) "" false))
    as [w Hw].
  { destruct (JS.split_from (JS.toLowerCase a) "" false) as [|w l]; [done|].
    exists w. apply new_Set_elem_of. by left. }
  destruct (JS.new_Set _); [by apply elem_of_nil in Hw | done].
Qed.

(** The similarity of the retrieval layer is the Jaccard index of the sets
    of the words longer than two. *)
Lemma jaccardSimilarity_words a b :
  MemoryRetrieval.jaccardSimilarity (JS.toLowerCase a) (JS.toLowerCase b)
  = Spec.jaccard (Spec.words a) (Spec.words b).
Proof.
  unfold MemoryRetrieval.jaccardSimilarity, Spec.jaccard, Spec.words.
  cbv zeta. rewrite !filter_longer_than_2.
  set (la := List.filter _ (JS.split_ws (JS.toLowerCase a))).
  set (lb := List.filter _ (JS.split_ws (JS.toLowerCase b))).
  destruct (jaccard_counts la lb) as [-> ->].
  destruct (Nat.eqb_spec (length (JS.new_Set la)) 0) as [Ea|Ea].
  { apply new_Set_empty in Ea. rewrite Ea. cbn [orb].
    destruct (decide _); [done|].
    rewrite intersection_empty_l_L, size_empty. simpl. lra. }
  destruct (Nat.eqb_spec (length (JS.new_Set lb)) 0) as [Eb|Eb].
  { apply new_Set_empty in Eb. rewrite Eb. cbn [orb].
    destruct (decide _); [done|].
    rewrite intersection_empty_r_L, size_empty. simpl. lra. }
  cbn [orb]. destruct (decide _) as [E|]; [|done].
  apply empty_union_L in E as [E _]. apply new_Set_empty in E. done.
Qed.

(** C8 as stated fails for the engine: its similarity counts the words of
    one and two letters, so two texts whose longer words differ are half
    alike for the engine and not alike at all on the word sets that
    leave short words out. *)
Lemma engine_similarity_counts_short_words :
  SelectiveMemory.calculateTextSimilarity "go is fun" "go is bad" = 1 / 2
  /\ Spec.jaccard (Spec.words "go is fun") (Spec.words "go is bad") = 0
  /\ SelectiveMemory.calculateTextSimilarity "go is fun" "go is bad"
     <> Spec.jaccard (Spec.words "go is fun") (Spec.words "go is bad").
Proof.
  assert (SelectiveMemory.calculateTextSimilarity "go is fun" "go is bad"
          = 1 / 2) as H1.
  { unfold SelectiveMemory.calculateTextSimilarity. count_words. lra. }
  assert (Spec.jaccard (Spec.words "go is fun") (Spec.words "go is bad") = 0)
    as H2.
  { unfold Spec.jaccard. destruct (decide _); [done|]. count_words. lra. }
  rewrite H1, H2. repeat split; lra.
Qed.

(** C8, as the code has it: the similarity of the retrieval layer
    ([jaccardSimilarity] on the case-folded texts) is the Jaccard index of
    the case-folded, whitespace-tokenized word sets without the words of
    length two or less, and 0 when there is no word; the similarity of the
    engine ([calculateTextSimilarity], used for novelty, interference and
    reconsolidation) is the Jaccard index of the case-folded,
    whitespace-tokenized sets of all pieces, short words and the empty
    piece included. *)
Theorem jaccard_over_word_sets :
  (forall a b,
      MemoryRetrieval.jaccardSimilarity (JS.toLowerCase a) (JS.toLowerCase b)
      = Spec.jaccard (Spec.words a) (Spec.words b))
  /\ (forall a b,
         SelectiveMemory.calculateTextSimilarity a b
         = Spec.jaccard (Spec.all_words a) (Spec.all_words b)).
Proof.
  split; [apply jaccardSimilarity_words|apply calculateTextSimilarity_all_words].
Qed.

(** ** Relevance *)

Lemma Rmin_clamp01 x : 0 <= x -> Rmin 1 x = Spec.clamp01 x.
Proof.
  intros Hx. unfold Rmin, Spec.clamp01.
  destruct (Rle_dec 1 x); repeat destruct (Rlt_dec _ _); lra.
Qed.

Lemma keywordScore_ratio summary query :
  (if Nat.ltb 0
        (length (List.filter MemoryRetrieval.longer_than_2
                   (JS.split_ws (JS.toLowerCase query))))
   then INR (length (List.filter
                       (fun kw => JS.includes (JS.toLowerCase summary) kw)
                       (List.filter MemoryRetrieval.longer_than_2
                          (JS.split_ws (JS.toLowerCase query)))))
        / INR (length (List.filter MemoryRetrieval.longer_than_2
                         (JS.split_ws (JS.toLowerCase query))))
   else 0)
  = Spec.keywordRatio summary query.
Proof.
  unfold Spec.keywordRatio, Spec.keywordHits, Spec.keywords.
  rewrite filter_longer_than_2.
  by destruct (List.filter _ (JS.split_ws (JS.toLowerCase query))).
Qed.

Lemma calculateRelevance_spec now memory query :
  0 <= MemoryUnit.strength memory ->
  MemoryRetrieval.calculateRelevance now memory query
  = Spec.relevance now memory query.
Proof.
  intros Hs.
  pose proof (calculateRelevance_bounds now memory query Hs) as [Hlo _].
  revert Hlo.
  unfold MemoryRetrieval.calculateRelevance, Spec.relevance. cbv zeta.
  rewrite (keywordScore_ratio (MemoryUnit.summary memory) query).
  rewrite jaccardSimilarity_words.
  unfold Spec.textSimilarity, Spec.tagBonus, Spec.recencyBonus,
    Spec.ageHours, Spec.keywords.
  rewrite <- filter_longer_than_2.
  set (j := Spec.jaccard _ _). set (k := Spec.keywordRatio _ _).
  set (t := INR _). set (age := IZR (now - MemoryUnit.createdAt memory)).
  replace (age / (1000 * 60 * 60)) with (age / 3600000) by lra.
  set (r := Rmax 0 _).
  replace ((j * 0.5 + k * 0.5) * 2.0 * (0.5 + MemoryUnit.strength memory * 0.5)
           + t * 0.15 + r)
    with ((0.5 * j + 0.5 * k) * 2.0 * (0.5 + MemoryUnit.strength memory * 0.5)
          + 0.15 * t + r) by lra.
  intros Hlo. apply Rmin_clamp01.
  unfold Rmin in Hlo. destruct (Rle_dec _ _); lra.
Qed.

(** C6: for a unit of non-negative strength, the relevance that ranks the
    results of a text query is textSimilarity · 2.0 · (0.5 + strength ·
    0.5) + tagBonus + recencyBonus clamped to the interval from 0 to 1,
    with the text similarity, the tag bonus and the recency bonus of the
    design document; it is the score [rankByTextSimilarity] sorts by and
    the relevance score of the index item. *)
Theorem calculateRelevance_formula now memory query :
  0 <= MemoryUnit.strength memory ->
  MemoryRetrieval.calculateRelevance now memory query
  = Spec.relevance now memory query
  /\ (forall memories,
         Forall (fun m => 0 <= MemoryUnit.strength m) memories ->
         MemoryRetrieval.rankByTextSimilarity now memories query
         = List.map fst
             (sort_desc snd
                (List.map (fun m => (m, Spec.relevance now m query))
                   memories)))
  /\ (truthy (Some query) = true ->
      RetrievalIndexItem.relevanceScore
        (MemoryRetrieval.toIndexItem now memory (Some query))
      = Spec.relevance now memory query).
Proof.
  intros Hs.
  pose proof (calculateRelevance_spec now memory query Hs) as H.
  split; [done|]. split.
  - intros memories Hall. unfold MemoryRetrieval.rankByTextSimilarity.
    do 2 f_equal. apply map_ext_in. intros m Hm. f_equal.
    apply calculateRelevance_spec.
    rewrite Forall_forall in Hall. by apply Hall, list_elem_of_In.
  - intros Htruthy. unfold MemoryRetrieval.toIndexItem.
    cbn [RetrievalIndexItem.relevanceScore]. by rewrite Htruthy.
Qed.

(** ** The descending sort *)

Lemma insert_desc_perm {A} (key : A -> R) x l :
  insert_desc key x l ≡ₚ x :: l.
Proof.
  induction l as [|y l IH]; cbn [insert_desc]; [done|].
  destruct (Rltb _ _); [|done]. rewrite IH. apply Permutation_swap.
Qed.

Lemma sort_desc_perm {A} (key : A -> R) l : sort_desc key l ≡ₚ l.
Proof.
  induction l as [|x l IH]; cbn; [done|].
  fold (sort_desc key l). by rewrite insert_desc_perm, IH.
Qed.

Lemma insert_desc_sorted {A} (key : A -> R) x l :
  StronglySorted (fun a b => key b <= key a) l ->
  StronglySorted (fun a b => key b <= key a) (insert_desc key x l).
Proof.
  induction 1 as [|y l Hs IH Hy]; cbn [insert_desc].
  - repeat constructor.
  - destruct (Rltb (key x) (key y)) eqn:E.
    + apply Rltb_true in E. constructor; [done|].
      rewrite insert_desc_perm. constructor; [lra|done].
    + apply Rltb_false in E. constructor; [by constructor|].
      constructor; [done|].
      eapply Forall_impl; [exact Hy|]. cbn. intros; lra.
Qed.

Lemma sort_desc_sorted {A} (key : A -> R) l :
  StronglySorted (fun a b => key b <= key a) (sort_desc key l).
Proof.
  induction l as [|x l IH]; cbn; [constructor|].
  fold (sort_desc key l). by apply insert_desc_sorted.
Qed.

(** A sort that moves nothing when the list is already in order: ties
    keep their places. *)
Lemma sort_desc_of_sorted {A} (key : A -> R) l :
  StronglySorted (fun a b => key b <= key a) l -> sort_desc key l = l.
Proof.
  induction 1 as [|x l Hs IH Hx]; cbn; [done|].
  fold (sort_desc key l). rewrite IH.
  destruct l as [|y l']; [done|]. cbn [insert_desc].
  apply Forall_cons in Hx as [Hy _].
  by rewrite (proj2 (Rltb_false _ _)).
Qed.

Lemma StronglySorted_sublist {A} (R : A -> A -> Prop) l1 l2 :
  l1 `sublist_of` l2 -> StronglySorted R l2 -> StronglySorted R l1.
Proof.
  induction 1 as [|x l1 l2 Hsub IH|x l1 l2 Hsub IH]; intros Hs; [done| |].
  - apply StronglySorted_inv in Hs as [Hs Hx]. constructor; [by apply IH|].
    rewrite Forall_forall in Hx. apply Forall_forall. intros y Hy.
    apply Hx. by eapply elem_of_sublist.
  - apply StronglySorted_inv in Hs as [Hs _]. by apply IH.
Qed.

Lemma filter_sublist {A} (p : A -> bool) (l : list A) :
  List.filter p l `sublist_of` l.
Proof.
  induction l as [|x l IH]; cbn [List.filter]; [done|].
  destruct (p x); by constructor.
Qed.

Lemma StronglySorted_map_fst {A} (rel : A -> R) (l : list (A * R)) :
  Forall (fun p => p.2 = rel p.1) l ->
  StronglySorted (fun a b => b.2 <= a.2) l ->
  StronglySorted (fun a b => rel b <= rel a) (List.map fst l).
Proof.
  induction 2 as [|p l Hs IH Hp]; cbn [List.map]; [constructor|].
  apply Forall_cons in H as [Ep Hl]. constructor; [by apply IH|].
  clear IH Hs. induction Hl as [|q l Eq _ IHl]; cbn [List.map];
    constructor.
  - apply Forall_cons in Hp as [Hq _]. by rewrite <- Ep, <- Eq.
  - apply IHl. by apply Forall_cons in Hp as [_ Hp].
Qed.

(** ** Ranking two units *)

Lemma sort_desc_length {A} (key : A -> R) (l : list A) :
  length (sort_desc key l) = length l.
Proof.
  induction l as [|x l IH]; simpl; [done|]. rewrite <- IH.
  generalize (sort_desc key l). intros s.
  induction s as [|y s IHs]; simpl; [done|].
  destruct (Rltb _ _); simpl; by rewrite ?IHs.
Qed.

Lemma sort_desc_pair {A} (key : A -> R) (x y : A) :
  sort_desc key [x; y] = if Rltb (key x) (key y) then [y; x] else [x; y].
Proof. done. Qed.

Lemma rankByTextSimilarity_pair now x y query :
  MemoryRetrieval.rankByTextSimilarity now [x; y] query
  = if Rltb (MemoryRetrieval.calculateRelevance now x query)
         (MemoryRetrieval.calculateRelevance now y query)
    then [y; x] else [x; y].
Proof.
  unfold MemoryRetrieval.rankByTextSimilarity. cbn [List.map].
  rewrite sort_desc_pair. cbn [snd]. by destruct (Rltb _ _).
Qed.

Lemma rankByTextSimilarity_length now l query :
  length (MemoryRetrieval.rankByTextSimilarity now l query) = length l.
Proof.
  unfold MemoryRetrieval.rankByTextSimilarity.
  by rewrite length_map, sort_desc_length, length_map.
Qed.

(** The index of a text query without filters on a pool of two units:
    the two units, ordered by strength and then ranked by relevance. *)
Lemma retrieveIndex_two config now query limit db x y :
  MemoryDatabase.rows db = [x; y] ->
  MemoryDatabase.active_or_pinned x = true ->
  MemoryDatabase.active_or_pinned y = true ->
  truthy (Some query) = true ->
  (2 <= limit)%nat ->
  List.map RetrievalIndexItem.id
    (MemoryRetrieval.retrieveIndex config now
       (RetrievalQuery.mk (Some query) None (Some limit)) db)
  = List.map MemoryUnit.id
      (MemoryRetrieval.rankByTextSimilarity now
         (sort_desc MemoryUnit.strength [x; y]) query).
Proof.
  intros Hrows Hx Hy Hq Hlimit.
  unfold MemoryRetrieval.retrieveIndex, MemoryRetrieval.getFilteredMemories,
    MemoryDatabase.getTopMemories.
  cbn [RetrievalQuery.limit RetrievalQuery.filters RetrievalQuery.query
       default].
  rewrite Hrows, Hq. cbn [List.filter]. rewrite Hx, Hy.
  unfold Datatypes.id.
  rewrite (firstn_all2 (n := Nat.min 200 (Nat.max 50 (limit * 10))))
    by (rewrite sort_desc_length; cbn [length]; lia).
  rewrite firstn_all2
    by (rewrite rankByTextSimilarity_length, sort_desc_length;
        cbn [length]; lia).
  rewrite map_map. done.
Qed.

Lemma login_fix_relevance : 
  MemoryRetrieval.calculateRelevance Sample.later Sample.login_fix
    "authentication bug" = 0.98.
Proof.
  unfold MemoryRetrieval.calculateRelevance, MemoryRetrieval.jaccardSimilarity.
  cbv zeta. eval_counts.
  change (Sample.later - MemoryUnit.createdAt Sample.login_fix)%Z
    with 720000000%Z.
  cbn [MemoryUnit.strength Sample.login_fix].
  rewrite Rmax_left by lra. rewrite Rmin_right by lra. lra.
Qed.

Lemma plurals_relevance : 
  MemoryRetrieval.calculateRelevance Sample.later Sample.plurals
    "authentication bug" = 1.
Proof.
  unfold MemoryRetrieval.calculateRelevance, MemoryRetrieval.jaccardSimilarity.
  cbv zeta. eval_counts.
  change (Sample.later - MemoryUnit.createdAt Sample.plurals)%Z with 0%Z.
  cbn [MemoryUnit.strength Sample.plurals].
  rewrite Rmax_right by lra. rewrite Rmin_left by lra. lra.
Qed.

(** C7 as stated fails: a strong unit whose summary shares no word with
    the query "authentication bug", but contains "bug" and
    "authentication" inside longer words, is ranked above the weak unit
    about the login fix. *)
Lemma strong_unit_with_keyword_substrings_ranks_first :
  let db := Sample.store_of [Sample.login_fix; Sample.plurals] in
  MemoryUnit.summary Sample.login_fix
  = "Fixed authentication bug in login flow"
  /\ MemoryUnit.strength Sample.login_fix = 0.4
  /\ MemoryUnit.strength Sample.plurals = 0.9
  /\ Spec.words (MemoryUnit.summary Sample.plurals)
     ∩ Spec.words "authentication bug" = ∅
  /\ List.map RetrievalIndexItem.id
       (MemoryRetrieval.retrieveIndex Sample.config Sample.later
          Sample.auth_query db)
     = [2%nat; 1%nat].
Proof.
  intros db. split; [done|]. split; [done|]. split; [done|]. split.
  { apply leibniz_equiv, size_empty_iff. vm_compute. reflexivity. }
  unfold Sample.auth_query.
  rewrite (retrieveIndex_two Sample.config Sample.later "authentication bug"
             5 db Sample.login_fix Sample.plurals) by (done || lia).
  rewrite sort_desc_pair.
  assert (Rltb (MemoryUnit.strength Sample.login_fix)
            (MemoryUnit.strength Sample.plurals) = true) as ->.
  { apply Rltb_true. simpl. lra. }
  rewrite rankByTextSimilarity_pair, plurals_relevance, login_fix_relevance.
  assert (Rltb 1 0.98 = false) as ->; [|done].
  apply Rltb_false. lra.
Qed.

Lemma jaccard_disjoint (A B : gset string) :
  A ∩ B = ∅ -> Spec.jaccard A B = 0.
Proof.
  intros E. unfold Spec.jaccard. destruct (decide _); [done|].
  rewrite E, size_empty. simpl. lra.
Qed.

Lemma login_fix_relevance_lower_bound now memory :
  MemoryUnit.summary memory = "Fixed authentication bug in login flow" ->
  MemoryUnit.strength memory = 0.4 ->
  0.98 <= MemoryRetrieval.calculateRelevance now memory "authentication bug".
Proof.
  intros Hsummary Hstrength.
  unfold MemoryRetrieval.calculateRelevance, MemoryRetrieval.jaccardSimilarity.
  cbv zeta. rewrite Hsummary, Hstrength.
  set (t := INR (length (List.filter _ (MemoryUnit.tags memory)))).
  set (r := Rmax 0 _).
  assert (0 <= t) by apply pos_INR.
  assert (0 <= r) by apply Rmax_l.
  eval_counts. apply Rmin_glb; lra.
Qed.

Lemma keywordRatio_nonneg summary query :
  0 <= Spec.keywordRatio summary query.
Proof.
  unfold Spec.keywordRatio. destruct (Spec.keywords query) as [|kw kws];
    [lra|].
  apply Rmult_le_pos; [apply pos_INR|].
  apply Rlt_le, Rinv_0_lt_compat, lt_0_INR. cbn. lia.
Qed.

Lemma recencyBonus_range age :
  0 <= Spec.recencyBonus age /\ (0 <= age -> Spec.recencyBonus age <= 0.05).
Proof.
  unfold Spec.recencyBonus. split; [apply Rmax_l|].
  intros Hage. apply Rmax_lub; lra.
Qed.

(** The relevance of a unit of strength 0.9 whose summary shares no word
    with the query: the Jaccard part is 0, and what is left is the keyword
    ratio, weighted 0.5 · 2.0 · (0.5 + 0.9 · 0.5) = 0.95, and the two
    bonuses. *)
Lemma disjoint_words_relevance now memory query :
  MemoryUnit.strength memory = 0.9 ->
  Spec.words (MemoryUnit.summary memory) ∩ Spec.words query = ∅ ->
  MemoryRetrieval.calculateRelevance now memory query
  = Rmin 1
      (0.95 * Spec.keywordRatio (MemoryUnit.summary memory) query
       + Spec.tagBonus (MemoryUnit.tags memory) query
       + Spec.recencyBonus
           (Spec.ageHours now (MemoryUnit.createdAt memory))).
Proof.
  intros Hs Hwords.
  rewrite calculateRelevance_spec by (rewrite Hs; lra).
  unfold Spec.relevance, Spec.textSimilarity.
  rewrite jaccard_disjoint, Hs by done.
  pose proof (keywordRatio_nonneg (MemoryUnit.summary memory) query) as Hk.
  pose proof (proj1 (recencyBonus_range
                       (Spec.ageHours now (MemoryUnit.createdAt memory))))
    as Hr.
  assert (0 <= Spec.tagBonus (MemoryUnit.tags memory) query) as Ht.
  { unfold Spec.tagBonus. apply Rmult_le_pos; [lra|apply pos_INR]. }
  set (k := Spec.keywordRatio _ _) in *. set (t := Spec.tagBonus _ _) in *.
  set (r := Spec.recencyBonus _) in *.
  rewrite <- Rmin_clamp01 by nra. f_equal. lra.
Qed.

Lemma StronglySorted_lookup_le {A} (rel : A -> A -> Prop) l i j x y :
  StronglySorted rel l -> l !! i = Some x -> l !! j = Some y ->
  (i < j)%nat -> rel x y.
Proof.
  intros Hs. revert i j. induction Hs as [|z l Hs IH Hz]; intros i j Hi Hj Hij.
  - by rewrite lookup_nil in Hi.
  - destruct j as [|j]; [lia|]. cbn in Hj. destruct i as [|i].
    + cbn in Hi. injection Hi as ->. rewrite Forall_forall in Hz.
      apply Hz. by eapply list_elem_of_lookup_2.
    + cbn in Hi. apply (IH i j); [done|done|lia].
Qed.

Lemma rankByTextSimilarity_sorted now memories query :
  StronglySorted
    (fun a b =>
       MemoryRetrieval.calculateRelevance now b query
       <= MemoryRetrieval.calculateRelevance now a query)
    (MemoryRetrieval.rankByTextSimilarity now memories query).
Proof.
  unfold MemoryRetrieval.rankByTextSimilarity.
  apply (StronglySorted_map_fst
           (fun m => MemoryRetrieval.calculateRelevance now m query));
    [|apply sort_desc_sorted].
  rewrite sort_desc_perm. apply Forall_forall. intros p Hp.
  apply list_elem_of_In, in_map_iff in Hp as (m & <- & _). done.
Qed.

Lemma rankByTextSimilarity_perm now memories query :
  MemoryRetrieval.rankByTextSimilarity now memories query ≡ₚ memories.
Proof.
  unfold MemoryRetrieval.rankByTextSimilarity.
  transitivity
    (List.map fst
       (List.map
          (fun mem => (mem, MemoryRetrieval.calculateRelevance now mem query))
          memories)).
  - apply Permutation_map, sort_desc_perm.
  - rewrite map_map. by rewrite map_id.
Qed.

(** In a ranking, a unit of the pool stands before every unit that is
    less relevant. *)
Lemma more_relevant_unit_first now memories query x y j :
  x ∈ memories ->
  MemoryRetrieval.calculateRelevance now y query
  < MemoryRetrieval.calculateRelevance now x query ->
  MemoryRetrieval.rankByTextSimilarity now memories query !! j = Some y ->
  exists i,
    (i < j)%nat
    /\ MemoryRetrieval.rankByTextSimilarity now memories query !! i = Some x.
Proof.
  intros Hx Hlt Hy.
  rewrite <- (rankByTextSimilarity_perm now memories query) in Hx.
  apply list_elem_of_lookup_1 in Hx as [i Hi].
  exists i. split; [|done].
  destruct (Nat.lt_total i j) as [Hij|[->|Hji]]; [done| |].
  - rewrite Hi in Hy. injection Hy as ->. lra.
  - pose proof (StronglySorted_lookup_le _ _ j i y x
                  (rankByTextSimilarity_sorted now memories query)
                  Hy Hi Hji) as Hle.
    cbn beta in Hle. lra.
Qed.

(** The ids of the index of the query of the scenario: those of the first
    five units of the ranked pool of the fifty strongest units. *)
Lemma retrieveIndex_auth_query config now db :
  List.map RetrievalIndexItem.id
    (MemoryRetrieval.retrieveIndex config now Sample.auth_query db)
  = List.map MemoryUnit.id
      (firstn 5
         (MemoryRetrieval.rankByTextSimilarity now
            (MemoryDatabase.getTopMemories 50 db) "authentication bug")).
Proof.
  unfold MemoryRetrieval.retrieveIndex, Sample.auth_query,
    MemoryRetrieval.getFilteredMemories.
  cbn [RetrievalQuery.limit RetrievalQuery.filters RetrievalQuery.query
       default truthy String.eqb Ascii.eqb Bool.eqb negb].
  unfold Datatypes.id. cbv zeta.
  change (Nat.min 200 (Nat.max 50 (5 * 10))) with 50%nat.
  cbn [default]. unfold Datatypes.id. by rewrite map_map.
Qed.

(** C7, as the code has it. A is the weak unit about the login fix
    (strength 0.4), B a strong unit (strength 0.9) whose summary shares no
    word with the query "authentication bug". A's relevance is at least
    0.98, and B's is the minimum of 1 and
    0.95 · keywordRatio + tagBonus + recencyBonus, so that [retrieveIndex]
    with limit 5 ranks A above B whenever that sum is below 0.98: in a
    pool of just the two the index is A, B; in any store with unique ids
    whose pool of the fifty strongest units contains A, B is in the index
    only with A before it. The sum is below 0.98 in particular when B's
    summary contains no keyword of the query as a substring, its tag bonus
    is at most 0.9 (six tags that contain a keyword) and B was not created
    after the time of the query. The narrowing is needed: in a pool of
    just the two, B comes first as soon as its relevance reaches A's. *)
Theorem relevant_weak_unit_outranks_unrelated_strong_unit
    config now db A B :
  MemoryUnit.summary A = "Fixed authentication bug in login flow" ->
  MemoryUnit.strength A = 0.4 ->
  MemoryUnit.strength B = 0.9 ->
  Spec.words (MemoryUnit.summary B) ∩ Spec.words "authentication bug" = ∅ ->
  let query := "authentication bug" in
  let sum :=
    0.95 * Spec.keywordRatio (MemoryUnit.summary B) query
    + Spec.tagBonus (MemoryUnit.tags B) query
    + Spec.recencyBonus (Spec.ageHours now (MemoryUnit.createdAt B)) in
  let ids :=
    List.map RetrievalIndexItem.id
      (MemoryRetrieval.retrieveIndex config now Sample.auth_query db) in
  let only_A_and_B :=
    (MemoryDatabase.rows db = [A; B] \/ MemoryDatabase.rows db = [B; A])
    /\ MemoryDatabase.active_or_pinned A = true
    /\ MemoryDatabase.active_or_pinned B = true in
  0.98 <= MemoryRetrieval.calculateRelevance now A query
  /\ MemoryRetrieval.calculateRelevance now B query = Rmin 1 sum
  /\ (sum < 0.98 -> only_A_and_B -> ids = [MemoryUnit.id A; MemoryUnit.id B])
  /\ (sum < 0.98 ->
      NoDup (List.map MemoryUnit.id (MemoryDatabase.rows db)) ->
      A ∈ MemoryDatabase.getTopMemories 50 db ->
      B ∈ MemoryDatabase.rows db ->
      forall j,
        ids !! j = Some (MemoryUnit.id B) ->
        exists i, (i < j)%nat /\ ids !! i = Some (MemoryUnit.id A))
  /\ (Spec.keywordHits (MemoryUnit.summary B) query = 0%nat ->
      Spec.tagBonus (MemoryUnit.tags B) query <= 0.9 ->
      (MemoryUnit.createdAt B <= now)%Z ->
      sum < 0.98)
  /\ (MemoryRetrieval.calculateRelevance now A query <= Rmin 1 sum ->
      only_A_and_B -> ids = [MemoryUnit.id B; MemoryUnit.id A]).
Proof.
  intros HsumA HsA HsB Hwords query sum ids only_A_and_B.
  pose proof (login_fix_relevance_lower_bound now A HsumA HsA) as HA.
  pose proof (disjoint_words_relevance now B query HsB Hwords) as HB.
  fold sum in HB.
  assert (only_A_and_B ->
          ids
          = List.map MemoryUnit.id
              (if Rltb (MemoryRetrieval.calculateRelevance now B query)
                    (MemoryRetrieval.calculateRelevance now A query)
               then [A; B] else [B; A])) as Hpair.
  { intros (Hrows & HactA & HactB).
    assert (sort_desc MemoryUnit.strength (MemoryDatabase.rows db) = [B; A])
      as Hsorted.
    { destruct Hrows as [-> | ->]; rewrite sort_desc_pair, HsA, HsB.
      - rewrite (proj2 (Rltb_true _ _)); [done|lra].
      - rewrite (proj2 (Rltb_false _ _)); [done|lra]. }
    unfold ids, Sample.auth_query.
    assert (List.map RetrievalIndexItem.id
              (MemoryRetrieval.retrieveIndex config now
                 (RetrievalQuery.mk (Some "authentication bug") None
                    (Some 5%nat)) db)
            = List.map MemoryUnit.id
                (MemoryRetrieval.rankByTextSimilarity now
                   (sort_desc MemoryUnit.strength (MemoryDatabase.rows db))
                   "authentication bug")) as ->.
    { destruct Hrows as [E | E]; rewrite E;
        apply retrieveIndex_two; (done || lia). }
    by rewrite Hsorted, rankByTextSimilarity_pair. }
  split; [exact HA|]. split; [exact HB|]. split; [|split; [|split]].
  - intros Hlow Honly. rewrite (Hpair Honly).
    rewrite (proj2 (Rltb_true _ _)); [done|].
    rewrite HB. eapply Rle_lt_trans; [apply Rmin_r|]. fold query in HA. lra.
  - intros Hlow Hnd HinA HinB j Hj.
    assert (MemoryRetrieval.calculateRelevance now B query
            < MemoryRetrieval.calculateRelevance now A query) as Hlt.
    { rewrite HB. eapply Rle_lt_trans; [apply Rmin_r|]. fold query in HA.
      lra. }
    unfold ids in *. rewrite retrieveIndex_auth_query in *.
    set (pool := MemoryDatabase.getTopMemories 50 db) in *.
    set (ranked := MemoryRetrieval.rankByTextSimilarity now pool _) in *.
    rewrite list_lookup_fmap in Hj.
    destruct (firstn 5 ranked !! j) as [u|] eqn:Hu; [|done].
    cbn in Hj. injection Hj as Hid.
    apply lookup_take_Some in Hu as [Hu Hj5].
    assert (u ∈ MemoryDatabase.rows db) as Hrow.
    { apply list_elem_of_lookup_2 in Hu. unfold ranked in Hu.
      rewrite rankByTextSimilarity_perm in Hu.
      unfold pool, MemoryDatabase.getTopMemories in Hu.
      eapply elem_of_sublist in Hu; [|apply sublist_take].
      rewrite sort_desc_perm in Hu.
      apply list_elem_of_In, filter_In in Hu as [Hu _].
      by apply list_elem_of_In. }
    assert (u = B) as ->.
    { by apply (unique_by_id (MemoryDatabase.rows db)). }
    destruct (more_relevant_unit_first now pool query A B j HinA Hlt Hu)
      as (i & Hij & Hi).
    exists i. split; [done|].
    rewrite list_lookup_fmap, lookup_take_lt by lia.
    change (ranked !! i = Some A) in Hi. by rewrite Hi.
  - intros Hhits Htags Hage. unfold sum, Spec.keywordRatio.
    rewrite Hhits.
    assert (0 <= Spec.ageHours now (MemoryUnit.createdAt B)) as Hnonneg.
    { unfold Spec.ageHours.
      assert (0 <= IZR (now - MemoryUnit.createdAt B)).
      { apply IZR_le. lia. }
      lra. }
    pose proof (proj2 (recencyBonus_range _) Hnonneg) as Hr.
    destruct (Spec.keywords query); cbn [INR]; lra.
  - intros Hle Honly. rewrite (Hpair Honly).
    rewrite (proj2 (Rltb_false _ _)); [done|]. rewrite HB. lra.
Qed.

(** * The theorems at work on the sample data *)

Lemma sample_pair_wf : MemoryDatabase.wf (Sample.store_of [Sample.weak; Sample.strong]).
Proof.
  split; simpl.
  - apply NoDup_cons. split; [|apply NoDup_singleton].
    intros H%list_elem_of_singleton. discriminate.
  - repeat constructor; simpl; lia.
Defined.

(** The consolidation scenario of the design document: of two short-term
    units of strength 0.05 and 0.5, with the strength threshold 0.3, the
    first is marked decayed and the second is promoted. *)
Lemma runConsolidation_scenario :
  let db := Sample.store_of [Sample.weak; Sample.strong] in
  MemoryDatabase.getMemory 1
    (SelectiveMemory.runConsolidation Sample.config db).2
  = Some (MemoryUnit.set_status decayed Sample.weak)
  /\ MemoryDatabase.getMemory 2
       (SelectiveMemory.runConsolidation Sample.config db).2
     = Some (MemoryUnit.set_store ltm Sample.strong).
Proof.
  intros db.
  destruct (SelectiveMemory.runConsolidation Sample.config db)
    as [result db'] eqn:E.
  assert (forall c : MemoryClassification,
             c ∈ PsychMemConfig.autoPromoteToLtm Sample.config ->
             c <> semantic) as Hauto.
  { intros c Hc ->. simpl in Hc.
    repeat (apply elem_of_cons in Hc as [Hc|Hc]; [discriminate|]).
    by apply elem_of_nil in Hc. }
  split.
  - assert (Sample.weak ∈ MemoryDatabase.getMemoriesByStore stm db) as Hin.
    { apply list_elem_of_here. }
    destruct (runConsolidation_promotes_decays_or_keeps Sample.config db
                result db' Sample.weak sample_pair_wf E Hin)
      as (_ & _ & Hdecay & _).
    apply Hdecay.
    + intros [H|[H|H]].
      * by apply Hauto in H.
      * simpl in H. lra.
      * simpl in H. lia.
    + simpl. lra.
  - assert (Sample.strong ∈ MemoryDatabase.getMemoriesByStore stm db) as Hin.
    { apply list_elem_of_further, list_elem_of_here. }
    destruct (runConsolidation_promotes_decays_or_keeps Sample.config db
                result db' Sample.strong sample_pair_wf E Hin)
      as (_ & Hpromote & _).
    apply Hpromote. right. left. simpl. lra.
Defined.

Lemma scores_on_the_login_fix :
  0 <= MemoryRetrieval.calculateRelevance Sample.later Sample.login_fix
         "authentication bug" <= 1.
Proof.
  apply (proj1 (proj2 scores_within_unit_interval)). simpl. lra.
Defined.

Lemma relevance_of_the_login_fix :
  MemoryRetrieval.calculateRelevance Sample.later Sample.login_fix
    "authentication bug"
  = Spec.relevance Sample.later Sample.login_fix "authentication bug".
Proof.
  apply (calculateRelevance_formula Sample.later Sample.login_fix). simpl. lra.
Defined.

(** A failing decay step leaves the store as it was; steps that do not
    throw commit what consolidation did. *)
Lemma process_on_the_sample_store :
  let db := Sample.store_of [Sample.weak; Sample.strong] in
  let c := MemoryDatabase.Conn.mk db None in
  let data := SessionEndData.mk (Some "completed") in
  SessionEndHook.process Sample.end_session Sample.failing_decay
    Sample.consolidation "session-1" data c
  = (inl "disk I/O error", MemoryDatabase.Conn.mk db None)
  /\ SessionEndHook.process Sample.end_session Sample.decay_nothing
       Sample.consolidation "session-1" data c
     = (inr (SessionEndResult.mk
               (length (ConsolidationResult.promoted
                          (SelectiveMemory.runConsolidation Sample.config db).1))
               0 0),
        MemoryDatabase.Conn.mk
          (SelectiveMemory.runConsolidation Sample.config db).2 None).
Proof.
  intros db c data. split.
  - apply (proj1 (process_commits_all_or_nothing Sample.end_session
                    Sample.failing_decay Sample.consolidation
                    "session-1" data c)).
    right. left. eexists _, _. split; reflexivity.
  - apply (proj2 (process_commits_all_or_nothing Sample.end_session
                    Sample.decay_nothing Sample.consolidation
                    "session-1" data c) db (DecayResult.mk 0 0) db).
    + reflexivity.
    + reflexivity.
    + unfold Sample.consolidation, SessionEndHook.total.
      by destruct (SelectiveMemory.runConsolidation Sample.config db).
Defined.

(** The retrieval scenario of the design document: the weak unit about
    the login fix is ranked above a strong unit that has nothing to do
    with the query, and as well above the same unit filed as a bug fix at
    the moment of the query, although its tag "bugfix" contains the
    keyword "bug" and it has the full recency bonus. *)
Lemma retrieveIndex_scenario :
  List.map RetrievalIndexItem.id
    (MemoryRetrieval.retrieveIndex Sample.config Sample.later
       Sample.auth_query (Sample.store_of [Sample.login_fix; Sample.cache]))
  = [1%nat; 2%nat]
  /\ List.map RetrievalIndexItem.id
       (MemoryRetrieval.retrieveIndex Sample.config Sample.later
          Sample.auth_query
          (Sample.store_of [Sample.login_fix; Sample.cache_fix]))
     = [1%nat; 2%nat].
Proof.
  assert (forall s,
             s = "cache key includes locale" ->
             Spec.words s ∩ Spec.words "authentication bug" = ∅) as Hwords.
  { intros s ->. apply leibniz_equiv, size_empty_iff. vm_compute.
    reflexivity. }
  assert (Spec.keywordRatio "cache key includes locale" "authentication bug"
          = 0) as Hratio.
  { unfold Spec.keywordRatio.
    change (Spec.keywordHits "cache key includes locale"
              "authentication bug") with 0%nat.
    change (Spec.keywords "authentication bug")
      with ["authentication"; "bug"].
    cbn [INR length]. lra. }
  split.
  - destruct (relevant_weak_unit_outranks_unrelated_strong_unit
                Sample.config Sample.later
                (Sample.store_of [Sample.login_fix; Sample.cache])
                Sample.login_fix Sample.cache)
      as (_ & _ & Hfirst & _); [reflexivity..|by apply Hwords|].
    apply Hfirst.
    + cbn [MemoryUnit.summary MemoryUnit.tags MemoryUnit.createdAt
           Sample.cache Sample.plain_unit].
      rewrite Hratio. unfold Spec.tagBonus, Spec.recencyBonus, Spec.ageHours.
      cbn [List.filter length INR].
      change (Sample.later - 0)%Z with 720000000%Z.
      rewrite Rmax_left by lra. lra.
    + split; [by left|]. by split.
  - destruct (relevant_weak_unit_outranks_unrelated_strong_unit
                Sample.config Sample.later
                (Sample.store_of [Sample.login_fix; Sample.cache_fix])
                Sample.login_fix Sample.cache_fix)
      as (_ & _ & Hfirst & _); [reflexivity..|by apply Hwords|].
    apply Hfirst.
    + cbn [MemoryUnit.summary MemoryUnit.tags MemoryUnit.createdAt
           Sample.cache_fix].
      rewrite Hratio. unfold Spec.tagBonus, Spec.recencyBonus, Spec.ageHours.
      change (length
                (List.filter
                   (fun tag =>
                      existsb
                        (fun kw => JS.includes (JS.toLowerCase tag) kw)
                        (Spec.keywords "authentication bug"))
                   ["bugfix"])) with 1%nat.
      change (Sample.later - Sample.later)%Z with 0%Z.
      cbn [INR]. rewrite Rmax_right by lra. lra.
    + split; [by left|]. by split.
Defined.

Lemma sample_tabs_wf : MemoryDatabase.wf (Sample.store_of [Sample.tabs]).
Proof.
  split; simpl.
  - apply NoDup_singleton.
  - repeat constructor; simpl; lia.
Defined.


(** Two candidates in one call on an empty store: the second overlaps the
    first in four words of six. Alone on the empty store it would not
    interfere with anything; in the joint call it interferes with the unit
    of the first, and its row is written with the dampened strength. *)
Lemma second_candidate_is_dampened_by_the_first :
  let db := Sample.store_of [] in
  let c1 := Sample.candidate "user prefers tabs over spaces" in
  let c2 := Sample.candidate "user prefers tabs over commas" in
  let earlier := SelectiveMemory.processCandidates Sample.config 0 None [c1] db in
  let both :=
    SelectiveMemory.processCandidates Sample.config 0 None [c1; c2] db in
  let strength :=
    SelectiveMemory.calculateStrength Sample.config
      (SelectiveMemory.calculateFeatures c2 earlier.2) in
  SelectiveMemory.detectInterference c2 db = 0
  /\ SelectiveMemory.detectInterference c2 earlier.2 = 4 / 6 * 0.5
  /\ exists memory,
       both.1 = earlier.1 ++ [memory]
       /\ MemoryDatabase.rows both.2
          = MemoryDatabase.rows earlier.2
            ++ [MemoryUnit.set_strength (strength * (1 - 4 / 6 * 0.5 * 0.2))
                  memory].
Proof.
  intros db c1 c2 earlier both strength.
  assert (SelectiveMemory.detectInterference c2 earlier.2 = 4 / 6 * 0.5)
    as Hinterference.
  { destruct (processCandidate_row Sample.config 0 None c1 db sample_store_wf)
      as (row & Hrows & Hsummary & Hactive).
    assert (MemoryDatabase.rows earlier.2 = [row]) as Hrows1.
    { unfold earlier. cbn [SelectiveMemory.processCandidates].
      destruct (SelectiveMemory.processCandidate Sample.config 0 None c1 db).
      exact Hrows. }
    unfold SelectiveMemory.detectInterference.
    rewrite (getTopMemories_single 49 row) by done.
    cbn [fold_left]. rewrite Hsummary.
    unfold SelectiveMemory.calculateTextSimilarity.
    count_words.
    rewrite (proj2 (Rltb_true 0.3 (4 / 6))) by lra.
    rewrite (proj2 (Rltb_true (4 / 6) 0.8)) by lra.
    cbn [andb]. rewrite Rmax_right by lra. done. }
  split; [reflexivity|]. split; [exact Hinterference|].
  destruct (proj2 (proj2 (proj2 processCandidates_sees_earlier_units))
              Sample.config 0%Z None [c1] c2 db sample_store_wf)
    as (_ & _ & _ & memory & Hcreated & _ & _ & Hdampened).
  exists memory. split; [exact Hcreated|].
  fold earlier in Hdampened. rewrite Hinterference in Hdampened.
  apply Hdampened. lra.
Defined.


(** * Further properties of the code *)

(** ** The two similarities *)

Lemma jaccard_bounds (A B : gset string) : 0 <= Spec.jaccard A B <= 1.
Proof.
  unfold Spec.jaccard. destruct (decide _) as [|Hne]; [lra|].
  assert (size (A ∩ B) <= size (A ∪ B))%nat as Hle.
  { apply subseteq_size. set_solver. }
  assert (size (A ∪ B) <> 0%nat) as Hpos.
  { intros E. apply size_empty_iff in E. apply Hne. by apply leibniz_equiv. }
  assert (0 < INR (size (A ∪ B))) as Hd by (apply lt_0_INR; lia).
  apply le_INR in Hle. pose proof (pos_INR (size (A ∩ B))) as Hn.
  split.
  - apply Rmult_le_pos; [done|]. by apply Rlt_le, Rinv_0_lt_compat.
  - apply (Rmult_le_reg_r (INR (size (A ∪ B)))); [done|].
    unfold Rdiv. rewrite Rmult_assoc, Rinv_l by lra. lra.
Qed.

Lemma jaccard_comm (A B : gset string) : Spec.jaccard A B = Spec.jaccard B A.
Proof.
  unfold Spec.jaccard.
  by rewrite (comm_L (∪) A B), (comm_L (∩) A B).
Qed.

Lemma jaccard_self (A : gset string) : A <> ∅ -> Spec.jaccard A A = 1.
Proof.
  intros Hne. unfold Spec.jaccard.
  rewrite (idemp_L (∪) A), (idemp_L (∩) A).
  destruct (decide _); [done|].
  assert (size A <> 0%nat) as Hpos.
  { intros E. apply size_empty_iff in E. apply Hne. by apply leibniz_equiv. }
  apply Rinv_r. apply not_0_INR. done.
Qed.

Lemma jaccard_one (A B : gset string) : Spec.jaccard A B = 1 -> A = B.
Proof.
  unfold Spec.jaccard. destruct (decide _) as [|Hne]; [lra|]. intros H.
  assert (size (A ∪ B) <> 0%nat) as Hpos.
  { intros E. apply size_empty_iff in E. apply Hne. by apply leibniz_equiv. }
  assert (INR (size (A ∩ B)) = INR (size (A ∪ B))) as E.
  { apply (Rmult_eq_reg_r (/ INR (size (A ∪ B)))).
    - rewrite Rinv_r by (by apply not_0_INR). exact H.
    - apply Rinv_neq_0_compat. by apply not_0_INR. }
  apply INR_eq in E.
  assert (A ∩ B ≡ A ∪ B) as Heq.
  { apply (set_subseteq_size_equiv (A ∩ B) (A ∪ B)); [set_solver|lia]. }
  apply leibniz_equiv. set_solver.
Qed.

Lemma all_words_nonempty a : Spec.all_words a <> ∅.
Proof.
  unfold Spec.all_words, JS.split_ws. intros E.
  pose proof (split_from_nonempty (JS.toLowerCase a) EmptyString false) as Hne.
  destruct (JS.split_from (JS.toLowerCase a) "" false) as [|w l]; [done|].
  assert (w ∈ (list_to_set (w :: l) : gset string)) as Hw by set_solver.
  rewrite E in Hw. set_solver.
Qed.

Lemma calculateTextSimilarity_bounds a b :
  0 <= SelectiveMemory.calculateTextSimilarity a b <= 1.
Proof. rewrite calculateTextSimilarity_all_words. apply jaccard_bounds. Qed.

Lemma calculateTextSimilarity_same_words a b :
  Spec.all_words a = Spec.all_words b ->
  SelectiveMemory.calculateTextSimilarity a b = 1.
Proof.
  intros E. rewrite calculateTextSimilarity_all_words, E.
  apply jaccard_self, all_words_nonempty.
Qed.

(** X1: the similarity of the engine lies between 0 and 1, does not depend
    on the order of the two texts, and is 1 exactly when the two texts
    have the same set of case-folded pieces; a text is fully similar to
    itself, the empty text included. *)
Theorem calculateTextSimilarity_is_a_similarity (a b : string) :
  0 <= SelectiveMemory.calculateTextSimilarity a b <= 1
  /\ SelectiveMemory.calculateTextSimilarity a b
     = SelectiveMemory.calculateTextSimilarity b a
  /\ SelectiveMemory.calculateTextSimilarity a a = 1
  /\ (SelectiveMemory.calculateTextSimilarity a b = 1
      <-> Spec.all_words a = Spec.all_words b).
Proof.
  rewrite !calculateTextSimilarity_all_words.
  split; [apply jaccard_bounds|].
  split; [apply jaccard_comm|].
  split; [apply jaccard_self, all_words_nonempty|].
  split; [apply jaccard_one|].
  intros ->. apply jaccard_self, all_words_nonempty.
Qed.

(** The similarity of the retrieval layer on any two texts, as sets. *)
Lemma jaccardSimilarity_sets a b :
  MemoryRetrieval.jaccardSimilarity a b
  = Spec.jaccard
      (list_to_set (List.filter MemoryRetrieval.longer_than_2 (JS.split_ws a)))
      (list_to_set (List.filter MemoryRetrieval.longer_than_2 (JS.split_ws b))).
Proof.
  unfold MemoryRetrieval.jaccardSimilarity, Spec.jaccard. cbv zeta.
  set (la := List.filter _ (JS.split_ws a)).
  set (lb := List.filter _ (JS.split_ws b)).
  destruct (jaccard_counts la lb) as [-> ->].
  destruct (Nat.eqb_spec (length (JS.new_Set la)) 0) as [Ea|Ea].
  { apply new_Set_empty in Ea. rewrite Ea. cbn [orb].
    destruct (decide _); [done|].
    rewrite intersection_empty_l_L, size_empty. simpl. lra. }
  destruct (Nat.eqb_spec (length (JS.new_Set lb)) 0) as [Eb|Eb].
  { apply new_Set_empty in Eb. rewrite Eb. cbn [orb].
    destruct (decide _); [done|].
    rewrite intersection_empty_r_L, size_empty. simpl. lra. }
  cbn [orb]. destruct (decide _) as [E|]; [|done].
  apply empty_union_L in E as [E _]. apply new_Set_empty in E. done.
Qed.

(** X2: the similarity of the retrieval layer lies between 0 and 1 and
    does not depend on the order of the two texts; a text is fully similar
    to itself when it has a word of more than two code units, and not
    similar to anything, itself included, when it has none. *)
Theorem jaccardSimilarity_is_a_similarity (a b : string) :
  0 <= MemoryRetrieval.jaccardSimilarity a b <= 1
  /\ MemoryRetrieval.jaccardSimilarity a b
     = MemoryRetrieval.jaccardSimilarity b a
  /\ ((exists w, w ∈ JS.split_ws a /\ (2 < String.length w)%nat) ->
      MemoryRetrieval.jaccardSimilarity a a = 1)
  /\ ((forall w, w ∈ JS.split_ws a -> (String.length w <= 2)%nat) ->
      MemoryRetrieval.jaccardSimilarity a b = 0).
Proof.
  rewrite !jaccardSimilarity_sets.
  split; [apply jaccard_bounds|].
  split; [apply jaccard_comm|].
  split.
  - intros (w & Hw & Hlen). apply jaccard_self.
    assert (w ∈ (list_to_set
                   (List.filter MemoryRetrieval.longer_than_2 (JS.split_ws a))
                 : gset string)) as Hin.
    { apply elem_of_list_to_set, list_elem_of_In, filter_In.
      split; [by apply list_elem_of_In|].
      unfold MemoryRetrieval.longer_than_2. by apply Nat.ltb_lt. }
    intros E. rewrite E in Hin. set_solver.
  - intros Hshort. apply jaccard_disjoint.
    assert ((list_to_set
               (List.filter MemoryRetrieval.longer_than_2 (JS.split_ws a))
             : gset string) = ∅) as ->; [|set_solver].
    apply leibniz_equiv, elem_of_equiv_empty. intros w Hw.
    apply elem_of_list_to_set, list_elem_of_In, filter_In in Hw as [Hw Hlen].
    apply list_elem_of_In, Hshort in Hw.
    unfold MemoryRetrieval.longer_than_2 in Hlen.
    apply Nat.ltb_lt in Hlen. lia.
Qed.

(** ** Novelty and interference *)

Lemma fold_Rmax_spec {A} (f : A -> R) (l : list A) (acc : R) :
  let m := fold_left (fun m x => Rmax m (f x)) l acc in
  acc <= m
  /\ (forall x, x ∈ l -> f x <= m)
  /\ (m = acc \/ exists x, x ∈ l /\ m = f x).
Proof.
  revert acc. induction l as [|y l IH]; intros acc; cbn [fold_left].
  - split; [lra|]. split; [|by left]. intros x Hx. by apply elem_of_nil in Hx.
  - destruct (IH (Rmax acc (f y))) as (Hacc & Hall & Hex).
    pose proof (Rmax_l acc (f y)). pose proof (Rmax_r acc (f y)).
    split; [lra|]. split.
    + intros x [->|Hx]%elem_of_cons; [lra|by apply Hall].
    + destruct Hex as [E|(x & Hx & E)].
      * rewrite E. destruct (Rle_dec acc (f y)).
        -- right. exists y. split; [by left|]. by apply Rmax_right.
        -- left. apply Rmax_left. lra.
      * right. exists x. split; [by right|done].
Qed.

(** X3: the novelty of a candidate lies between 0 and 1. It is 1 when the
    store has no active or pinned unit, and otherwise it is 1 minus the
    largest similarity between the candidate and one of the (at most 50)
    strongest units: no unit of that pool is more similar, one of them is
    that similar, and a unit with the same pieces as the candidate makes
    the novelty 0. *)
Theorem calculateNovelty_is_one_minus_largest_similarity
    (candidate : MemoryCandidate.t) (db : MemoryDatabase.t) :
  let novelty := SelectiveMemory.calculateNovelty candidate db in
  let pool := MemoryDatabase.getTopMemories 50 db in
  let similarity mem :=
    SelectiveMemory.calculateTextSimilarity
      (MemoryCandidate.summary candidate) (MemoryUnit.summary mem) in
  0 <= novelty <= 1
  /\ (pool = [] -> novelty = 1)
  /\ (forall mem, mem ∈ pool -> novelty <= 1 - similarity mem)
  /\ (pool <> [] -> exists mem, mem ∈ pool /\ novelty = 1 - similarity mem)
  /\ (forall mem, mem ∈ pool ->
        Spec.all_words (MemoryUnit.summary mem)
        = Spec.all_words (MemoryCandidate.summary candidate) ->
        novelty = 0).
Proof.
  intros novelty pool similarity.
  assert (forall mem, 0 <= similarity mem <= 1) as Hsim.
  { intros mem. apply calculateTextSimilarity_bounds. }
  unfold novelty, SelectiveMemory.calculateNovelty. fold pool.
  destruct (fold_Rmax_spec similarity pool 0) as (H0 & Hall & Hex).
  cbv zeta in H0, Hall, Hex.
  change (fold_left
            (fun maxSimilarity mem =>
               Rmax maxSimilarity
                 (SelectiveMemory.calculateTextSimilarity
                    (MemoryCandidate.summary candidate)
                    (MemoryUnit.summary mem))) pool 0)
    with (fold_left (fun m x => Rmax m (similarity x)) pool 0).
  set (m := fold_left (fun m x => Rmax m (similarity x)) pool 0) in *.
  assert (m <= 1) as H1.
  { destruct Hex as [->|(x & _ & ->)]; [lra|apply Hsim]. }
  destruct pool as [|mem0 pool'] eqn:Epool.
  { cbn [length Nat.eqb]. split; [lra|]. split; [done|].
    split; [intros mem Hmem; by apply elem_of_nil in Hmem|].
    split; [done|]. intros mem Hmem. by apply elem_of_nil in Hmem. }
  cbn [length Nat.eqb].
  split; [lra|]. split; [done|]. split.
  { intros mem Hmem. specialize (Hall mem Hmem). lra. }
  split.
  { intros _. destruct Hex as [E|(x & Hx & E)].
    - exists mem0. split; [by left|].
      assert (similarity mem0 <= m) by (apply Hall; by left).
      specialize (Hsim mem0). lra.
    - exists x. split; [done|]. lra. }
  intros mem Hmem Hsame.
  assert (similarity mem = 1) as E.
  { unfold similarity. by apply calculateTextSimilarity_same_words. }
  specialize (Hall mem Hmem). lra.
Qed.

Lemma fold_guarded_Rmax_spec {A} (c : A -> bool) (v : A -> R)
    (l : list A) (acc : R) :
  let m := fold_left (fun m x => if c x then Rmax m (v x) else m) l acc in
  acc <= m
  /\ (forall x, x ∈ l -> c x = true -> v x <= m)
  /\ (m = acc \/ exists x, x ∈ l /\ c x = true /\ m = v x).
Proof.
  revert acc. induction l as [|y l IH]; intros acc; cbn [fold_left].
  - split; [lra|]. split; [|by left]. intros x Hx. by apply elem_of_nil in Hx.
  - destruct (c y) eqn:Ecy.
    + destruct (IH (Rmax acc (v y))) as (Hacc & Hall & Hex).
      pose proof (Rmax_l acc (v y)). pose proof (Rmax_r acc (v y)).
      split; [lra|]. split.
      * intros x [->|Hx]%elem_of_cons Hc; [lra|by apply Hall].
      * destruct Hex as [E|(x & Hx & Hc & E)].
        -- rewrite E. destruct (Rle_dec acc (v y)).
           ++ right. exists y. split; [by left|]. split; [done|].
              by apply Rmax_right.
           ++ left. apply Rmax_left. lra.
        -- right. exists x. split; [by right|done].
    + destruct (IH acc) as (Hacc & Hall & Hex).
      split; [done|]. split.
      * intros x [->|Hx]%elem_of_cons Hc; [congruence|by apply Hall].
      * destruct Hex as [E|(x & Hx & Hc & E)]; [by left|].
        right. exists x. split; [by right|done].
Qed.

(** X4: the interference of a candidate is 0 exactly when no unit of the
    pool of the (at most 50) strongest units has a similarity to it
    strictly between 0.3 and 0.8; otherwise it is half the largest such
    similarity, so it lies strictly between 0.15 and 0.4, and the factor
    1 − interference · 0.2 that dampens the strength at intake never goes
    below 0.92. *)
Theorem detectInterference_range
    (candidate : MemoryCandidate.t) (db : MemoryDatabase.t) :
  let interference := SelectiveMemory.detectInterference candidate db in
  let pool := MemoryDatabase.getTopMemories 50 db in
  let similarity mem :=
    SelectiveMemory.calculateTextSimilarity
      (MemoryCandidate.summary candidate) (MemoryUnit.summary mem) in
  let conflicting mem := 0.3 < similarity mem < 0.8 in
  (interference = 0 <-> forall mem, mem ∈ pool -> ~ conflicting mem)
  /\ (forall mem, mem ∈ pool -> conflicting mem ->
        similarity mem * 0.5 <= interference)
  /\ (interference <> 0 ->
      0.15 < interference < 0.4
      /\ exists mem,
           mem ∈ pool /\ conflicting mem
           /\ interference = similarity mem * 0.5)
  /\ 0.92 < 1 - interference * 0.2 <= 1.
Proof.
  intros interference pool similarity conflicting.
  set (c := fun mem =>
              Rltb 0.3 (similarity mem) && Rltb (similarity mem) 0.8).
  assert (forall mem, c mem = true <-> conflicting mem) as Hc.
  { intros mem. unfold c, conflicting.
    rewrite andb_true_iff, !Rltb_true. tauto. }
  destruct (fold_guarded_Rmax_spec c (fun mem => similarity mem * 0.5) pool 0)
    as (H0 & Hall & Hex).
  cbv zeta in H0, Hall, Hex.
  change (fold_left
            (fun m x => if c x then Rmax m (similarity x * 0.5) else m) pool 0)
    with interference in H0, Hall, Hex.
  assert (interference = 0
          \/ (0.15 < interference < 0.4
              /\ exists mem,
                   mem ∈ pool /\ conflicting mem
                   /\ interference = similarity mem * 0.5)) as Hrange.
  { destruct Hex as [E|(x & Hx & Hcx & E)]; [by left|].
    right. apply Hc in Hcx as Hconf. split.
    - unfold conflicting in Hconf. lra.
    - by exists x. }
  split; [split|].
  - intros E mem Hmem Hconf.
    apply Hc in Hconf as Hcm. specialize (Hall mem Hmem Hcm).
    unfold conflicting in Hconf. lra.
  - intros Hnone. destruct Hrange as [E|(_ & mem & Hmem & Hconf & _)]; [done|].
    by destruct (Hnone mem Hmem).
  - split.
    { intros mem Hmem Hconf. apply Hall; [done|]. by apply Hc. }
    split.
    { intros Hne. by destruct Hrange. }
    destruct Hrange as [->|[Hr _]]; lra.
Qed.

(** ** What intake adds to the store *)

Lemma processCandidates_fields config now options candidates db :
  Forall2
    (fun candidate memory =>
       MemoryUnit.summary memory = MemoryCandidate.summary candidate
       /\ MemoryUnit.classification memory
          = MemoryCandidate.classification candidate
       /\ MemoryUnit.sourceEventIds memory
          = MemoryCandidate.sourceEventIds candidate
       /\ MemoryUnit.importance memory
          = MemoryCandidate.preliminaryImportance candidate
       /\ MemoryUnit.confidence memory = MemoryCandidate.confidence candidate
       /\ MemoryUnit.utility memory = 0.5
       /\ MemoryUnit.tags memory = SelectiveMemory.extractTags candidate)
    candidates
    (SelectiveMemory.processCandidates config now options candidates db).1.
Proof.
  revert db. induction candidates as [|c cs IH]; intros db; [constructor|].
  cbn [SelectiveMemory.processCandidates].
  assert (let memory :=
            (SelectiveMemory.processCandidate config now options c db).1 in
          MemoryUnit.summary memory = MemoryCandidate.summary c
          /\ MemoryUnit.classification memory = MemoryCandidate.classification c
          /\ MemoryUnit.sourceEventIds memory = MemoryCandidate.sourceEventIds c
          /\ MemoryUnit.importance memory
             = MemoryCandidate.preliminaryImportance c
          /\ MemoryUnit.confidence memory = MemoryCandidate.confidence c
          /\ MemoryUnit.utility memory = 0.5
          /\ MemoryUnit.tags memory = SelectiveMemory.extractTags c) as Hunit.
  { unfold SelectiveMemory.processCandidate, MemoryDatabase.createMemory.
    cbv zeta. by destruct (Rltb 0 _). }
  destruct (SelectiveMemory.processCandidate config now options c db)
    as [m db1].
  specialize (IH db1).
  destruct (SelectiveMemory.processCandidates config now options cs db1)
    as [created db2].
  cbn [fst snd] in *. by constructor.
Qed.

(** X5: on a store with unique ids, one call of [processCandidates]
    returns one unit for each candidate, in order, carrying what the code
    hands to [createMemory]: the candidate's summary, classification,
    source events, preliminary importance and confidence, the utility 0.5
    and the tags of [extractTags]. The store keeps every row it had,
    unchanged and in place, since the dampening write reaches the new
    unit only; it gains one row for each candidate, in order, each the
    returned unit up to its strength (the unit handed back is the one
    [createMemory] returned, from before that write); and its ids are
    unique again. *)
Theorem processCandidates_appends_a_row_per_candidate
    config now options candidates db :
  MemoryDatabase.wf db ->
  let created :=
    (SelectiveMemory.processCandidates config now options candidates db).1 in
  let db' :=
    (SelectiveMemory.processCandidates config now options candidates db).2 in
  Forall2
    (fun candidate memory =>
       MemoryUnit.summary memory = MemoryCandidate.summary candidate
       /\ MemoryUnit.classification memory
          = MemoryCandidate.classification candidate
       /\ MemoryUnit.sourceEventIds memory
          = MemoryCandidate.sourceEventIds candidate
       /\ MemoryUnit.importance memory
          = MemoryCandidate.preliminaryImportance candidate
       /\ MemoryUnit.confidence memory = MemoryCandidate.confidence candidate
       /\ MemoryUnit.utility memory = 0.5
       /\ MemoryUnit.tags memory = SelectiveMemory.extractTags candidate)
    candidates created
  /\ (exists added,
        MemoryDatabase.rows db' = MemoryDatabase.rows db ++ added
        /\ Forall2
             (fun memory row =>
                row = MemoryUnit.set_strength (MemoryUnit.strength row) memory)
             created added)
  /\ MemoryDatabase.wf db'.
Proof.
  intros Hwf created db'.
  destruct (processCandidates_rows config now options candidates db Hwf)
    as (Hwf' & _ & Hadded).
  split; [apply processCandidates_fields|]. by split.
Qed.

(** X6: whatever project scope and session the caller passes, a unit that
    intake creates for a user-level classification (constraint,
    preference, learning, procedural) has no project scope; a unit of
    another classification has the scope of the call, and an empty scope
    or session counts as none. A unit starts in the long-term store
    exactly when its classification is an auto-promote one. *)
Theorem processCandidates_scope_and_store
    config now options candidates db :
  Forall2
    (fun candidate memory =>
       (isUserLevelClassification (MemoryCandidate.classification candidate)
        = true -> MemoryUnit.projectScope memory = None)
       /\ (isUserLevelClassification (MemoryCandidate.classification candidate)
           = false ->
           forall scope,
             MemoryUnit.projectScope memory = Some scope
             <-> options ≫= ProcessOptions.projectScope = Some scope
                 /\ scope <> "")
       /\ (MemoryUnit.store memory = ltm
           <-> MemoryCandidate.classification candidate
               ∈ PsychMemConfig.autoPromoteToLtm config))
    candidates
    (SelectiveMemory.processCandidates config now options candidates db).1.
Proof.
  revert db. induction candidates as [|c cs IH]; intros db; [constructor|].
  cbn [SelectiveMemory.processCandidates].
  pose proof (processCandidate_unit config now options c db) as (Hs & Hp & _).
  destruct (SelectiveMemory.processCandidate config now options c db)
    as [m db1].
  specialize (IH db1).
  destruct (SelectiveMemory.processCandidates config now options cs db1)
    as [created db2].
  cbn [fst snd] in *. constructor; [|done].
  rewrite Hs, Hp. split; [|split].
  - by intros ->.
  - intros -> scope.
    destruct (options ≫= ProcessOptions.projectScope) as [s|]; cbn.
    + destruct (String.eqb_spec s ""); cbn.
      * split; [done|]. intros [[= ->] Hne]. done.
      * split; [intros [= ->]; done|]. by intros [[= ->] _].
    + split; [done|]. by intros [? _].
  - rewrite <- includes_classification_true.
    by destruct (includes_classification _ _).
Qed.

(** ** Tags *)

Lemma extractTags_fold candidate :
  SelectiveMemory.extractTags candidate
  = fold_left JS.add
      (List.map ImportanceSignal.type
         (MemoryCandidate.importanceSignals candidate))
      [classification_name (MemoryCandidate.classification candidate)].
Proof.
  unfold SelectiveMemory.extractTags.
  generalize [classification_name (MemoryCandidate.classification candidate)].
  induction (MemoryCandidate.importanceSignals candidate) as [|sg l IH];
    intros acc; [done|].
  cbn [fold_left List.map]. apply IH.
Qed.

Lemma fold_add_head l x acc :
  exists rest, fold_left JS.add l (x :: acc) = x :: rest.
Proof.
  revert acc. induction l as [|a l IH]; intros acc; cbn [fold_left].
  - by exists acc.
  - unfold JS.add at 2. destruct (JS.has (x :: acc) a); [apply IH|].
    cbn [app]. apply IH.
Qed.

(** X7: the tags of a candidate start with its classification, hold no
    tag twice, and are exactly the classification and the types of its
    importance signals. *)
Theorem extractTags_classification_then_signal_types
    (candidate : MemoryCandidate.t) :
  let tags := SelectiveMemory.extractTags candidate in
  let name := classification_name (MemoryCandidate.classification candidate) in
  (exists rest, tags = name :: rest)
  /\ NoDup tags
  /\ forall tag,
       tag ∈ tags
       <-> tag = name
           \/ tag ∈ List.map ImportanceSignal.type
                      (MemoryCandidate.importanceSignals candidate).
Proof.
  intros tags name. unfold tags. rewrite extractTags_fold. fold name.
  split; [apply fold_add_head|].
  destruct (fold_add_spec
              (List.map ImportanceSignal.type
                 (MemoryCandidate.importanceSignals candidate))
              [name] (NoDup_singleton name)) as [Hnd Hin].
  split; [done|]. intros tag. rewrite Hin, list_elem_of_singleton. tauto.
Qed.

(** ** Consolidation: what it leaves alone, and running it again *)

Lemma runConsolidation_rows config db :
  MemoryDatabase.wf db ->
  MemoryDatabase.rows (SelectiveMemory.runConsolidation config db).2
  = List.map
      (fun u =>
         if bool_decide (MemoryUnit.store u = stm)
         then consolidate_row config u u else u)
      (MemoryDatabase.rows db).
Proof.
  intros [Hnd _]. unfold SelectiveMemory.runConsolidation.
  rewrite fold_consolidate_rows. apply map_ext_in. intros u Hu.
  apply list_elem_of_In in Hu.
  unfold MemoryDatabase.getMemoriesByStore.
  destruct (bool_decide (MemoryUnit.store u = stm)) eqn:Es.
  - apply consolidate_rows_self; [by apply NoDup_ids_filter|].
    apply list_elem_of_In, filter_In. split; [by apply list_elem_of_In|done].
  - apply consolidate_rows_other. intros Hin.
    apply list_elem_of_In, in_map_iff in Hin as (m & Em & Hm).
    apply filter_In in Hm as [Hm Hstm].
    assert (m = u) as ->.
    { apply (unique_by_id (MemoryDatabase.rows db)); try done.
      by apply list_elem_of_In. }
    congruence.
Qed.

Lemma fold_consolidate_meta config l res db :
  MemoryDatabase.nextId
    (fold_left (SelectiveMemory.consolidate config) l (res, db)).2
  = MemoryDatabase.nextId db
  /\ MemoryDatabase.initialStrength
       (fold_left (SelectiveMemory.consolidate config) l (res, db)).2
     = MemoryDatabase.initialStrength db.
Proof.
  revert res db. induction l as [|m l IH]; intros res db; cbn [fold_left];
    [done|].
  unfold SelectiveMemory.consolidate at 2 4.
  destruct (SelectiveMemory.shouldPromoteToLtm config m);
    [|destruct (Rltb _ _)];
    match goal with
    | |- context [fold_left _ l (?r, ?d)] => destruct (IH r d) as [-> ->]
    end; done.
Qed.

Lemma consolidate_row_fields config mem row :
  let row' := consolidate_row config mem row in
  MemoryUnit.id row' = MemoryUnit.id row
  /\ MemoryUnit.classification row' = MemoryUnit.classification row
  /\ MemoryUnit.summary row' = MemoryUnit.summary row
  /\ MemoryUnit.strength row' = MemoryUnit.strength row
  /\ MemoryUnit.frequency row' = MemoryUnit.frequency row
  /\ MemoryUnit.confidence row' = MemoryUnit.confidence row.
Proof.
  unfold consolidate_row. destruct (Nat.eqb _ _); [|done].
  destruct (SelectiveMemory.shouldPromoteToLtm _ _); [done|].
  by destruct (Rltb _ _).
Qed.

Lemma three_way_split {A} (p q : A -> bool) (f : A -> nat) (l : list A) :
  List.map f (List.filter p l)
  ++ List.map f (List.filter (fun x => negb (p x) && q x) l)
  ++ List.map f (List.filter (fun x => negb (p x) && negb (q x)) l)
  ≡ₚ List.map f l.
Proof.
  induction l as [|x l IH]; cbn [List.filter List.map]; [done|].
  destruct (p x); cbn [negb andb List.map app].
  - by rewrite IH.
  - destruct (q x); cbn [negb List.map app].
    + rewrite <- Permutation_middle. by rewrite IH.
    + rewrite app_assoc, <- Permutation_middle, <- app_assoc. by rewrite IH.
Qed.

(** X8: on a store with unique ids, [runConsolidation] deletes and adds no
    row and keeps the order of the table; every unit keeps its id,
    classification, summary, strength, frequency and confidence, and a
    unit outside the short-term store is not changed at all. The three
    lists of the result together hold the id of every short-term unit
    exactly once, and the store still has unique ids and its counter. *)
Theorem runConsolidation_frame config db :
  MemoryDatabase.wf db ->
  let result := (SelectiveMemory.runConsolidation config db).1 in
  let db' := (SelectiveMemory.runConsolidation config db).2 in
  Forall2
    (fun u u' =>
       MemoryUnit.id u' = MemoryUnit.id u
       /\ MemoryUnit.classification u' = MemoryUnit.classification u
       /\ MemoryUnit.summary u' = MemoryUnit.summary u
       /\ MemoryUnit.strength u' = MemoryUnit.strength u
       /\ MemoryUnit.frequency u' = MemoryUnit.frequency u
       /\ MemoryUnit.confidence u' = MemoryUnit.confidence u
       /\ (MemoryUnit.store u <> stm -> u' = u))
    (MemoryDatabase.rows db) (MemoryDatabase.rows db')
  /\ ConsolidationResult.promoted result
     ++ ConsolidationResult.decayed result
     ++ ConsolidationResult.unchanged result
     ≡ₚ List.map MemoryUnit.id (MemoryDatabase.getMemoriesByStore stm db)
  /\ MemoryDatabase.wf db'
  /\ MemoryDatabase.nextId db' = MemoryDatabase.nextId db.
Proof.
  intros Hwf result db'.
  pose proof (runConsolidation_rows config db Hwf) as Hrows. fold db' in Hrows.
  assert (Forall2
            (fun u u' =>
               MemoryUnit.id u' = MemoryUnit.id u
               /\ MemoryUnit.classification u' = MemoryUnit.classification u
               /\ MemoryUnit.summary u' = MemoryUnit.summary u
               /\ MemoryUnit.strength u' = MemoryUnit.strength u
               /\ MemoryUnit.frequency u' = MemoryUnit.frequency u
               /\ MemoryUnit.confidence u' = MemoryUnit.confidence u
               /\ (MemoryUnit.store u <> stm -> u' = u))
            (MemoryDatabase.rows db) (MemoryDatabase.rows db')) as Hall.
  { rewrite Hrows. clear.
    induction (MemoryDatabase.rows db) as [|u l IH]; cbn [List.map];
      constructor; [|done].
    destruct (bool_decide (MemoryUnit.store u = stm)) eqn:Es.
    - apply bool_decide_eq_true in Es.
      pose proof (consolidate_row_fields config u u) as H. cbv zeta in H.
      repeat split; try apply H. done.
    - by repeat split. }
  assert (List.map MemoryUnit.id (MemoryDatabase.rows db')
          = List.map MemoryUnit.id (MemoryDatabase.rows db)) as Hids.
  { clear -Hall. induction Hall as [|u u' l l' (E & _) _ IH]; [done|].
    cbn [List.map]. by rewrite E, IH. }
  destruct (fold_consolidate_meta config
              (MemoryDatabase.getMemoriesByStore stm db)
              (ConsolidationResult.mk [] [] []) db) as [Hnext _].
  change (fold_left _ _ _).2 with db' in Hnext.
  split; [done|]. split.
  - destruct (fold_consolidate_result config
                (MemoryDatabase.getMemoriesByStore stm db)
                (ConsolidationResult.mk [] [] []) db) as (HP & HD & HU).
    change (fold_left _ _ _).1 with result in HP, HD, HU.
    rewrite HP, HD, HU. cbn [ConsolidationResult.promoted
      ConsolidationResult.decayed ConsolidationResult.unchanged app].
    apply three_way_split.
  - split; [|done]. destruct Hwf as [Hnd Hlt]. split.
    + by rewrite Hids.
    + rewrite Hnext. clear -Hall Hlt.
      induction Hall as [|u u' l l' (E & _) _ IH]; [done|].
      apply Forall_cons in Hlt as [Hu Hl].
      apply Forall_cons. split; [lia|by apply IH].
Qed.

Lemma consolidate_row_self config u :
  consolidate_row config u u
  = if SelectiveMemory.shouldPromoteToLtm config u
    then MemoryUnit.set_store ltm u
    else if Rltb (MemoryUnit.strength u) 0.1
    then MemoryUnit.set_status decayed u
    else u.
Proof. unfold consolidate_row. by rewrite Nat.eqb_refl. Qed.

Lemma runConsolidation_wf config db :
  MemoryDatabase.wf db ->
  MemoryDatabase.wf (SelectiveMemory.runConsolidation config db).2.
Proof.
  intros Hwf. pose proof (runConsolidation_rows config db Hwf) as Hrows.
  destruct (fold_consolidate_meta config
              (MemoryDatabase.getMemoriesByStore stm db)
              (ConsolidationResult.mk [] [] []) db) as [Hnext _].
  change (fold_left _ _ _).2
    with (SelectiveMemory.runConsolidation config db).2 in Hnext.
  assert (forall u,
             MemoryUnit.id
               (if bool_decide (MemoryUnit.store u = stm)
                then consolidate_row config u u else u)
             = MemoryUnit.id u) as Hid.
  { intros u. destruct (bool_decide _); [|done]. apply consolidate_row_id. }
  destruct Hwf as [Hnd Hlt]. split.
  - rewrite Hrows, map_map. erewrite map_ext; [exact Hnd|]. apply Hid.
  - rewrite Hrows, Hnext. apply Forall_forall. intros u' Hu'.
    apply list_elem_of_In, in_map_iff in Hu' as (u & <- & Hu).
    rewrite Hid. rewrite Forall_forall in Hlt.
    by apply Hlt, list_elem_of_In.
Qed.

Lemma filter_none {A} (p : A -> bool) (l : list A) :
  (forall x, x ∈ l -> p x = false) -> List.filter p l = [].
Proof.
  induction l as [|x l IH]; intros H; cbn [List.filter]; [done|].
  rewrite (H x) by by left. apply IH. intros y Hy. apply H. by right.
Qed.

(** X9: after [runConsolidation] on a store with unique ids, no unit that
    meets a promotion criterion is left in the short-term store; running
    it once more promotes nothing and leaves the store exactly as the
    first run left it. *)
Theorem runConsolidation_again_promotes_nothing config db :
  MemoryDatabase.wf db ->
  let db1 := (SelectiveMemory.runConsolidation config db).2 in
  (forall u, u ∈ MemoryDatabase.getMemoriesByStore stm db1 ->
             SelectiveMemory.shouldPromoteToLtm config u = false)
  /\ ConsolidationResult.promoted
       (SelectiveMemory.runConsolidation config db1).1 = []
  /\ (SelectiveMemory.runConsolidation config db1).2 = db1.
Proof.
  intros Hwf db1.
  pose proof (runConsolidation_rows config db Hwf) as Hrows. fold db1 in Hrows.
  pose proof (runConsolidation_wf config db Hwf) as Hwf1. fold db1 in Hwf1.
  assert (forall u, u ∈ MemoryDatabase.getMemoriesByStore stm db1 ->
                    SelectiveMemory.shouldPromoteToLtm config u = false)
    as Hnone.
  { intros u1 Hu1. unfold MemoryDatabase.getMemoriesByStore in Hu1.
    apply list_elem_of_In, filter_In in Hu1 as [Hu1 Hstm].
    apply bool_decide_eq_true in Hstm.
    rewrite Hrows in Hu1. apply in_map_iff in Hu1 as (u & <- & _).
    destruct (bool_decide (MemoryUnit.store u = stm)) eqn:Es.
    - rewrite consolidate_row_self in *.
      destruct (SelectiveMemory.shouldPromoteToLtm config u) eqn:Ep;
        [done|].
      by destruct (Rltb (MemoryUnit.strength u) 0.1).
    - apply bool_decide_eq_false in Es. done. }
  split; [done|]. split.
  - destruct (fold_consolidate_result config
                (MemoryDatabase.getMemoriesByStore stm db1)
                (ConsolidationResult.mk [] [] []) db1) as (HP & _).
    change (fold_left _ _ _).1
      with (SelectiveMemory.runConsolidation config db1).1 in HP.
    rewrite HP. cbn [ConsolidationResult.promoted app].
    by rewrite filter_none.
  - pose proof (runConsolidation_rows config db1 Hwf1) as Hrows2.
    destruct (fold_consolidate_meta config
                (MemoryDatabase.getMemoriesByStore stm db1)
                (ConsolidationResult.mk [] [] []) db1) as [Hnext Hinit].
    change (fold_left _ _ _).2
      with (SelectiveMemory.runConsolidation config db1).2 in Hnext, Hinit.
    assert (MemoryDatabase.rows (SelectiveMemory.runConsolidation config db1).2
            = MemoryDatabase.rows db1) as Hsame.
    { rewrite Hrows2. rewrite <- (map_id (MemoryDatabase.rows db1)) at 2.
      apply map_ext_in. intros u Hu.
      destruct (bool_decide (MemoryUnit.store u = stm)) eqn:Es; [|done].
      rewrite consolidate_row_self.
      rewrite (Hnone u).
      2:{ apply list_elem_of_In, filter_In. split; [done|exact Es]. }
      destruct (Rltb (MemoryUnit.strength u) 0.1) eqn:Eweak; [|done].
      (* a weak unit left in the short-term store is already decayed *)
      rewrite Hrows in Hu. apply in_map_iff in Hu as (u0 & <- & _).
      destruct (bool_decide (MemoryUnit.store u0 = stm)) eqn:Es0.
      + rewrite consolidate_row_self in *.
        destruct (SelectiveMemory.shouldPromoteToLtm config u0);
          [apply bool_decide_eq_true in Es; done|].
        destruct (Rltb (MemoryUnit.strength u0) 0.1) eqn:E0; [done|].
        congruence.
      + congruence. }
    destruct (SelectiveMemory.runConsolidation config db1).2, db1.
    cbn in *. congruence.
Qed.

(** ** Reconsolidation: failures and what is written *)

(** X10: [reconsolidate] reports a failure exactly when the id is unknown
    ("Memory not found") or the unit is pinned; it then reports no update
    and leaves the store as it is. *)
Theorem reconsolidate_fails_for_unknown_or_pinned
    (memoryId : nat) (newEvidence : Evidence.t) (db : MemoryDatabase.t) :
  let result := (SelectiveMemory.reconsolidate memoryId newEvidence db).1 in
  let db' := (SelectiveMemory.reconsolidate memoryId newEvidence db).2 in
  (MemoryDatabase.getMemory memoryId db = None ->
   ReconsolidationResult.reason result = Some "Memory not found")
  /\ (ReconsolidationResult.success result = false
      <-> MemoryDatabase.getMemory memoryId db = None
          \/ exists memory,
               MemoryDatabase.getMemory memoryId db = Some memory
               /\ MemoryUnit.status memory = pinned)
  /\ (ReconsolidationResult.success result = false ->
      db' = db
      /\ ReconsolidationResult.updated result = None
      /\ ReconsolidationResult.newConfidence result = None).
Proof.
  unfold SelectiveMemory.reconsolidate.
  destruct (MemoryDatabase.getMemory memoryId db) as [memory|] eqn:Eget.
  - destruct (bool_decide (MemoryUnit.status memory = pinned)) eqn:Epin.
    + apply bool_decide_eq_true in Epin. cbn.
      split; [done|]. split; [|done].
      split; [|done]. intros _. right. by exists memory.
    + apply bool_decide_eq_false in Epin.
      destruct (Rltb _ 0.3); [|destruct (Rltb 0.7 _)]; cbn;
        (split; [done|]); (split; [|done]);
        (split; [done|]); intros [?|(m & [= <-] & ?)]; done.
  - cbn. split; [done|]. split; [|done]. split; [|done]. by left.
Qed.

Lemma incrementFrequency_rows id db :
  Forall2
    (fun u u' =>
       u' = u
       \/ MemoryUnit.id u = id
          /\ u' = MemoryUnit.set_frequency (S (MemoryUnit.frequency u)) u)
    (MemoryDatabase.rows db)
    (MemoryDatabase.rows (MemoryDatabase.incrementFrequency id db)).
Proof.
  unfold MemoryDatabase.incrementFrequency, MemoryDatabase.update. cbn.
  induction (MemoryDatabase.rows db) as [|u l IH]; cbn [List.map];
    constructor; [|done].
  destruct (Nat.eqb_spec (MemoryUnit.id u) id); [by right|by left].
Qed.

Lemma Forall2_same {A} (P : A -> A -> Prop) (l : list A) :
  (forall x, P x x) -> Forall2 P l l.
Proof. intros H. induction l; by constructor. Qed.

(** X11: the only thing [reconsolidate] ever writes is the frequency of
    the target: every row keeps its place and all its other fields, the
    confidence and the summary among them, also when the result reports a
    new confidence. The frequency of the rows with the given id goes up
    by one exactly when the result says reinforced, which is when the
    unit is known and not pinned and the similarity of the evidence is
    above 0.7; the confidence reported then is at most 1. A similarity
    from 0.3 to 0.7, both included, gives an unchanged store and a result
    without update. *)
Theorem reconsolidate_writes_only_the_frequency
    (memoryId : nat) (newEvidence : Evidence.t) (db : MemoryDatabase.t) :
  let result := (SelectiveMemory.reconsolidate memoryId newEvidence db).1 in
  let db' := (SelectiveMemory.reconsolidate memoryId newEvidence db).2 in
  let reinforced := ReconsolidationResult.reinforced result = Some true in
  Forall2
    (fun u u' =>
       u' = u
       \/ reinforced /\ MemoryUnit.id u = memoryId
          /\ u' = MemoryUnit.set_frequency (S (MemoryUnit.frequency u)) u)
    (MemoryDatabase.rows db) (MemoryDatabase.rows db')
  /\ (reinforced
      <-> exists memory,
            MemoryDatabase.getMemory memoryId db = Some memory
            /\ MemoryUnit.status memory <> pinned
            /\ 0.7 < SelectiveMemory.calculateTextSimilarity
                       (Evidence.content newEvidence)
                       (MemoryUnit.summary memory))
  /\ (reinforced ->
      db' = MemoryDatabase.incrementFrequency memoryId db
      /\ exists c, ReconsolidationResult.newConfidence result = Some c
                   /\ c <= 1)
  /\ (~ reinforced -> db' = db)
  /\ (forall memory,
        MemoryDatabase.getMemory memoryId db = Some memory ->
        MemoryUnit.status memory <> pinned ->
        0.3 <= SelectiveMemory.calculateTextSimilarity
                 (Evidence.content newEvidence) (MemoryUnit.summary memory)
            <= 0.7 ->
        ReconsolidationResult.updated result = Some false /\ db' = db).
Proof.
  unfold SelectiveMemory.reconsolidate.
  destruct (MemoryDatabase.getMemory memoryId db) as [memory|] eqn:Eget.
  2:{ cbn. split; [by apply Forall2_same; left|].
      split; [split; [done|by intros (? & ? & _)]|]. by repeat split. }
  destruct (bool_decide (MemoryUnit.status memory = pinned)) eqn:Epin.
  { apply bool_decide_eq_true in Epin. cbn.
    split; [by apply Forall2_same; left|].
    split; [split; [done|by intros (? & [= <-] & ? & _)]|].
    split; [done|]. split; [done|]. intros ? [= <-] ?. done. }
  apply bool_decide_eq_false in Epin.
  set (similarity := SelectiveMemory.calculateTextSimilarity _ _).
  destruct (Rltb similarity 0.3) eqn:Elow.
  { apply Rltb_true in Elow. cbn.
    split; [by apply Forall2_same; left|].
    split; [split; [done|]|].
    { intros (? & [= <-] & _ & H). fold similarity in H. lra. }
    split; [done|]. split; [done|].
    intros ? [= <-] _ H. fold similarity in H. lra. }
  apply Rltb_false in Elow.
  destruct (Rltb 0.7 similarity) eqn:Ehigh.
  - apply Rltb_true in Ehigh. cbn.
    split.
    { eapply Forall2_impl; [apply incrementFrequency_rows|].
      cbn. intros u u' [->|[E ->]]; [by left|right; done]. }
    split; [split; [intros _; by exists memory|done]|].
    split.
    { intros _. split; [done|]. eexists. split; [done|]. apply Rmin_l. }
    split; [done|].
    intros ? [= <-] _ H. fold similarity in H. lra.
  - apply Rltb_false in Ehigh. cbn.
    split; [by apply Forall2_same; left|].
    split; [split; [done|]|].
    { intros (? & [= <-] & _ & H). fold similarity in H. lra. }
    by repeat split.
Qed.

(** ** Strength: monotone and saturating *)

Lemma ln_monotone x y : 0 < x -> x <= y -> ln x <= ln y.
Proof.
  intros Hx [Hlt| ->]; [|lra]. apply Rlt_le. by apply ln_increasing.
Qed.

Lemma ln_10_pos : 0 < ln 10.
Proof. rewrite <- ln_1. apply ln_increasing; lra. Qed.

Lemma clamp_monotone x y : x <= y -> Rmax 0 (Rmin 1 x) <= Rmax 0 (Rmin 1 y).
Proof.
  intros H. apply Rle_max_compat_l. by apply Rle_min_compat_l.
Qed.

Lemma normalizedFrequency_monotone a b :
  0 <= a -> a <= b ->
  Rmin 1 (ln (a + 1) / ln 10) <= Rmin 1 (ln (b + 1) / ln 10).
Proof.
  intros Ha Hab. apply Rle_min_compat_l.
  apply Rmult_le_compat_r.
  - apply Rlt_le, Rinv_0_lt_compat, ln_10_pos.
  - apply ln_monotone; lra.
Qed.

Lemma recencyFactor_antitone a b :
  a <= b -> 1 - Rmin 1 (b / 168) <= 1 - Rmin 1 (a / 168).
Proof.
  intros Hab.
  assert (Rmin 1 (a / 168) <= Rmin 1 (b / 168)).
  { apply Rle_min_compat_l. lra. }
  lra.
Qed.

(** X12: with the weights signed as the configuration means them (none of
    the weights negative but the one of interference, which is not
    positive), the strength never goes down when a unit is more recent,
    more frequent, more important, more useful, more novel, held with
    more confidence, or less interfered with. *)
Theorem calculateStrength_monotone
    (config : PsychMemConfig.t) (f g : MemoryFeatureVector.t) :
  let w := PsychMemConfig.scoringWeights config in
  0 <= ScoringWeights.recency w -> 0 <= ScoringWeights.frequency w ->
  0 <= ScoringWeights.importance w -> 0 <= ScoringWeights.utility w ->
  0 <= ScoringWeights.novelty w -> 0 <= ScoringWeights.confidence w ->
  ScoringWeights.interference w <= 0 ->
  MemoryFeatureVector.recency g <= MemoryFeatureVector.recency f ->
  0 <= MemoryFeatureVector.frequency f <= MemoryFeatureVector.frequency g ->
  MemoryFeatureVector.importance f <= MemoryFeatureVector.importance g ->
  MemoryFeatureVector.utility f <= MemoryFeatureVector.utility g ->
  MemoryFeatureVector.novelty f <= MemoryFeatureVector.novelty g ->
  MemoryFeatureVector.confidence f <= MemoryFeatureVector.confidence g ->
  MemoryFeatureVector.interference g <= MemoryFeatureVector.interference f ->
  SelectiveMemory.calculateStrength config f
  <= SelectiveMemory.calculateStrength config g.
Proof.
  intros w Hwr Hwf Hwi Hwu Hwn Hwc Hwx Hr [Hf0 Hf] Hi Hu Hn Hc Hx.
  unfold SelectiveMemory.calculateStrength. fold w. cbv zeta.
  apply clamp_monotone.
  pose proof (normalizedFrequency_monotone _ _ Hf0 Hf) as Hnf.
  pose proof (recencyFactor_antitone _ _ Hr) as Hrf.
  set (nf := Rmin 1 (ln (MemoryFeatureVector.frequency f + 1) / ln 10)) in *.
  set (ng := Rmin 1 (ln (MemoryFeatureVector.frequency g + 1) / ln 10)) in *.
  set (rf := 1 - Rmin 1 (MemoryFeatureVector.recency f / 168)) in *.
  set (rg := 1 - Rmin 1 (MemoryFeatureVector.recency g / 168)) in *.
  nra.
Qed.

(** X13: the strength saturates: it is the same for every age of a week
    (168 hours) or more, and the same for every frequency of 9 or more,
    all other features being equal. *)
Theorem calculateStrength_saturates
    (config : PsychMemConfig.t)
    (recency recency' frequency frequency' : R)
    (importance utility novelty confidence interference : R) :
  (168 <= recency -> 168 <= recency' ->
   SelectiveMemory.calculateStrength config
     (MemoryFeatureVector.mk recency frequency importance utility novelty
        confidence interference)
   = SelectiveMemory.calculateStrength config
       (MemoryFeatureVector.mk recency' frequency importance utility novelty
          confidence interference))
  /\ (9 <= frequency -> 9 <= frequency' ->
      SelectiveMemory.calculateStrength config
        (MemoryFeatureVector.mk recency frequency importance utility novelty
           confidence interference)
      = SelectiveMemory.calculateStrength config
          (MemoryFeatureVector.mk recency frequency' importance utility
             novelty confidence interference)).
Proof.
  assert (forall x, 9 <= x -> Rmin 1 (ln (x + 1) / ln 10) = 1) as Hsat.
  { intros x Hx. apply Rmin_left.
    pose proof ln_10_pos as H10.
    assert (ln 10 <= ln (x + 1)) by (apply ln_monotone; lra).
    apply (Rmult_le_reg_r (ln 10)); [done|].
    unfold Rdiv. rewrite Rmult_assoc, Rinv_l by lra. lra. }
  split.
  - intros H H'. unfold SelectiveMemory.calculateStrength. cbn.
    rewrite (Rmin_left 1 (recency / 168)), (Rmin_left 1 (recency' / 168))
      by lra. done.
  - intros H H'. unfold SelectiveMemory.calculateStrength. cbn.
    by rewrite !Hsat.
Qed.

(** ** Utility feedback *)




(** ** Ranking: a stable descending sort *)

(** X15: ranking by text relevance keeps exactly the given units, each as
    often as it was given, and puts them in order of relevance, the most
    relevant first; units that are already in that order, ties included,
    keep their places. *)
Theorem rankByTextSimilarity_sorts (now : Z) (memories : list MemoryUnit.t)
    (query : string) :
  let relevance m := MemoryRetrieval.calculateRelevance now m query in
  let ranked := MemoryRetrieval.rankByTextSimilarity now memories query in
  ranked ≡ₚ memories
  /\ StronglySorted (fun a b => relevance b <= relevance a) ranked
  /\ (StronglySorted (fun a b => relevance b <= relevance a) memories ->
      ranked = memories).
Proof.
  intros relevance ranked. unfold ranked, MemoryRetrieval.rankByTextSimilarity.
  set (scored := List.map (fun mem => (mem, relevance mem)) memories).
  change (List.map _ memories) with scored.
  assert (List.map fst scored = memories) as Hfst.
  { unfold scored. rewrite map_map. apply map_id. }
  assert (Forall (fun p => p.2 = relevance p.1) scored) as Hscored.
  { unfold scored. apply Forall_forall. intros p Hp.
    apply list_elem_of_In, in_map_iff in Hp as (m & <- & _). done. }
  split; [|split].
  - transitivity (List.map fst scored); [|by rewrite Hfst].
    apply Permutation_map, sort_desc_perm.
  - apply StronglySorted_map_fst; [|apply sort_desc_sorted].
    by rewrite sort_desc_perm.
  - intros Hsorted. rewrite sort_desc_of_sorted; [done|].
    unfold scored. clear -Hsorted.
    induction Hsorted as [|m l Hs IH Hm]; cbn [List.map]; constructor;
      [done|].
    clear -Hm. induction Hm as [|m' l H _ IH]; cbn [List.map];
      by constructor.
Qed.

(** ** The index: which units, how many, in which order *)

Lemma getTopMemories_pool limit db :
  MemoryDatabase.getTopMemories limit db
  ⊆+ List.filter MemoryDatabase.active_or_pinned (MemoryDatabase.rows db)
  /\ (length (MemoryDatabase.getTopMemories limit db) <= limit)%nat
  /\ StronglySorted
       (fun a b => MemoryUnit.strength b <= MemoryUnit.strength a)
       (MemoryDatabase.getTopMemories limit db).
Proof.
  unfold MemoryDatabase.getTopMemories. split; [|split].
  - etransitivity; [apply sublist_submseteq, sublist_take|].
    apply Permutation_submseteq, sort_desc_perm.
  - rewrite length_take. lia.
  - eapply StronglySorted_sublist; [apply sublist_take|].
    apply sort_desc_sorted.
Qed.

Lemma getFilteredMemories_sublist filters limit db :
  MemoryRetrieval.getFilteredMemories filters (Some limit) db
  `sublist_of` MemoryDatabase.getTopMemories limit db.
Proof.
  unfold MemoryRetrieval.getFilteredMemories.
  destruct filters as [filters|]; [|done]. cbn [default from_option].
  unfold Datatypes.id.
  repeat match goal with
    | |- context [match ?x with _ => _ end] =>
        destruct x; try (etransitivity; [apply filter_sublist|])
    end; done.
Qed.

(** X16: the index [retrieveIndex] returns is made of units of the store
    that are active or pinned, each taken at most as often as it is
    stored; it has at most [limit] items, and never more than 200,
    whatever the limit. *)
Theorem retrieveIndex_selects_stored_units
    (config : PsychMemConfig.t) (now : Z) (query : RetrievalQuery.t)
    (db : MemoryDatabase.t) :
  let limit :=
    default (PsychMemConfig.defaultRetrievalLimit config)
      (RetrievalQuery.limit query) in
  exists chosen,
    MemoryRetrieval.retrieveIndex config now query db
    = List.map
        (fun mem =>
           MemoryRetrieval.toIndexItem now mem (RetrievalQuery.query query))
        chosen
    /\ chosen
       ⊆+ List.filter MemoryDatabase.active_or_pinned (MemoryDatabase.rows db)
    /\ (length chosen <= limit)%nat
    /\ (length chosen <= 200)%nat.
Proof.
  intros limit. unfold MemoryRetrieval.retrieveIndex. fold limit.
  set (poolSize := Nat.min 200 (Nat.max 50 (limit * 10))).
  set (filtered := MemoryRetrieval.getFilteredMemories _ _ db).
  pose proof (getFilteredMemories_sublist (RetrievalQuery.filters query)
                poolSize db) as Hsub. fold filtered in Hsub.
  destruct (getTopMemories_pool poolSize db) as (Hpool & Hlen & _).
  set (memories :=
         match RetrievalQuery.query query with
         | Some q =>
             if truthy (RetrievalQuery.query query)
             then MemoryRetrieval.rankByTextSimilarity now filtered q
             else filtered
         | None => filtered
         end).
  assert (memories ≡ₚ filtered) as Hperm.
  { unfold memories. destruct (RetrievalQuery.query query) as [q|]; [|done].
    destruct (truthy _); [|done].
    unfold MemoryRetrieval.rankByTextSimilarity.
    transitivity
      (List.map fst
         (List.map
            (fun mem => (mem, MemoryRetrieval.calculateRelevance now mem q))
            filtered)).
    - apply Permutation_map, sort_desc_perm.
    - rewrite map_map. by rewrite map_id. }
  exists (firstn limit memories). split; [done|].
  assert (firstn limit memories ⊆+ MemoryDatabase.getTopMemories poolSize db)
    as Htop.
  { etransitivity; [apply sublist_submseteq, sublist_take|].
    rewrite Hperm. by apply sublist_submseteq. }
  split; [by etransitivity|]. split.
  - rewrite length_take. lia.
  - apply submseteq_length in Htop.
    assert (poolSize <= 200)%nat by (unfold poolSize; lia). lia.
Qed.

Lemma StronglySorted_map_strength now query (l : list MemoryUnit.t) :
  StronglySorted (fun a b => MemoryUnit.strength b <= MemoryUnit.strength a) l ->
  StronglySorted
    (fun a b => RetrievalIndexItem.strength b <= RetrievalIndexItem.strength a)
    (List.map (fun mem => MemoryRetrieval.toIndexItem now mem query) l).
Proof.
  induction 1 as [|m l Hs IH Hm]; cbn [List.map]; constructor; [done|].
  clear -Hm. induction Hm as [|m' l H _ IH]; cbn [List.map]; by constructor.
Qed.

(** X17: without a text (no query, or the empty string) the index lists
    the units by raw strength, the strongest first, and the relevance
    score of each item is its strength. *)
Theorem retrieveIndex_without_text_orders_by_strength
    (config : PsychMemConfig.t) (now : Z) (query : RetrievalQuery.t)
    (db : MemoryDatabase.t) :
  truthy (RetrievalQuery.query query) = false ->
  let index := MemoryRetrieval.retrieveIndex config now query db in
  StronglySorted
    (fun a b => RetrievalIndexItem.strength b <= RetrievalIndexItem.strength a)
    index
  /\ Forall
       (fun item =>
          RetrievalIndexItem.relevanceScore item
          = RetrievalIndexItem.strength item)
       index.
Proof.
  intros Hq index. unfold index, MemoryRetrieval.retrieveIndex.
  set (limit := default _ _).
  set (poolSize := Nat.min 200 (Nat.max 50 (limit * 10))).
  set (filtered := MemoryRetrieval.getFilteredMemories _ _ db).
  assert (match RetrievalQuery.query query with
          | Some q =>
              if truthy (RetrievalQuery.query query)
              then MemoryRetrieval.rankByTextSimilarity now filtered q
              else filtered
          | None => filtered
          end = filtered) as ->.
  { rewrite Hq. by destruct (RetrievalQuery.query query). }
  split.
  - apply StronglySorted_map_strength.
    eapply StronglySorted_sublist; [apply sublist_take|].
    eapply StronglySorted_sublist; [apply getFilteredMemories_sublist|].
    apply getTopMemories_pool.
  - apply Forall_forall. intros item Hitem.
    apply list_elem_of_In, in_map_iff in Hitem as (m & <- & _).
    unfold MemoryRetrieval.toIndexItem. cbn. rewrite Hq.
    by destruct (RetrievalQuery.query query).
Qed.

Lemma elem_of_List_filter {A} (p : A -> bool) (l : list A) x :
  x ∈ List.filter p l <-> x ∈ l /\ p x = true.
Proof. by rewrite !list_elem_of_In, filter_In. Qed.

(** X18: with filters, every unit [getFilteredMemories] returns is one of
    the [limit] strongest active or pinned units (100 without a limit) and
    passes every filter that is set: it is in the given store, has one of
    the given classifications, has at least the given strength, carries
    one of the given tags, and was created at or after the given time. The
    filters are applied to the pool after it was cut to its size, and an
    empty list of classifications or of tags filters nothing. *)
Theorem getFilteredMemories_applies_every_filter
    (filters : RetrievalFilters.t) (limit : option nat)
    (db : MemoryDatabase.t) :
  (forall m,
      m ∈ MemoryRetrieval.getFilteredMemories (Some filters) limit db ->
      m ∈ MemoryDatabase.getTopMemories (default 100%nat limit) db
      /\ (forall s, RetrievalFilters.store filters = Some s ->
                    MemoryUnit.store m = s)
      /\ (forall c cs,
             RetrievalFilters.classifications filters = Some (c :: cs) ->
             MemoryUnit.classification m ∈ c :: cs)
      /\ (forall x, RetrievalFilters.minStrength filters = Some x ->
                    x <= MemoryUnit.strength m)
      /\ (forall t ts,
             RetrievalFilters.tags filters = Some (t :: ts) ->
             exists tag, tag ∈ t :: ts /\ tag ∈ MemoryUnit.tags m)
      /\ (forall z, RetrievalFilters.since filters = Some z ->
                    (z <= MemoryUnit.createdAt m)%Z))
  /\ (RetrievalFilters.classifications filters = Some [] ->
      RetrievalFilters.tags filters = Some [] ->
      MemoryRetrieval.getFilteredMemories (Some filters) limit db
      = MemoryRetrieval.getFilteredMemories
          (Some (RetrievalFilters.mk (RetrievalFilters.store filters) None
                   (RetrievalFilters.minStrength filters) None
                   (RetrievalFilters.since filters)))
          limit db).
Proof.
  destruct filters as [st cls ms tg sn]. split.
  - intros m Hm. unfold MemoryRetrieval.getFilteredMemories in Hm.
    cbn [RetrievalFilters.store RetrievalFilters.classifications
         RetrievalFilters.minStrength RetrievalFilters.tags
         RetrievalFilters.since] in *.
    destruct sn as [z|];
      [apply elem_of_List_filter in Hm as [Hm Hsince];
       apply Z.leb_le in Hsince|].
    all: destruct tg as [[|t ts]|];
      try (apply elem_of_List_filter in Hm as [Hm Htags];
           apply existsb_exists in Htags as (tag & Htag & Hhas);
           apply list_elem_of_In in Htag; apply has_elem_of in Hhas).
    all: destruct ms as [x|];
      try (apply elem_of_List_filter in Hm as [Hm Hmin];
           apply Rleb_true in Hmin).
    all: destruct cls as [[|c cs]|];
      try (apply elem_of_List_filter in Hm as [Hm Hcls];
           apply includes_classification_true in Hcls).
    all: destruct st as [s|];
      try (apply elem_of_List_filter in Hm as [Hm Hst];
           apply bool_decide_eq_true in Hst).
    all: split; [exact Hm|].
    all: repeat split; intros; simplify_eq; eauto.
  - cbn. by intros -> ->.
Qed.

(** X19: for a query without a keyword (no word of more than two code
    units), the relevance of every unit is its recency bonus alone,
    capped at 1: the summary, the tags and the strength of the unit play
    no part. *)
Theorem calculateRelevance_without_keywords
    (now : Z) (memory : MemoryUnit.t) (query : string) :
  (forall w, w ∈ JS.split_ws (JS.toLowerCase query) ->
             (String.length w <= 2)%nat) ->
  MemoryRetrieval.calculateRelevance now memory query
  = Rmin 1
      (Rmax 0
         (0.05
          - IZR (now - MemoryUnit.createdAt memory) / (1000 * 60 * 60)
            / 2000)).
Proof.
  intros Hshort.
  assert (List.filter MemoryRetrieval.longer_than_2
            (JS.split_ws (JS.toLowerCase query)) = []) as Hkw.
  { apply filter_none. intros w Hw. apply Hshort in Hw.
    unfold MemoryRetrieval.longer_than_2. apply Nat.ltb_ge. lia. }
  unfold MemoryRetrieval.calculateRelevance, MemoryRetrieval.jaccardSimilarity.
  cbv zeta. rewrite !Hkw.
  cbn [JS.new_Set fold_left length Nat.eqb Nat.ltb Nat.leb existsb].
  rewrite orb_true_r.
  rewrite (filter_none (fun _ => false)) by done.
  cbn [length INR]. f_equal. lra.
Qed.

(** ** Details on demand *)

Lemma getMemory_incrementFrequency id j db :
  MemoryDatabase.getMemory id (MemoryDatabase.incrementFrequency j db)
  = (fun u =>
       if Nat.eqb (MemoryUnit.id u) j
       then MemoryUnit.set_frequency (S (MemoryUnit.frequency u)) u else u)
    <$> MemoryDatabase.getMemory id db.
Proof.
  unfold MemoryDatabase.getMemory, MemoryDatabase.incrementFrequency,
    MemoryDatabase.update. cbn.
  apply find_map_id_preserving. intros u. by destruct (Nat.eqb _ _).
Qed.

Lemma getMemory_None_rows id db :
  MemoryDatabase.getMemory id db = None ->
  Forall (fun u => MemoryUnit.id u <> id) (MemoryDatabase.rows db).
Proof.
  unfold MemoryDatabase.getMemory. intros H. apply Forall_forall.
  intros u Hu E. apply list_elem_of_In in Hu.
  apply (find_none _ _ H) in Hu. apply Nat.eqb_neq in Hu. done.
Qed.

Lemma bump_frequency_zero u :
  MemoryUnit.set_frequency (MemoryUnit.frequency u + 0) u = u.
Proof. destruct u. unfold MemoryUnit.set_frequency. cbn. f_equal. lia. Qed.

Lemma fold_retrieveDetail sessionId ids details db log :
  let out :=
    fold_left (MemoryRetrieval.retrieveDetail sessionId) ids
      (details, (db, log)) in
  List.map (fun d => MemoryUnit.id (RetrievalDetail.memory d)) out.1
  = List.map (fun d => MemoryUnit.id (RetrievalDetail.memory d)) details
    ++ List.filter
         (fun id => bool_decide (is_Some (MemoryDatabase.getMemory id db)))
         ids
  /\ MemoryDatabase.rows out.2.1
     = List.map
         (fun u =>
            MemoryUnit.set_frequency
              (MemoryUnit.frequency u
               + length (List.filter (Nat.eqb (MemoryUnit.id u)) ids))
              u)
         (MemoryDatabase.rows db)
  /\ (truthy sessionId = false -> out.2.2 = log)
  /\ (truthy sessionId = true ->
      length out.2.2 + length details = length log + length out.1)%nat
  /\ (Forall
        (fun d =>
           RetrievalDetail.relevanceScore d
           = MemoryUnit.strength (RetrievalDetail.memory d))
        details ->
      Forall
        (fun d =>
           RetrievalDetail.relevanceScore d
           = MemoryUnit.strength (RetrievalDetail.memory d))
        out.1).
Proof.
  revert details db log.
  induction ids as [|id ids IH]; intros details db log; cbn [fold_left].
  - cbn. rewrite app_nil_r. repeat split; try done.
    rewrite <- (map_id (MemoryDatabase.rows db)) at 1.
    apply map_ext. intros u. by rewrite bump_frequency_zero.
  - unfold MemoryRetrieval.retrieveDetail at 2 4 6 8 10 12.
    destruct (MemoryDatabase.getMemory id db) as [memory|] eqn:Eget.
    + set (log1 :=
             match sessionId with
             | Some session =>
                 if truthy sessionId
                 then log ++ [MemoryRetrieval.detail_log_entry session memory]
                 else log
             | None => log
             end).
      set (detail := RetrievalDetail.mk memory _ _).
      destruct (IH (details ++ [detail])
                  (MemoryDatabase.incrementFrequency id db) log1)
        as (Hids & Hrows & Hlog0 & Hlog1 & Hrel).
      cbv zeta in Hids, Hrows, Hlog0, Hlog1, Hrel.
      set (out := fold_left _ ids _) in *.
      split; [|split; [|split; [|split]]].
      * rewrite Hids, map_app. cbn [List.map List.filter].
        rewrite Eget, bool_decide_eq_true_2 by done.
        rewrite <- app_assoc. cbn [app]. do 2 f_equal.
        { unfold MemoryDatabase.getMemory in Eget.
          apply find_some in Eget as [_ E]. by apply Nat.eqb_eq in E. }
        apply filter_ext. intros i.
        rewrite getMemory_incrementFrequency.
        by destruct (MemoryDatabase.getMemory i db).
      * rewrite Hrows.
        unfold MemoryDatabase.incrementFrequency, MemoryDatabase.update.
        cbn [MemoryDatabase.rows MemoryDatabase.with_rows].
        rewrite map_map. apply map_ext. intros u. cbn [List.filter].
        destruct (Nat.eqb_spec (MemoryUnit.id u) id) as [E|E].
        -- destruct u. unfold MemoryUnit.set_frequency. cbn in *. f_equal. lia.
        -- done.
      * intros Hq. rewrite Hlog0 by done. unfold log1. rewrite Hq.
        by destruct sessionId.
      * intros Hq. specialize (Hlog1 Hq). unfold log1 in Hlog1.
        rewrite Hq in Hlog1. destruct sessionId as [session|]; [|done].
        rewrite !length_app in Hlog1. cbn in Hlog1. lia.
      * intros Hall. apply Hrel. apply Forall_app. split; [done|].
        by repeat constructor.
    + destruct (IH details db log) as (Hids & Hrows & Hlog0 & Hlog1 & Hrel).
      cbv zeta in Hids, Hrows, Hlog0, Hlog1, Hrel.
      set (out := fold_left _ ids _) in *.
      split; [|split; [|split; [|split]]]; try done.
      * rewrite Hids. cbn [List.filter]. rewrite Eget.
        rewrite bool_decide_eq_false_2; [done|]. by intros [? ?].
      * rewrite Hrows. apply map_ext_in. intros u Hu. cbn [List.filter].
        apply getMemory_None_rows in Eget. rewrite Forall_forall in Eget.
        apply list_elem_of_In, Eget in Hu.
        by destruct (Nat.eqb_spec (MemoryUnit.id u) id).
Qed.

(** X20: [retrieveDetails] answers the requested ids in the order of the
    request and skips the ids the store does not know; the score of a
    detail is the strength the unit had when it was read. Every requested
    occurrence of a known id raises that unit's frequency by one, with or
    without a session, and nothing else in the store changes. The
    retrieval log grows by one entry per detail when there is a session
    id, and not at all without one or with an empty one. *)
Theorem retrieveDetails_skips_unknown_and_counts_each_request
    memoryIds sessionId db log :
  let out := MemoryRetrieval.retrieveDetails memoryIds sessionId db log in
  List.map (fun d => MemoryUnit.id (RetrievalDetail.memory d)) out.1
  = List.filter
      (fun id => bool_decide (is_Some (MemoryDatabase.getMemory id db)))
      memoryIds
  /\ MemoryDatabase.rows out.2.1
     = List.map
         (fun u =>
            MemoryUnit.set_frequency
              (MemoryUnit.frequency u
               + length (List.filter (Nat.eqb (MemoryUnit.id u)) memoryIds))
              u)
         (MemoryDatabase.rows db)
  /\ Forall
       (fun d =>
          RetrievalDetail.relevanceScore d
          = MemoryUnit.strength (RetrievalDetail.memory d))
       out.1
  /\ (if truthy sessionId
      then length out.2.2 = (length log + length out.1)%nat
      else out.2.2 = log).
Proof.
  unfold MemoryRetrieval.retrieveDetails.
  destruct (fold_retrieveDetail sessionId memoryIds [] db log)
    as (Hids & Hrows & Hlog0 & Hlog1 & Hrel).
  cbv zeta in *. cbn [List.map app length] in *.
  split; [done|]. split; [done|]. split; [by apply Hrel|].
  destruct (truthy sessionId).
  - specialize (Hlog1 eq_refl). lia.
  - by apply Hlog0.
Qed.

(** ** Summaries cut to size *)

Lemma length_append (a b : string) :
  String.length (a +:+ b) = (String.length a + String.length b)%nat.
Proof. induction a as [|c a IH]; simpl; [done|]. by f_equal. Qed.

Lemma substring_0_length n s :
  String.length (String.substring 0 n s) = Nat.min n (String.length s).
Proof.
  revert s. induction n as [|n IH]; intros [|c s]; cbn; try done.
  by rewrite IH.
Qed.

Lemma substring_0_prefix n s :
  exists rest, s = String.substring 0 n s +:+ rest.
Proof.
  revert s. induction n as [|n IH]; intros [|c s]; simpl.
  - by exists "".
  - by exists (String c s).
  - by exists "".
  - destruct (IH s) as [rest Hrest]. exists rest.
    change (String c s = String c (String.substring 0 n s +:+ rest)).
    by f_equal.
Qed.

Lemma slice_to_length s e :
  (0 <= e <= Z.of_nat (String.length s))%Z ->
  Z.of_nat (String.length (JS.slice_to s e)) = e.
Proof.
  intros He. unfold JS.slice_to. cbv zeta.
  destruct (Z.ltb_spec e 0) as [Hneg|_]; [lia|].
  rewrite substring_0_length. lia.
Qed.

Lemma cut_with_dots text maxLength :
  (3 <= maxLength)%Z ->
  (maxLength < Z.of_nat (String.length text))%Z ->
  exists kept rest,
    text = kept +:+ rest
    /\ Z.of_nat (String.length kept) = (maxLength - 3)%Z
    /\ JS.slice_to text (maxLength - 3) +:+ "..." = kept +:+ "...".
Proof.
  intros Hmax Hlong.
  destruct (substring_0_prefix
              (Z.to_nat
                 (if (maxLength - 3 <? 0)%Z
                  then Z.max (Z.of_nat (String.length text) + (maxLength - 3)) 0
                  else Z.min (maxLength - 3) (Z.of_nat (String.length text))))
              text) as [rest Hrest].
  exists (JS.slice_to text (maxLength - 3)), rest.
  split; [exact Hrest|]. split; [|done].
  apply slice_to_length. lia.
Qed.

(** X21: with room for the three dots ([maxLength >= 3]) the summary
    [truncateSummary] returns never has more than [maxLength] code units:
    a summary that fits is returned as it is, and a longer one is cut to
    its first [maxLength - 3] code units followed by three dots, which
    makes exactly [maxLength]. *)
Theorem truncateSummary_fits summary maxLength :
  (3 <= maxLength)%Z ->
  (Z.of_nat (String.length (SessionStartHook.truncateSummary summary maxLength))
   <= maxLength)%Z
  /\ ((Z.of_nat (String.length summary) <= maxLength)%Z ->
      SessionStartHook.truncateSummary summary maxLength = summary)
  /\ ((maxLength < Z.of_nat (String.length summary))%Z ->
      exists kept rest,
        summary = kept +:+ rest
        /\ Z.of_nat (String.length kept) = (maxLength - 3)%Z
        /\ SessionStartHook.truncateSummary summary maxLength
           = kept +:+ "...").
Proof.
  intros Hmax. unfold SessionStartHook.truncateSummary.
  destruct (Z.leb_spec (Z.of_nat (String.length summary)) maxLength)
    as [Hfits|Hlong].
  - split; [done|]. split; [done|]. lia.
  - destruct (cut_with_dots summary maxLength Hmax Hlong)
      as (kept & rest & Hsplit & Hlen & Hcut).
    split; [|split; [lia|]].
    + rewrite Hcut, length_append. cbn [String.length]. lia.
    + intros _. by exists kept, rest.
Qed.

(** X22: [truncate] of the post-tool-use hook returns the empty string for
    a missing or empty text; with [maxLength >= 3] its result never has
    more than [maxLength] code units, a text that fits is returned as it
    is, and a longer one is cut to its first [maxLength - 3] code units
    followed by three dots. *)
Theorem truncate_fits str maxLength :
  (3 <= maxLength)%Z ->
  (Z.of_nat (String.length (PostToolUseHook.truncate str maxLength))
   <= maxLength)%Z
  /\ (truthy str = false -> PostToolUseHook.truncate str maxLength = "")
  /\ (forall text,
        str = Some text ->
        (Z.of_nat (String.length text) <= maxLength)%Z ->
        PostToolUseHook.truncate str maxLength = text)
  /\ (forall text,
        str = Some text ->
        (maxLength < Z.of_nat (String.length text))%Z ->
        exists kept rest,
          text = kept +:+ rest
          /\ Z.of_nat (String.length kept) = (maxLength - 3)%Z
          /\ PostToolUseHook.truncate str maxLength = kept +:+ "...").
Proof.
  intros Hmax. unfold PostToolUseHook.truncate.
  destruct str as [text|]; cbn [truthy negb].
  2: { cbn [String.length]. split; [lia|]. split; [done|]. by split. }
  destruct (String.eqb_spec text "") as [->|Hne]; cbn [negb].
  { cbn [String.length].
    split; [lia|]. split; [done|]. split.
    - by intros ? [= <-].
    - intros ? [= <-]. cbn [String.length]. lia. }
  destruct (Z.leb_spec (Z.of_nat (String.length text)) maxLength)
    as [Hfits|Hlong].
  - split; [done|]. split; [done|]. split.
    + by intros ? [= <-].
    + intros ? [= <-]. lia.
  - destruct (cut_with_dots text maxLength Hmax Hlong)
      as (kept & rest & Hsplit & Hlen & Hcut).
    split; [|split; [done|split]].
    + rewrite Hcut, length_append. cbn [String.length]. lia.
    + intros ? [= <-]. lia.
    + intros ? [= <-] _. by exists kept, rest.
Qed.

Lemma estimateTokens_ceiling n :
  (n <= 4 * Nat.div (n + 3) 4 < n + 4)%nat.
Proof.
  pose proof (Nat.div_mod_eq (n + 3) 4) as Hdiv.
  pose proof (Nat.mod_upper_bound (n + 3) 4). lia.
Qed.

(** X23: [buildIndex] of the session-start hook makes one item per unit, in
    the order of the units. The item carries the unit's id, classification,
    store and strength, the strength as relevance score as well, a summary
    of at most 100 code units (the unit's own when that fits), and a token
    estimate taken from the whole summary, not from the cut one: the
    number of code units divided by four, rounded up. *)
Theorem buildIndex_item_per_unit memories :
  Forall2
    (fun mem item =>
       RetrievalIndexItem.id item = MemoryUnit.id mem
       /\ RetrievalIndexItem.classification item = MemoryUnit.classification mem
       /\ RetrievalIndexItem.store item = MemoryUnit.store mem
       /\ RetrievalIndexItem.strength item = MemoryUnit.strength mem
       /\ RetrievalIndexItem.relevanceScore item = MemoryUnit.strength mem
       /\ (String.length (RetrievalIndexItem.summary item) <= 100)%nat
       /\ ((String.length (MemoryUnit.summary mem) <= 100)%nat ->
           RetrievalIndexItem.summary item = MemoryUnit.summary mem)
       /\ (String.length (MemoryUnit.summary mem)
           <= 4 * RetrievalIndexItem.estimatedTokens item
           < String.length (MemoryUnit.summary mem) + 4)%nat)
    memories (SessionStartHook.buildIndex memories).
Proof.
  unfold SessionStartHook.buildIndex.
  induction memories as [|mem memories IH]; cbn [List.map]; constructor;
    [|exact IH].
  cbn [RetrievalIndexItem.id RetrievalIndexItem.classification
       RetrievalIndexItem.store RetrievalIndexItem.strength
       RetrievalIndexItem.relevanceScore RetrievalIndexItem.summary
       RetrievalIndexItem.estimatedTokens].
  do 5 (split; [done|]).
  unfold SessionStartHook.truncateSummary, SessionStartHook.estimateTokens.
  split; [|split].
  - destruct (Z.leb_spec (Z.of_nat (String.length (MemoryUnit.summary mem)))
                100) as [Hfits|Hlong]; [lia|].
    destruct (cut_with_dots (MemoryUnit.summary mem) 100 ltac:(lia) Hlong)
      as (kept & rest & Hsplit & Hlen & Hcut).
    rewrite Hcut, length_append. cbn [String.length]. lia.
  - intros Hfits.
    destruct (Z.leb_spec (Z.of_nat (String.length (MemoryUnit.summary mem)))
                100); [done|lia].
  - apply estimateTokens_ceiling.
Qed.

(** ** Index items by classification *)

Lemma classification_name_inj c c' :
  classification_name c = classification_name c' -> c = c'.
Proof. by destruct c, c'. Qed.

Lemma group_of_push_same groups key item items :
  SessionStartHook.group_of groups key = Some items ->
  SessionStartHook.group_of (SessionStartHook.push_to groups key item) key
  = Some (items ++ [item]).
Proof.
  induction groups as [|[k its] rest IH]; cbn; [done|].
  destruct (String.eqb k key) eqn:E; cbn; rewrite E; [|done].
  by intros [= ->].
Qed.

Lemma group_of_push_other groups key key' item :
  key <> key' ->
  SessionStartHook.group_of (SessionStartHook.push_to groups key item) key'
  = SessionStartHook.group_of groups key'.
Proof.
  intros Hne. induction groups as [|[k its] rest IH]; cbn; [done|].
  destruct (String.eqb_spec k key) as [->|Hk]; cbn.
  - destruct (String.eqb_spec key key'); done.
  - by rewrite IH.
Qed.

Lemma keys_push_to groups key item :
  List.map fst (SessionStartHook.push_to groups key item)
  = List.map fst groups.
Proof.
  induction groups as [|[k its] rest IH]; cbn; [done|].
  destruct (String.eqb k key); cbn; [done|]. by rewrite IH.
Qed.

Lemma fold_group_step index groups :
  (forall c,
     is_Some (SessionStartHook.group_of groups (classification_name c))) ->
  let out :=
    fold_left
      (fun groups item =>
         let key :=
           classification_name (RetrievalIndexItem.classification item) in
         match SessionStartHook.group_of groups key with
         | Some _ => SessionStartHook.push_to groups key item
         | None =>
             match SessionStartHook.group_of groups "episodic" with
             | Some _ => SessionStartHook.push_to groups "episodic" item
             | None => groups
             end
         end)
      index groups in
  List.map fst out = List.map fst groups
  /\ forall c,
       SessionStartHook.group_of out (classification_name c)
       = (fun items =>
            items
            ++ List.filter
                 (fun item =>
                    bool_decide (RetrievalIndexItem.classification item = c))
                 index)
         <$> SessionStartHook.group_of groups (classification_name c).
Proof.
  revert groups. induction index as [|item index IH]; intros groups Hall.
  - cbn. split; [done|]. intros c. destruct (Hall c) as [items ->].
    cbn. by rewrite app_nil_r.
  - cbn [fold_left]. cbv zeta.
    destruct (Hall (RetrievalIndexItem.classification item))
      as [items0 Hitems0].
    rewrite Hitems0.
    set (key := classification_name (RetrievalIndexItem.classification item))
      in *.
    destruct (IH (SessionStartHook.push_to groups key item)) as [Hkeys Hgroups].
    { intros c. destruct (decide (RetrievalIndexItem.classification item = c))
        as [<-|Hne].
      - fold key. by rewrite (group_of_push_same _ _ _ _ Hitems0).
      - rewrite group_of_push_other; [apply Hall|].
        intros E. by apply classification_name_inj in E. }
    cbv zeta in Hkeys, Hgroups. split.
    + by rewrite Hkeys, keys_push_to.
    + intros c. rewrite Hgroups. cbn [List.filter].
      destruct (decide (RetrievalIndexItem.classification item = c))
        as [<-|Hne].
      * fold key. rewrite (group_of_push_same _ _ _ _ Hitems0), Hitems0.
        rewrite bool_decide_eq_true_2 by done. cbn.
        by rewrite <- app_assoc.
      * rewrite group_of_push_other.
        2: { intros E. by apply classification_name_inj in E. }
        by rewrite bool_decide_eq_false_2 by done.
Qed.

(** X24: [groupByClassification] returns the eight groups in the order
    the code lists them, and the group of a classification holds exactly
    the index items of that classification, in the order of the index;
    no item is dropped, doubled or moved to another group. *)
Theorem groupByClassification_partitions_the_index index :
  List.map fst (SessionStartHook.groupByClassification index)
  = ["bugfix"; "learning"; "decision"; "preference"; "constraint";
     "procedural"; "semantic"; "episodic"]
  /\ forall c,
       SessionStartHook.group_of
         (SessionStartHook.groupByClassification index)
         (classification_name c)
       = Some
           (List.filter
              (fun item =>
                 bool_decide (RetrievalIndexItem.classification item = c))
              index).
Proof.
  unfold SessionStartHook.groupByClassification.
  destruct (fold_group_step index SessionStartHook.empty_groups)
    as [Hkeys Hgroups].
  { intros c. by destruct c; cbn. }
  cbv zeta in Hkeys, Hgroups. split; [exact Hkeys|].
  intros c. rewrite Hgroups. by destruct c.
Qed.

(** ** Statistics of the stores *)

Lemma fold_sum_strengths memories acc :
  fold_left (fun sum m => sum + MemoryUnit.strength m) memories acc
  = acc + fold_right Rplus 0 (List.map MemoryUnit.strength memories).
Proof.
  revert acc. induction memories as [|m memories IH]; intros acc; cbn.
  - lra.
  - rewrite IH. lra.
Qed.

Lemma sum_strengths_bounds lo hi memories :
  Forall (fun m => lo <= MemoryUnit.strength m <= hi) memories ->
  INR (length memories) * lo
  <= fold_right Rplus 0 (List.map MemoryUnit.strength memories)
  <= INR (length memories) * hi.
Proof.
  induction 1 as [|m memories Hm _ IH].
  - cbn. lra.
  - cbn [length List.map fold_right]. rewrite S_INR. lra.
Qed.

Lemma avgStrength_bounds lo hi memories :
  lo <= 0 <= hi ->
  Forall (fun m => lo <= MemoryUnit.strength m <= hi) memories ->
  lo <= PsychMem.avgStrength memories <= hi.
Proof.
  intros Hzero Hall. unfold PsychMem.avgStrength.
  destruct memories as [|m memories]; [done|].
  change (length (m :: memories) =? 0)%nat with false. cbv iota.
  rewrite fold_sum_strengths, Rplus_0_l.
  pose proof (sum_strengths_bounds lo hi _ Hall) as Hsum.
  assert (0 < INR (length (m :: memories))) as Hpos.
  { apply lt_0_INR. cbn. lia. }
  set (n := INR (length (m :: memories))) in *.
  set (total := fold_right Rplus 0 _) in *.
  split.
  - apply Rmult_le_reg_r with n; [done|]. unfold Rdiv.
    rewrite Rmult_assoc, Rinv_l by lra. lra.
  - apply Rmult_le_reg_r with n; [done|]. unfold Rdiv.
    rewrite Rmult_assoc, Rinv_l by lra. lra.
Qed.

(** X26: when every stored strength lies between 0 and 1, as the data
    model has it, both average strengths [getStats] reports lie between 0
    and 1, also for a store that has no short-term or no long-term unit
    at all. *)
Theorem getStats_averages_within_unit_interval db :
  Forall (fun m => 0 <= MemoryUnit.strength m <= 1) (MemoryDatabase.rows db) ->
  let stats := PsychMem.getStats db in
  0 <= StoreStats.avgStrength (Stats.stm stats) <= 1
  /\ 0 <= StoreStats.avgStrength (Stats.ltm stats) <= 1.
Proof.
  intros Hall. cbn.
  assert (forall s,
            Forall (fun m => 0 <= MemoryUnit.strength m <= 1)
              (MemoryDatabase.getMemoriesByStore s db)) as Hsub.
  { intros s. unfold MemoryDatabase.getMemoriesByStore.
    rewrite Forall_forall in Hall. apply Forall_forall. intros m Hm.
    apply Hall. apply list_elem_of_In in Hm. apply filter_In in Hm as [Hm _].
    by apply list_elem_of_In. }
  split; (apply avgStrength_bounds; [lra|done]).
Qed.

(** ** Searching by text *)

Lemma StronglySorted_map {A B} (rel : B -> B -> Prop) (f : A -> B) l :
  StronglySorted (fun a b => rel (f a) (f b)) l ->
  StronglySorted rel (List.map f l).
Proof.
  induction 1 as [|x l Hs IH Hx]; cbn [List.map]; constructor; [done|].
  clear -Hx. induction Hx; cbn [List.map]; by constructor.
Qed.

(** The later the clock is read, the smaller the recency bonus: relevance
    never grows with the reading. *)
Lemma calculateRelevance_antitone now now' memory query :
  (now <= now')%Z ->
  MemoryRetrieval.calculateRelevance now' memory query
  <= MemoryRetrieval.calculateRelevance now memory query.
Proof.
  intros Hle. unfold MemoryRetrieval.calculateRelevance. cbv zeta.
  set (base := _ * 2.0 * _ + _).
  assert (IZR (now - MemoryUnit.createdAt memory)
          <= IZR (now' - MemoryUnit.createdAt memory)) as Hage.
  { apply IZR_le. lia. }
  set (age := IZR (now - _)) in *. set (age' := IZR (now' - _)) in *.
  assert (Rmax 0 (0.05 - age' / (1000 * 60 * 60) / 2000)
          <= Rmax 0 (0.05 - age / (1000 * 60 * 60) / 2000)) as Hbonus.
  { apply Rmax_lub; [apply Rmax_l|].
    eapply Rle_trans; [|apply Rmax_r]. lra. }
  apply Rmin_glb; [apply Rmin_l|].
  eapply Rle_trans; [apply Rmin_r|]. lra.
Qed.

Lemma imap_steady {A B} (f : A -> B) (g : nat -> A -> B) (l : list A) :
  (forall i x, g i x = f x) -> imap g l = List.map f l.
Proof.
  intros Hg. rewrite (imap_ext g (const f)); [apply imap_const|].
  intros i x _. apply Hg.
Qed.

(** When the clock reads the same value throughout the call, the index is
    the one of the definitions that take a single reading. *)
Lemma retrieveIndex_steady_clock config clock query db :
  (forall k, clock k = clock 0%nat) ->
  MemoryRetrieval.Ticking.retrieveIndex config clock query db
  = MemoryRetrieval.retrieveIndex config (clock 0%nat) query db.
Proof.
  intros Hsteady.
  unfold MemoryRetrieval.Ticking.retrieveIndex, MemoryRetrieval.retrieveIndex.
  cbv zeta.
  set (pool := MemoryRetrieval.getFilteredMemories _ _ db).
  assert (forall q,
            MemoryRetrieval.Ticking.rankByTextSimilarity clock pool q
            = MemoryRetrieval.rankByTextSimilarity (clock 0%nat) pool q)
    as Hrank.
  { intros q. unfold MemoryRetrieval.Ticking.rankByTextSimilarity,
      MemoryRetrieval.rankByTextSimilarity. cbv zeta.
    do 2 f_equal. apply imap_steady. intros i mem. by rewrite Hsteady. }
  destruct (RetrievalQuery.query query) as [q|];
    [destruct (truthy (Some q))|];
    rewrite ?Hrank; apply imap_steady; intros i mem; by rewrite Hsteady.
Qed.

(** X27: [search] with a text that is not empty, the clock read anew by
    every call of [calculateRelevance]. The index has at most [limit]
    items (the configured default when no limit is given), each the index
    item of a stored unit of the pool, and the items come in descending
    order of the score the unit got when the pool was ranked. The
    relevance score an item carries is not that score: it is computed
    again when the item is built, at a later reading of the clock. It is
    at most the ranking score when the clock does not go backwards, and
    when the clock reads the same value throughout, the index is the one
    of the single-reading definitions and the scores it carries come in
    descending order. *)
Theorem search_orders_by_ranking_scores
    (config : PsychMemConfig.t) (clock : nat -> Z) (query : string)
    (filters : option RetrievalFilters.t) (limit : option nat)
    (db : MemoryDatabase.t) :
  query <> "" ->
  let n := default (PsychMemConfig.defaultRetrievalLimit config) limit in
  let pool :=
    MemoryRetrieval.getFilteredMemories filters
      (Some (Nat.min 200 (Nat.max 50 (n * 10)))) db in
  let index :=
    MemoryRetrieval.Ticking.search config clock query filters limit db in
  exists chosen : list (MemoryUnit.t * R),
    index
    = imap
        (fun j p =>
           MemoryRetrieval.toIndexItem (clock (length pool + j)%nat) p.1
             (Some query))
        chosen
    /\ (length chosen <= n)%nat
    /\ Forall
         (fun p =>
            p.1 ∈ MemoryDatabase.rows db
            /\ exists i,
                 pool !! i = Some p.1
                 /\ p.2
                    = MemoryRetrieval.calculateRelevance (clock i) p.1 query)
         chosen
    /\ StronglySorted (fun a b => b.2 <= a.2) chosen
    /\ (forall j p,
           chosen !! j = Some p ->
           RetrievalIndexItem.relevanceScore <$> index !! j
           = Some
               (MemoryRetrieval.calculateRelevance
                  (clock (length pool + j)%nat) p.1 query))
    /\ ((forall a b, (a <= b)%nat -> (clock a <= clock b)%Z) ->
        Forall2
          (fun p item => RetrievalIndexItem.relevanceScore item <= p.2)
          chosen index)
    /\ ((forall k, clock k = clock 0%nat) ->
        index
        = MemoryRetrieval.search config (clock 0%nat) query filters limit db
        /\ StronglySorted
             (fun a b =>
                RetrievalIndexItem.relevanceScore b
                <= RetrievalIndexItem.relevanceScore a)
             index).
Proof.
  intros Hquery n pool index.
  assert (truthy (Some query) = true) as Htruthy.
  { cbn. by destruct (String.eqb_spec query ""). }
  assert (forall t mem,
            RetrievalIndexItem.relevanceScore
              (MemoryRetrieval.toIndexItem t mem (Some query))
            = MemoryRetrieval.calculateRelevance t mem query) as Hscore.
  { intros t mem. unfold MemoryRetrieval.toIndexItem.
    cbn [RetrievalIndexItem.relevanceScore]. by rewrite Htruthy. }
  set (scored :=
         imap
           (fun i mem =>
              (mem, MemoryRetrieval.calculateRelevance (clock i) mem query))
           pool).
  set (chosen := firstn n (sort_desc snd scored)).
  assert (index
          = imap
              (fun j p =>
                 MemoryRetrieval.toIndexItem (clock (length pool + j)%nat)
                   p.1 (Some query))
              chosen) as Hindex.
  { unfold index, MemoryRetrieval.Ticking.search,
      MemoryRetrieval.Ticking.retrieveIndex.
    cbn [RetrievalQuery.query RetrievalQuery.filters RetrievalQuery.limit
         default]. unfold Datatypes.id. rewrite Htruthy.
    fold n. fold pool.
    unfold MemoryRetrieval.Ticking.rankByTextSimilarity. cbv zeta.
    fold scored. rewrite firstn_map. fold chosen.
    change (List.map fst chosen) with (fst <$> chosen).
    by rewrite imap_fmap. }
  assert (Forall
            (fun p =>
               p.1 ∈ MemoryDatabase.rows db
               /\ exists i,
                    pool !! i = Some p.1
                    /\ p.2
                       = MemoryRetrieval.calculateRelevance (clock i) p.1
                           query)
            chosen) as Hchosen.
  { apply Forall_forall. intros p Hp.
    eapply elem_of_sublist in Hp; [|apply sublist_take].
    rewrite sort_desc_perm in Hp.
    apply elem_of_lookup_imap_1 in Hp as (i & mem & -> & Hmem).
    cbn [fst snd]. split; [|by exists i].
    apply list_elem_of_lookup_2 in Hmem.
    pose proof (getFilteredMemories_sublist filters
                  (Nat.min 200 (Nat.max 50 (n * 10))) db) as Hsub.
    fold pool in Hsub.
    eapply elem_of_sublist in Hmem; [|exact Hsub].
    destruct (getTopMemories_pool (Nat.min 200 (Nat.max 50 (n * 10))) db)
      as (Hpool & _).
    eapply elem_of_submseteq in Hmem; [|exact Hpool].
    apply list_elem_of_In, filter_In in Hmem as [Hmem _].
    by apply list_elem_of_In. }
  assert (StronglySorted (fun a b : MemoryUnit.t * R => b.2 <= a.2) chosen)
    as Hsorted.
  { eapply StronglySorted_sublist; [apply sublist_take|].
    apply sort_desc_sorted. }
  assert (forall j p,
             chosen !! j = Some p ->
             RetrievalIndexItem.relevanceScore <$> index !! j
             = Some
                 (MemoryRetrieval.calculateRelevance
                    (clock (length pool + j)%nat) p.1 query)) as Hcarried.
  { intros j p Hp. rewrite Hindex, list_lookup_imap, Hp.
    cbn [fmap option_fmap option_map]. by rewrite Hscore. }
  exists chosen. split; [exact Hindex|].
  split; [unfold chosen; rewrite length_take; lia|].
  split; [exact Hchosen|]. split; [exact Hsorted|].
  split; [exact Hcarried|]. split.
  - intros Hmono. rewrite Hindex.
    apply Forall2_same_length_lookup. split; [by rewrite length_imap|].
    intros j p item Hp Hitem.
    rewrite list_lookup_imap, Hp in Hitem.
    cbn [fmap option_fmap option_map] in Hitem.
    injection Hitem as <-. rewrite Hscore.
    rewrite Forall_forall in Hchosen.
    destruct (Hchosen p) as (_ & i & Hi & ->).
    { by eapply list_elem_of_lookup_2. }
    apply calculateRelevance_antitone, Hmono.
    apply lookup_lt_Some in Hi. lia.
  - intros Hsteady. split.
    { unfold index, MemoryRetrieval.Ticking.search, MemoryRetrieval.search.
      by apply retrieveIndex_steady_clock. }
    rewrite Hindex.
    rewrite (imap_steady
               (fun p : MemoryUnit.t * R =>
                  MemoryRetrieval.toIndexItem (clock 0%nat) p.1 (Some query)))
      by (intros j p; by rewrite Hsteady).
    apply StronglySorted_map.
    assert (Forall
              (fun p : MemoryUnit.t * R =>
                 RetrievalIndexItem.relevanceScore
                   (MemoryRetrieval.toIndexItem (clock 0%nat) p.1
                      (Some query))
                 = p.2) chosen) as Hkeys.
    { eapply Forall_impl; [exact Hchosen|]. cbn beta.
      intros p (_ & i & _ & ->). by rewrite Hscore, (Hsteady i). }
    clear -Hsorted Hkeys.
    induction Hsorted as [|p l Hs IH Hp]; [constructor|].
    apply Forall_cons in Hkeys as [Ep Hl]. constructor; [by apply IH|].
    rewrite Forall_forall in Hp, Hl. apply Forall_forall. intros q Hq.
    rewrite Ep, (Hl q Hq). by apply Hp.
Qed.

(** * The further properties at work on the sample data *)

(** Two candidates processed into the store that holds the unit about
    tabs: the unit is still the first row, as it was. *)
Lemma processCandidates_keeps_the_stored_unit :
  exists added,
    MemoryDatabase.rows
      (SelectiveMemory.processCandidates Sample.config 0 None
         [Sample.candidate "deploy fails"; Sample.candidate "cache is stale"]
         (Sample.store_of [Sample.tabs])).2
    = [Sample.tabs] ++ added
    /\ Forall2
         (fun memory row =>
            row = MemoryUnit.set_strength (MemoryUnit.strength row) memory)
         (SelectiveMemory.processCandidates Sample.config 0 None
            [Sample.candidate "deploy fails";
             Sample.candidate "cache is stale"]
            (Sample.store_of [Sample.tabs])).1
         added.
Proof.
  exact (proj1 (proj2
           (processCandidates_appends_a_row_per_candidate Sample.config 0
              None
              [Sample.candidate "deploy fails";
               Sample.candidate "cache is stale"]
              (Sample.store_of [Sample.tabs]) sample_tabs_wf))).
Defined.

(** Consolidating the two short-term sample units creates no id. *)
Lemma runConsolidation_keeps_the_id_counter :
  MemoryDatabase.nextId
    (SelectiveMemory.runConsolidation Sample.config
       (Sample.store_of [Sample.weak; Sample.strong])).2
  = 3%nat.
Proof.
  exact (proj2 (proj2 (proj2
           (runConsolidation_frame Sample.config
              (Sample.store_of [Sample.weak; Sample.strong])
              sample_pair_wf)))).
Defined.

(** A second consolidation of the two sample units changes nothing. *)
Lemma runConsolidation_twice_on_the_sample_store :
  let db1 :=
    (SelectiveMemory.runConsolidation Sample.config
       (Sample.store_of [Sample.weak; Sample.strong])).2 in
  (SelectiveMemory.runConsolidation Sample.config db1).2 = db1.
Proof.
  exact (proj2 (proj2
           (runConsolidation_again_promotes_nothing Sample.config
              (Sample.store_of [Sample.weak; Sample.strong])
              sample_pair_wf))).
Defined.

(** With the sample weights, a unit seen twice, five hours old and of
    importance 0.6 is at least as strong as one seen once, ten hours old
    and of importance 0.5. *)
Lemma calculateStrength_of_fresher_unit :
  SelectiveMemory.calculateStrength Sample.config
    (MemoryFeatureVector.mk 10 1 0.5 0.5 0.5 0.5 0)
  <= SelectiveMemory.calculateStrength Sample.config
       (MemoryFeatureVector.mk 5 2 0.6 0.5 0.5 0.5 0).
Proof.
  apply calculateStrength_monotone; simpl; lra.
Defined.

(** Without a text the index of the two sample units comes by
    strength. *)
Lemma retrieveIndex_of_the_sample_store_by_strength :
  StronglySorted
    (fun a b => RetrievalIndexItem.strength b <= RetrievalIndexItem.strength a)
    (MemoryRetrieval.retrieveIndex Sample.config Sample.later
       (RetrievalQuery.mk None None (Some 5%nat))
       (Sample.store_of [Sample.login_fix; Sample.plurals])).
Proof.
  exact (proj1
           (retrieveIndex_without_text_orders_by_strength Sample.config
              Sample.later (RetrievalQuery.mk None None (Some 5%nat))
              (Sample.store_of [Sample.login_fix; Sample.plurals])
              eq_refl)).
Defined.

(** The query "is it" has no keyword: the login fix, 200 hours old, gets
    the recency bonus alone. *)
Lemma relevance_of_the_login_fix_to_short_words :
  MemoryRetrieval.calculateRelevance Sample.later Sample.login_fix "is it"
  = Rmin 1
      (Rmax 0
         (0.05
          - IZR (Sample.later - MemoryUnit.createdAt Sample.login_fix)
            / (1000 * 60 * 60) / 2000)).
Proof.
  apply calculateRelevance_without_keywords.
  intros w Hw.
  change (JS.split_ws (JS.toLowerCase "is it")) with ["is"; "it"] in Hw.
  repeat (apply elem_of_cons in Hw as [->|Hw]; [simpl; lia|]).
  by apply elem_of_nil in Hw.
Defined.

(** The summary of the login fix cut to ten code units. *)
Lemma truncateSummary_of_the_login_fix :
  (Z.of_nat
     (String.length
        (SessionStartHook.truncateSummary
           (MemoryUnit.summary Sample.login_fix) 10))
   <= 10)%Z.
Proof.
  apply (truncateSummary_fits (MemoryUnit.summary Sample.login_fix) 10).
  lia.
Defined.

(** The output of a tool cut to ten code units. *)
Lemma truncate_of_a_tool_output :
  (Z.of_nat
     (String.length
        (PostToolUseHook.truncate (Some "3 passed, 1 failed in 0.42s") 10))
   <= 10)%Z.
Proof.
  apply (truncate_fits (Some "3 passed, 1 failed in 0.42s") 10). lia.
Defined.

(** The average strengths of the store of the two short-term sample
    units. *)
Lemma getStats_of_the_sample_store :
  let stats :=
    PsychMem.getStats (Sample.store_of [Sample.weak; Sample.strong]) in
  0 <= StoreStats.avgStrength (Stats.stm stats) <= 1
  /\ 0 <= StoreStats.avgStrength (Stats.ltm stats) <= 1.
Proof.
  apply (getStats_averages_within_unit_interval
           (Sample.store_of [Sample.weak; Sample.strong])).
  repeat constructor; simpl; lra.
Defined.

(** Searching the sample store for "authentication bug" while the clock
    advances by one millisecond with every reading. *)
Lemma search_for_the_authentication_bug :
  let index :=
    MemoryRetrieval.Ticking.search Sample.config
      (fun k => (Sample.later + Z.of_nat k)%Z) "authentication bug" None
      (Some 5%nat) (Sample.store_of [Sample.login_fix; Sample.plurals]) in
  exists chosen : list (MemoryUnit.t * R),
    List.map RetrievalIndexItem.id index
    = List.map (fun p => MemoryUnit.id p.1) chosen
    /\ StronglySorted (fun a b => b.2 <= a.2) chosen
    /\ Forall2
         (fun p item => RetrievalIndexItem.relevanceScore item <= p.2)
         chosen index.
Proof.
  intros index.
  destruct (search_orders_by_ranking_scores Sample.config
              (fun k => (Sample.later + Z.of_nat k)%Z) "authentication bug"
              None (Some 5%nat)
              (Sample.store_of [Sample.login_fix; Sample.plurals]))
    as (chosen & Hindex & _ & _ & Hsorted & _ & Hmono & _).
  { discriminate. }
  exists chosen. split; [|split; [exact Hsorted|]].
  - fold index in Hindex. rewrite Hindex.
    change (List.map RetrievalIndexItem.id (imap ?f chosen))
      with (RetrievalIndexItem.id <$> imap f chosen).
    rewrite fmap_imap. by apply imap_steady.
  - apply Hmono. intros a b Hab. lia.
Defined.
